(** * Clean Up Everything: a shallow embedding of
      [src/contrib/clean_up_everything.py]

    The script drives two opaque collaborators: the host application's
    document/chunk object model and a desktop UI toolkit.  Both are modelled
    as oracles ([Host], [User], a directory tree for [os.walk]); the script
    itself is embedded in a small state-and-exception monad whose state
    carries the chunk objects the script mutates, the local [log] list and a
    trace of every externally visible action.

    The script is embedded twice.  [Script] is the script on chunk handles
    that refer to a chunk object.  [ScriptAny] is the same lines for a
    handle that may also be [None], as [doc.chunk] is for a document
    without chunks; there an attribute of the handle may raise
    [AttributeError].  On chunk objects the two agree.

    What the model takes for granted:
    - a tie-point set object is truthy;
    - [print] and the dialogs do not raise;
    - on a chunk object only the mutating calls, and besides them only
      [doc.open] and [doc.save], may raise, and they may raise whenever the
      host decides to;
    - strings are byte strings; [str.lower] acts on the ASCII letters, and
      [os.path.join] is the one of [posixpath]. *)

From Stdlib Require Import List String Ascii Bool Arith Lia.
Import ListNotations.
Open Scope string_scope.

(** ** Host object model *)

(** Identity of a host asset object (a tie-point set, a depth-map set, an
    orthomosaic, ...). *)
Definition Asset := nat.

(** The attributes of [Metashape.Chunk] that the script reads. *)
Record Chunk := mkChunk {
  label : string;
  tie_points : option Asset;
  depth_maps_sets : list Asset;
  point_clouds : list Asset;
  models : list Asset;
  tiled_models : list Asset;
  elevations : list Asset;
  orthomosaics : list Asset;
  shapes : option Asset }.

(** The mutating calls the script makes on a chunk. *)
Inductive HostOp :=
| RemoveKeypoints (tp : Asset)        (* chunk.tie_points.removeKeypoints() *)
| SetTiePointsNone                    (* chunk.tie_points = None *)
| Remove (items : list Asset)         (* chunk.remove(items) *)
| RemoveOrthophotos (ortho : Asset)   (* ortho.removeOrthophotos() *)
| SetShapesNone.                      (* chunk.shapes = None *)

(** The two chunk objects a handler can hold a reference to. *)
Inductive chunk_ref :=
| AppDocument       (* Metashape.app.document.chunk *)
| OpenedDocument.   (* doc.chunk of the Document opened by the batch loop *)

(** What the host does is not the script's business: every call may change
    the chunk in any way and may raise (the string is the exception's
    message). *)
Record Host := mkHost {
  host_call : HostOp -> Chunk -> option string * Chunk;
  doc_open : string -> string + Chunk;
  doc_save : string -> Chunk -> option string }.

(** ** UI toolkit *)

(** What the user does with the rows of the project selection table. *)
Inductive table_action :=
| SetRow (i : nat) (b : bool)   (* click the checkbox of row i *)
| SelectAll                     (* "Select All" button *)
| DeselectAll.                  (* "Deselect All" button *)

Record User := mkUser {
  (* QMessageBox.question(title, message) == Yes *)
  question_reply : string -> string -> bool;
  (* QFileDialog.exec_() and selectedFiles() of the file chooser *)
  file_dialog : option (list string);
  (* the same for the folder chooser *)
  folder_dialog : option string;
  (* the clicks in the selection table and whether it ends with OK *)
  table_session : list string -> list table_action * bool }.

(** ** File system, as [os.walk] sees it *)

(** A directory: its own name, its sub-directories and the names of its
    non-directory entries, in listing order. *)
#[warnings="-register-all"]
Inductive dir :=
| Dir (name : string) (subdirs : list dir) (files : list string).

Definition dir_name (d : dir) : string := match d with Dir n _ _ => n end.

(** ** Trace and state *)

Definition LogEntry := (string * string)%type.   (* (message, colour) *)

Inductive Event :=
| EDispatch (chunk : chunk_ref) (asset_type : string)   (* entry of handle_assets *)
| EHost (chunk : chunk_ref) (op : HostOp) (raised : option string)
| EPrint (line : string)
| EQuestion (title message : string) (reply : bool)
| EOpen (path : string) (raised : option string)
| ESave (path : string) (raised : option string)
| EShowLog (entries : list LogEntry).

Record State := mkState {
  app_chunk : Chunk;
  doc_chunk : Chunk;      (* meaningful once doc.open has succeeded *)
  log : list LogEntry;    (* the handler's local [log] list *)
  trace : list Event }.

Definition get_chunk (r : chunk_ref) (st : State) : Chunk :=
  match r with AppDocument => app_chunk st | OpenedDocument => doc_chunk st end.

Definition set_chunk (r : chunk_ref) (c : Chunk) (st : State) : State :=
  match r with
  | AppDocument => mkState c (doc_chunk st) (log st) (trace st)
  | OpenedDocument => mkState (app_chunk st) c (log st) (trace st)
  end.

Definition add_event (e : Event) (st : State) : State :=
  mkState (app_chunk st) (doc_chunk st) (log st) (trace st ++ [e]).

Definition add_log (x : LogEntry) (st : State) : State :=
  mkState (app_chunk st) (doc_chunk st) (log st ++ [x]) (trace st).

Definition clear_log (st : State) : State :=
  mkState (app_chunk st) (doc_chunk st) [] (trace st).

(** ** The monad: state that survives an exception *)

Inductive outcome (A : Type) :=
| Ok (a : A)
| Raise (e : string).
Arguments Ok {A} a.
Arguments Raise {A} e.

Definition M (A : Type) := State -> outcome A * State.

Definition ret {A} (a : A) : M A := fun st => (Ok a, st).

Definition bind {A B} (m : M A) (k : A -> M B) : M B :=
  fun st =>
    match m st with
    | (Ok a, st') => k a st'
    | (Raise e, st') => (Raise e, st')
    end.

Notation "x <- c1 ;; c2" := (bind c1 (fun x => c2))
  (at level 61, c1 at next level, right associativity).
Notation "c1 ;; c2" := (bind c1 (fun _ => c2))
  (at level 61, right associativity).

(** [try: body except Exception as e: handler e] *)
Definition try_except {A} (body : M A) (handler : string -> M A) : M A :=
  fun st =>
    match body st with
    | (Ok a, st') => (Ok a, st')
    | (Raise e, st') => handler e st'
    end.

(** [for x in xs: body x] *)
Fixpoint for_each {A} (xs : list A) (body : A -> M unit) : M unit :=
  match xs with
  | [] => ret tt
  | x :: xs' => body x ;; for_each xs' body
  end.

Definition emit (e : Event) : M unit := fun st => (Ok tt, add_event e st).

Definition print (line : string) : M unit := emit (EPrint line).

(** Reading an attribute of a chunk object. *)
Definition attr {A} (chunk : chunk_ref) (f : Chunk -> A) : M A :=
  fun st => (Ok (f (get_chunk chunk st)), st).

Definition log_new : M unit := fun st => (Ok tt, clear_log st).

Definition log_append (x : LogEntry) : M unit := fun st => (Ok tt, add_log x st).

Definition get_log : M (list LogEntry) := fun st => (Ok (log st), st).

(** ** CleanUpDlg *)

(** [self.checkboxes]: label and check state, in insertion order. *)
Definition Checkboxes := list (string * bool).

Record CleanUpDlg := mkDlg { checkboxes : Checkboxes }.

(** Lines 29-45: nine unchecked boxes, then four [setChecked(True)]. *)
Definition setChecked (name : string) (b : bool) (cbs : Checkboxes) : Checkboxes :=
  map (fun kv => if (fst kv =? name) then (fst kv, b) else kv) cbs.

Definition new_checkboxes : Checkboxes :=
  [ ("Key Points", false); ("Tie Points", false); ("Depth Maps", false);
    ("Point Clouds", false); ("Models", false); ("DEMs", false);
    ("Orthophotos", false); ("Orthomosaics", false); ("Shapes", false) ].

Definition init_checkboxes : Checkboxes :=
  setChecked "Point Clouds" true
    (setChecked "DEMs" true
      (setChecked "Orthomosaics" true
        (setChecked "Orthophotos" true new_checkboxes))).

(** [CleanUpDlg.__init__], as far as the check states go. *)
Definition new_dialog : CleanUpDlg := mkDlg init_checkboxes.

Definition get_selected_assets (self : CleanUpDlg) : list string :=
  map fst (filter snd (checkboxes self)).

(** Truth value of a Python list. *)
Definition truthy {A} (xs : list A) : bool :=
  match xs with [] => false | _ :: _ => true end.

(** ** Strings and paths *)

Definition lower_ascii (c : ascii) : ascii :=
  let n := nat_of_ascii c in
  if ((65 <=? n) && (n <=? 90))%nat then ascii_of_nat (n + 32) else c.

(** [str.lower], on the ASCII letters. *)
Fixpoint lower (s : string) : string :=
  match s with
  | EmptyString => EmptyString
  | String c s' => String (lower_ascii c) (lower s')
  end.

Definition endswith (s suffix : string) : bool :=
  let n := String.length s in
  let k := String.length suffix in
  (k <=? n)%nat && (substring (n - k) k s =? suffix).

Definition startswith (s pre : string) : bool := prefix pre s.

(** [os.path.join(a, b)] of posixpath. *)
Definition path_join (a b : string) : string :=
  if startswith b "/" then b
  else if (a =? "") || endswith a "/" then a ++ b
  else a ++ "/" ++ b.

(** Line 175: [file.lower().endswith(('.psz', '.psx'))] *)
Definition is_project_file (file : string) : bool :=
  endswith (lower file) ".psz" || endswith (lower file) ".psx".

(** [os.walk(top)], top-down: one triple (root, dirs, files) per directory. *)
Fixpoint walk (top : string) (d : dir) : list (string * list string * list string) :=
  match d with
  | Dir _ subdirs files =>
      (top, map dir_name subdirs, files)
      :: flat_map (fun sub => walk (path_join top (dir_name sub)) sub) subdirs
  end.

(** Lines 172-176. *)
Definition scan_projects (folder_path : string) (d : dir) : list string :=
  flat_map
    (fun '(root, _, files) =>
       map (path_join root) (filter is_project_file files))
    (walk folder_path d).

(** ** The project selection table *)

(** Lines 217-220. *)
Definition toggle_select_all (checkboxes : list bool) (state : bool) : list bool :=
  map (fun _ => state) checkboxes.

Fixpoint set_row (i : nat) (b : bool) (checkboxes : list bool) : list bool :=
  match checkboxes, i with
  | [], _ => []
  | _ :: rest, O => b :: rest
  | cb :: rest, S i' => cb :: set_row i' b rest
  end.

Definition table_step (checkboxes : list bool) (a : table_action) : list bool :=
  match a with
  | SetRow i b => set_row i b checkboxes
  | SelectAll => toggle_select_all checkboxes true
  | DeselectAll => toggle_select_all checkboxes false
  end.

(** Lines 201-207: one checked box per path. *)
Definition table_checkboxes (file_paths : list string) : list bool :=
  map (fun _ => true) file_paths.

(** Line 223:
    [[file_paths[i] for i, checkbox in enumerate(checkboxes) if checkbox.isChecked()]] *)
Fixpoint selected_files_from (i : nat) (file_paths : list string)
    (checkboxes : list bool) : option (list string) :=
  match checkboxes with
  | [] => Some []
  | checkbox :: rest =>
      if checkbox then
        match nth_error file_paths i with
        | Some p =>
            match selected_files_from (S i) file_paths rest with
            | Some ps => Some (p :: ps)
            | None => None
            end
        | None => None          (* IndexError *)
        end
      else selected_files_from (S i) file_paths rest
  end.

(** [sep.join(xs)] *)
Definition join (sep : string) (xs : list string) : string := String.concat sep xs.

Definition newline : string := String (ascii_of_nat 10) EmptyString.

(** The three kinds of log entry (lines 129/131, 156/158/161, 239/241/244). *)
Definition success_entry (asset name : string) : LogEntry :=
  ("Successfully removed " ++ asset ++ " from " ++ name, "black").

Definition failure_entry (asset name : string) : LogEntry :=
  ("Failed to remove " ++ asset ++ " from " ++ name, "red").

Definition io_failure_entry (file_path e : string) : LogEntry :=
  ("Failed to open or process " ++ file_path ++ ": " ++ e, "red").

(** Lines 73-79: the text of the confirmation dialog. *)
Definition confirm_title : string := "Confirm Removal of selected assets".

Definition confirm_message (assets projects : list string) : string :=
  let assets_message := join ", " assets in
  let projects_message := join newline projects in
  "Are you sure you want to remove the following assets:" ++ newline ++ newline ++
  assets_message ++ newline ++ newline ++
  "From the following projects:" ++ newline ++ newline ++
  projects_message.

(** The user's answer to the confirmation of this batch. *)
Definition confirmed (user : User) (assets projects : list string) : bool :=
  question_reply user confirm_title (confirm_message assets projects).

Section Script.

Variable host : Host.
Variable user : User.
Variable walk_tree : string -> dir.

(** Lines 72-83. *)
Definition confirm_removal (assets projects : list string) : M bool :=
  let message := confirm_message assets projects in
  let reply := question_reply user confirm_title message in
  emit (EQuestion confirm_title message reply) ;;
  ret reply.

(** A mutating call on the chunk: the host updates the object and may raise. *)
Definition call (chunk : chunk_ref) (op : HostOp) : M unit :=
  fun st =>
    let (raised, c') := host_call host op (get_chunk chunk st) in
    let st' := add_event (EHost chunk op raised) (set_chunk chunk c' st) in
    match raised with
    | None => (Ok tt, st')
    | Some e => (Raise e, st')
    end.

(** Lines 87-111, the chain of tests.  [Some b] is an early [return b]. *)
Definition handle_assets_body (chunk : chunk_ref) (asset_type : string)
  : M (option bool) :=
  if asset_type =? "Key Points" then
    tp <- attr chunk tie_points ;;
    match tp with
    | Some t => call chunk (RemoveKeypoints t) ;; ret None
    | None => ret None
    end
  else if asset_type =? "Tie Points" then
    call chunk SetTiePointsNone ;; ret None
  else if asset_type =? "Depth Maps" then
    items <- attr chunk depth_maps_sets ;; call chunk (Remove items) ;; ret None
  else if asset_type =? "Point Clouds" then
    items <- attr chunk point_clouds ;; call chunk (Remove items) ;; ret None
  else if asset_type =? "Models" then
    items <- attr chunk models ;; call chunk (Remove items) ;; ret None
  else if asset_type =? "Tiled Models" then
    items <- attr chunk tiled_models ;; call chunk (Remove items) ;; ret None
  else if asset_type =? "DEMs" then
    items <- attr chunk elevations ;; call chunk (Remove items) ;; ret None
  else if asset_type =? "Orthophotos" then
    orthos <- attr chunk orthomosaics ;;
    for_each orthos (fun ortho => call chunk (RemoveOrthophotos ortho)) ;;
    ret None
  else if asset_type =? "Orthomosaics" then
    items <- attr chunk orthomosaics ;; call chunk (Remove items) ;; ret None
  else if asset_type =? "Shapes" then
    call chunk SetShapesNone ;; ret None
  else
    print ("Unknown asset type: " ++ asset_type) ;;
    ret (Some false).

(** Lines 87-113: the whole [try] block. *)
Definition handle_assets_try (chunk : chunk_ref) (asset_type : string) : M bool :=
  early <- handle_assets_body chunk asset_type ;;
  match early with
  | Some b => ret b
  | None =>
      l <- attr chunk label ;;
      print (asset_type ++ " removed from " ++ l) ;;
      ret true
  end.

(** Lines 85-116. *)
Definition handle_assets (chunk : chunk_ref) (asset_type : string) : M bool :=
  emit (EDispatch chunk asset_type) ;;
  try_except
    (handle_assets_try chunk asset_type)
    (fun e =>
       l <- attr chunk label ;;
       print ("Failed to remove " ++ asset_type ++ " from " ++ l ++ ": " ++ e) ;;
       ret false).

(** Lines 126-131, 153-158 and 236-241: the pass over the selected assets.
    [shown] is what the log messages name: [chunk.label] or [file_path]. *)
Definition remove_assets (chunk : chunk_ref) (selected_assets : list string)
    (shown : M string) : M unit :=
  for_each selected_assets (fun asset =>
    success <- handle_assets chunk asset ;;
    name <- shown ;;
    if success then log_append (success_entry asset name)
    else log_append (failure_entry asset name)).

Definition show_log : M unit :=
  entries <- get_log ;; emit (EShowLog entries).

(** Lines 118-132. *)
Definition remove_from_project (self : CleanUpDlg) : M unit :=
  let chunk := AppDocument in
  let selected_assets := get_selected_assets self in
  let assets := selected_assets in
  l <- attr chunk label ;;
  let projects := [l] in
  log_new ;;
  ok <- confirm_removal assets projects ;;
  if ok then
    remove_assets chunk selected_assets (attr chunk label) ;;
    show_log
  else ret tt.

(** [doc = Metashape.Document(); doc.open(file_path)] *)
Definition open_document (file_path : string) : M unit :=
  fun st =>
    match doc_open host file_path with
    | inl e => (Raise e, add_event (EOpen file_path (Some e)) st)
    | inr c => (Ok tt, add_event (EOpen file_path None) (set_chunk OpenedDocument c st))
    end.

(** [doc.save()] *)
Definition save_document (file_path : string) : M unit :=
  fun st =>
    let raised := doc_save host file_path (doc_chunk st) in
    let st' := add_event (ESave file_path raised) st in
    match raised with
    | None => (Ok tt, st')
    | Some e => (Raise e, st')
    end.

(** Lines 149-161 and, word for word, 232-244: one target of the batch. *)
Definition clean_file (selected_assets : list string) (file_path : string) : M unit :=
  try_except
    (open_document file_path ;;
     let chunk := OpenedDocument in
     remove_assets chunk selected_assets (ret file_path) ;;
     save_document file_path)
    (fun e => log_append (io_failure_entry file_path e)).

(** Lines 143-162 and 226-245: the batch over the chosen files. *)
Definition clean_files (self : CleanUpDlg) (file_paths : list string) : M unit :=
  let selected_assets := get_selected_assets self in
  log_new ;;
  if truthy selected_assets then
    ok <- confirm_removal selected_assets file_paths ;;
    if ok then
      for_each file_paths (clean_file selected_assets) ;;
      show_log
    else ret tt
  else ret tt.

(** Lines 134-162. *)
Definition select_project (self : CleanUpDlg) : M unit :=
  match file_dialog user with
  | Some file_paths => clean_files self file_paths
  | None => ret tt
  end.

(** Lines 222-245. *)
Definition process_selected_projects (self : CleanUpDlg)
    (file_paths : list string) (checkboxes : list bool) : M unit :=
  match selected_files_from 0 file_paths checkboxes with
  | None => fun st => (Raise "list index out of range", st)
  | Some selected_files =>
      if truthy selected_files then clean_files self selected_files
      else ret tt
  end.

(** Lines 182-215: the table starts with every row checked, the user clicks,
    and OK hands the boxes to [process_selected_projects]. *)
Definition project_selection_table (self : CleanUpDlg) (file_paths : list string)
  : M unit :=
  let checkboxes := table_checkboxes file_paths in
  let (actions, ok) := table_session user file_paths in
  let checkboxes := fold_left table_step actions checkboxes in
  if ok then process_selected_projects self file_paths checkboxes
  else ret tt.

(** Lines 164-180. *)
Definition remove_from_subfolders (self : CleanUpDlg) : M unit :=
  match folder_dialog user with
  | Some folder_path =>
      let file_paths := scan_projects folder_path (walk_tree folder_path) in
      if truthy file_paths then project_selection_table self file_paths
      else ret tt
  | None => ret tt
  end.

End Script.

(** ** A handle that may be [None]

    [doc.chunk] is the active chunk of a document and [None] for a document
    that has no chunk.  The definitions of [Script] describe the script on a
    handle that refers to a chunk object.  The definitions below are the
    same lines of the source for a handle of either kind: reading,
    assigning or calling an attribute of [None] raises [AttributeError].
    On a chunk object the two agree. *)

(** Which documents have no chunk. *)
Record Documents := mkDocuments {
  (* the project at this path, once opened, has doc.chunk None *)
  no_chunk : string -> bool;
  (* Metashape.app.document.chunk is None *)
  app_no_chunk : bool }.

(** The value of a [chunk] variable. *)
Inductive Handle :=
| Object (r : chunk_ref)     (* the chunk object of that document *)
| NoChunk (r : chunk_ref).   (* None: that document has no chunk *)

Definition handle_ref (chunk : Handle) : chunk_ref :=
  match chunk with Object r | NoChunk r => r end.

(** The message of the [AttributeError] raised on [None.name]. *)
Definition attribute_error (name : string) : string :=
  "'NoneType' object has no attribute '" ++ name ++ "'".

Definition raise {A} (e : string) : M A := fun st => (Raise e, st).

(** [chunk.name], read. *)
Definition attr_any {A} (chunk : Handle) (name : string) (f : Chunk -> A) : M A :=
  match chunk with
  | Object r => attr r f
  | NoChunk _ => raise (attribute_error name)
  end.

(** [chunk.name], looked up as the callee of a call, before the arguments
    are evaluated. *)
Definition bound_method (chunk : Handle) (name : string) : M unit :=
  match chunk with
  | Object _ => ret tt
  | NoChunk _ => raise (attribute_error name)
  end.

Section ScriptAny.

Variable host : Host.
Variable user : User.
Variable walk_tree : string -> dir.
Variable docs : Documents.

(** A mutating statement on the chunk; [name] is the attribute of [chunk]
    the statement starts from. *)
Definition call_any (chunk : Handle) (name : string) (op : HostOp) : M unit :=
  match chunk with
  | Object r => call host r op
  | NoChunk _ => raise (attribute_error name)
  end.

(** Lines 87-111, the chain of tests. *)
Definition handle_assets_body_any (chunk : Handle) (asset_type : string)
  : M (option bool) :=
  if asset_type =? "Key Points" then
    tp <- attr_any chunk "tie_points" tie_points ;;
    match tp with
    | Some t => call_any chunk "tie_points" (RemoveKeypoints t) ;; ret None
    | None => ret None
    end
  else if asset_type =? "Tie Points" then
    call_any chunk "tie_points" SetTiePointsNone ;; ret None
  else if asset_type =? "Depth Maps" then
    bound_method chunk "remove" ;;
    items <- attr_any chunk "depth_maps_sets" depth_maps_sets ;;
    call_any chunk "remove" (Remove items) ;; ret None
  else if asset_type =? "Point Clouds" then
    bound_method chunk "remove" ;;
    items <- attr_any chunk "point_clouds" point_clouds ;;
    call_any chunk "remove" (Remove items) ;; ret None
  else if asset_type =? "Models" then
    bound_method chunk "remove" ;;
    items <- attr_any chunk "models" models ;;
    call_any chunk "remove" (Remove items) ;; ret None
  else if asset_type =? "Tiled Models" then
    bound_method chunk "remove" ;;
    items <- attr_any chunk "tiled_models" tiled_models ;;
    call_any chunk "remove" (Remove items) ;; ret None
  else if asset_type =? "DEMs" then
    bound_method chunk "remove" ;;
    items <- attr_any chunk "elevations" elevations ;;
    call_any chunk "remove" (Remove items) ;; ret None
  else if asset_type =? "Orthophotos" then
    orthos <- attr_any chunk "orthomosaics" orthomosaics ;;
    (* ortho is an object of the list just read *)
    for_each orthos (fun ortho =>
      call host (handle_ref chunk) (RemoveOrthophotos ortho)) ;;
    ret None
  else if asset_type =? "Orthomosaics" then
    bound_method chunk "remove" ;;
    items <- attr_any chunk "orthomosaics" orthomosaics ;;
    call_any chunk "remove" (Remove items) ;; ret None
  else if asset_type =? "Shapes" then
    call_any chunk "shapes" SetShapesNone ;; ret None
  else
    print ("Unknown asset type: " ++ asset_type) ;;
    ret (Some false).

(** Lines 87-113: the whole [try] block. *)
Definition handle_assets_try_any (chunk : Handle) (asset_type : string) : M bool :=
  early <- handle_assets_body_any chunk asset_type ;;
  match early with
  | Some b => ret b
  | None =>
      l <- attr_any chunk "label" label ;;
      print (asset_type ++ " removed from " ++ l) ;;
      ret true
  end.

(** Lines 85-116.  The handler of line 114 reads [chunk.label] itself. *)
Definition handle_assets_any (chunk : Handle) (asset_type : string) : M bool :=
  emit (EDispatch (handle_ref chunk) asset_type) ;;
  try_except
    (handle_assets_try_any chunk asset_type)
    (fun e =>
       l <- attr_any chunk "label" label ;;
       print ("Failed to remove " ++ asset_type ++ " from " ++ l ++ ": " ++ e) ;;
       ret false).

(** Lines 126-131, 153-158 and 236-241. *)
Definition remove_assets_any (chunk : Handle) (selected_assets : list string)
    (shown : M string) : M unit :=
  for_each selected_assets (fun asset =>
    success <- handle_assets_any chunk asset ;;
    name <- shown ;;
    if success then log_append (success_entry asset name)
    else log_append (failure_entry asset name)).

(** Lines 118-132.  Line 122 reads [chunk.label] before the dialog. *)
Definition remove_from_project_any (self : CleanUpDlg) : M unit :=
  let chunk :=
    if app_no_chunk docs then NoChunk AppDocument else Object AppDocument in
  let selected_assets := get_selected_assets self in
  let assets := selected_assets in
  l <- attr_any chunk "label" label ;;
  let projects := [l] in
  log_new ;;
  ok <- confirm_removal user assets projects ;;
  if ok then
    remove_assets_any chunk selected_assets (attr_any chunk "label" label) ;;
    show_log
  else ret tt.

(** Lines 150-152:
    [doc = Metashape.Document(); doc.open(file_path); chunk = doc.chunk] *)
Definition open_document_any (file_path : string) : M Handle :=
  fun st =>
    match doc_open host file_path with
    | inl e => (Raise e, add_event (EOpen file_path (Some e)) st)
    | inr c =>
        if no_chunk docs file_path then
          (Ok (NoChunk OpenedDocument), add_event (EOpen file_path None) st)
        else
          (Ok (Object OpenedDocument),
           add_event (EOpen file_path None) (set_chunk OpenedDocument c st))
    end.

(** Lines 149-161 and 232-244: one target of the batch. *)
Definition clean_file_any (selected_assets : list string) (file_path : string)
  : M unit :=
  try_except
    (chunk <- open_document_any file_path ;;
     remove_assets_any chunk selected_assets (ret file_path) ;;
     save_document host file_path)
    (fun e => log_append (io_failure_entry file_path e)).

(** Lines 143-162 and 226-245. *)
Definition clean_files_any (self : CleanUpDlg) (file_paths : list string) : M unit :=
  let selected_assets := get_selected_assets self in
  log_new ;;
  if truthy selected_assets then
    ok <- confirm_removal user selected_assets file_paths ;;
    if ok then
      for_each file_paths (clean_file_any selected_assets) ;;
      show_log
    else ret tt
  else ret tt.

(** Lines 134-162. *)
Definition select_project_any (self : CleanUpDlg) : M unit :=
  match file_dialog user with
  | Some file_paths => clean_files_any self file_paths
  | None => ret tt
  end.

(** Lines 222-245. *)
Definition process_selected_projects_any (self : CleanUpDlg)
    (file_paths : list string) (checkboxes : list bool) : M unit :=
  match selected_files_from 0 file_paths checkboxes with
  | None => raise "list index out of range"
  | Some selected_files =>
      if truthy selected_files then clean_files_any self selected_files
      else ret tt
  end.

(** Lines 182-215. *)
Definition project_selection_table_any (self : CleanUpDlg)
    (file_paths : list string) : M unit :=
  let checkboxes := table_checkboxes file_paths in
  let (actions, ok) := table_session user file_paths in
  let checkboxes := fold_left table_step actions checkboxes in
  if ok then process_selected_projects_any self file_paths checkboxes
  else ret tt.

(** Lines 164-180. *)
Definition remove_from_subfolders_any (self : CleanUpDlg) : M unit :=
  match folder_dialog user with
  | Some folder_path =>
      let file_paths := scan_projects folder_path (walk_tree folder_path) in
      if truthy file_paths then project_selection_table_any self file_paths
      else ret tt
  | None => ret tt
  end.

End ScriptAny.

(** ** Reading a trace *)

(** The label of every [handle_assets] invocation, in order. *)
Definition dispatches (evs : list Event) : list string :=
  flat_map (fun e => match e with EDispatch _ a => [a] | _ => [] end) evs.

(** Every mutating call made on a chunk, in order. *)
Definition host_ops (evs : list Event) : list HostOp :=
  flat_map (fun e => match e with EHost _ op _ => [op] | _ => [] end) evs.

(** Did one of the calls on a chunk raise? *)
Definition any_raised (evs : list Event) : bool :=
  existsb (fun e => match e with EHost _ _ (Some _) => true | _ => false end) evs.

(** The paths of the [doc.save()] calls, in order. *)
Definition saves (evs : list Event) : list string :=
  flat_map (fun e => match e with ESave p _ => [p] | _ => [] end) evs.

(** The paths of the [doc.open()] calls, in order. *)
Definition opens (evs : list Event) : list string :=
  flat_map (fun e => match e with EOpen p _ => [p] | _ => [] end) evs.

(** The confirmation dialogs shown, with the answer given. *)
Definition questions (evs : list Event) : list bool :=
  flat_map (fun e => match e with EQuestion _ _ b => [b] | _ => [] end) evs.

(** The order of the batch: which project is opened, which asset is
    dispatched, which project is saved. *)
Inductive Step :=
| SOpen (path : string)
| SDispatch (asset_type : string)
| SSave (path : string).

Definition steps (evs : list Event) : list Step :=
  flat_map (fun e => match e with
                     | EOpen p _ => [SOpen p]
                     | EDispatch _ a => [SDispatch a]
                     | ESave p _ => [SSave p]
                     | _ => []
                     end) evs.

(** The [doc.open] and [doc.save] calls that raised. *)
Definition io_failures (evs : list Event) : list string :=
  flat_map (fun e => match e with
                     | EOpen p (Some _) | ESave p (Some _) => [p]
                     | _ => []
                     end) evs.

(** The entries handed to [show_log]: the log the user sees. *)
Definition shown_log (evs : list Event) : list LogEntry :=
  flat_map (fun e => match e with EShowLog es => es | _ => [] end) evs.

(** A trace without what happens inside [handle_assets]: calls on the chunk
    and printed lines are dropped. *)
Definition is_outer (e : Event) : bool :=
  match e with EHost _ _ _ | EPrint _ => false | _ => true end.

Definition skeleton (evs : list Event) : list Event := filter is_outer evs.

(** What a computation adds to the trace, what it returns and the log it
    leaves. *)
Definition events_of {A} (m : M A) (st : State) : list Event :=
  skipn (List.length (trace st)) (trace (snd (m st))).

Definition result_of {A} (m : M A) (st : State) : outcome A := fst (m st).

Definition log_of {A} (m : M A) (st : State) : list LogEntry := log (snd (m st)).

(** The labels [handle_assets] knows (lines 87-107). *)
Definition valid_labels : list string :=
  [ "Key Points"; "Tie Points"; "Depth Maps"; "Point Clouds"; "Models";
    "Tiled Models"; "DEMs"; "Orthophotos"; "Orthomosaics"; "Shapes" ].

Definition known (asset_type : string) : bool :=
  existsb (String.eqb asset_type) valid_labels.

(** The labels whose branch is one call, and that call. *)
Definition single_call (asset_type : string) (c : Chunk) : option HostOp :=
  if asset_type =? "Tie Points" then Some SetTiePointsNone
  else if asset_type =? "Depth Maps" then Some (Remove (depth_maps_sets c))
  else if asset_type =? "Point Clouds" then Some (Remove (point_clouds c))
  else if asset_type =? "Models" then Some (Remove (models c))
  else if asset_type =? "Tiled Models" then Some (Remove (tiled_models c))
  else if asset_type =? "DEMs" then Some (Remove (elevations c))
  else if asset_type =? "Orthomosaics" then Some (Remove (orthomosaics c))
  else if asset_type =? "Shapes" then Some SetShapesNone
  else None.

(** ** Sample collaborators *)

Definition sample_chunk : Chunk :=
  mkChunk "Chunk 1" (Some 1) [2] [3] [4] [] [5] [6; 7] (Some 8).

Definition bare_chunk : Chunk :=
  mkChunk "Chunk 1" None [] [] [] [] [] [] None.

(** A host on which every call succeeds and leaves the chunk as it is. *)
Definition quiet_host : Host :=
  mkHost (fun _ c => (None, c)) (fun _ => inr sample_chunk) (fun _ _ => None).

(** A host whose projects open but cannot be saved. *)
Definition readonly_host : Host :=
  mkHost (fun _ c => (None, c)) (fun _ => inr sample_chunk)
         (fun _ _ => Some "Document is read-only").

(** A host on which every removal raises. *)
Definition failing_host : Host :=
  mkHost (fun _ c => (Some "Null object", c)) (fun _ => inr sample_chunk)
         (fun _ _ => None).

Definition yes_user : User :=
  mkUser (fun _ _ => true) (Some ["P1.psx"; "P2.psx"]) (Some "/data")
         (fun _ => ([], true)).

Definition no_user : User :=
  mkUser (fun _ _ => false) (Some ["P1.psx"; "P2.psx"]) (Some "/data")
         (fun _ => ([], true)).

Definition sample_tree : dir :=
  Dir "data"
      [ Dir "a" [] ["one.PSX"; "notes.txt"];
        Dir "b" [Dir "c" [] ["two.psz"]] [] ]
      ["top.psx"; "psx"].

(** A user who picks the folder /data, unchecks row 1 of the table and
    answers Yes. *)
Definition pruning_user : User :=
  mkUser (fun _ _ => true) None (Some "/data")
         (fun _ => ([SetRow 1 false], true)).

(** A host on which the project P2 does not open. *)
Definition p2_broken_host : Host :=
  mkHost (fun _ c => (None, c))
         (fun p => if p =? "P2" then inl "Can't open file" else inr sample_chunk)
         (fun _ _ => None).

Definition p1_p2_user : User :=
  mkUser (fun _ _ => true) (Some ["P1"; "P2"]) None (fun _ => ([], true)).

(** A dialog with the Orthomosaics and Shapes boxes checked. *)
Definition orthomosaics_and_shapes : CleanUpDlg :=
  mkDlg (setChecked "Shapes" true (setChecked "Orthomosaics" true new_checkboxes)).

(** A dialog with only the Shapes box checked. *)
Definition shapes_only : CleanUpDlg := mkDlg (setChecked "Shapes" true new_checkboxes).

Definition start (app : Chunk) : State := mkState app bare_chunk [] [].

(** * Properties *)

Open Scope list_scope.

(** ** Traces *)

Lemma dispatches_app (xs ys : list Event) :
  dispatches (xs ++ ys) = dispatches xs ++ dispatches ys.
Proof. apply flat_map_app. Qed.

Lemma host_ops_app (xs ys : list Event) :
  host_ops (xs ++ ys) = host_ops xs ++ host_ops ys.
Proof. apply flat_map_app. Qed.

Lemma saves_app (xs ys : list Event) : saves (xs ++ ys) = saves xs ++ saves ys.
Proof. apply flat_map_app. Qed.

Lemma opens_app (xs ys : list Event) : opens (xs ++ ys) = opens xs ++ opens ys.
Proof. apply flat_map_app. Qed.

Lemma questions_app (xs ys : list Event) :
  questions (xs ++ ys) = questions xs ++ questions ys.
Proof. apply flat_map_app. Qed.

Lemma skeleton_app (xs ys : list Event) :
  skeleton (xs ++ ys) = skeleton xs ++ skeleton ys.
Proof. apply filter_app. Qed.

Lemma any_raised_app (xs ys : list Event) :
  any_raised (xs ++ ys) = any_raised xs || any_raised ys.
Proof. apply existsb_app. Qed.

(** The projections that only look at outer events factor through the
    skeleton. *)
Lemma dispatches_skeleton (evs : list Event) :
  dispatches (skeleton evs) = dispatches evs.
Proof.
  induction evs as [|e evs IH]; [reflexivity|].
  destruct e; simpl; rewrite ?IH; reflexivity.
Qed.

Lemma saves_skeleton (evs : list Event) : saves (skeleton evs) = saves evs.
Proof.
  induction evs as [|e evs IH]; [reflexivity|].
  destruct e; simpl; rewrite ?IH; reflexivity.
Qed.

Lemma opens_skeleton (evs : list Event) : opens (skeleton evs) = opens evs.
Proof.
  induction evs as [|e evs IH]; [reflexivity|].
  destruct e; simpl; rewrite ?IH; reflexivity.
Qed.

Lemma questions_skeleton (evs : list Event) :
  questions (skeleton evs) = questions evs.
Proof.
  induction evs as [|e evs IH]; [reflexivity|].
  destruct e; simpl; rewrite ?IH; reflexivity.
Qed.

Lemma dispatches_map (r : chunk_ref) (assets : list string) :
  dispatches (map (EDispatch r) assets) = assets.
Proof. induction assets as [|a l IH]; simpl; [|rewrite IH]; reflexivity. Qed.

Lemma saves_map_dispatch (r : chunk_ref) (assets : list string) :
  saves (map (EDispatch r) assets) = [].
Proof. induction assets as [|a l IH]; simpl; auto. Qed.

Lemma opens_map_dispatch (r : chunk_ref) (assets : list string) :
  opens (map (EDispatch r) assets) = [].
Proof. induction assets as [|a l IH]; simpl; auto. Qed.

Lemma steps_app (xs ys : list Event) : steps (xs ++ ys) = steps xs ++ steps ys.
Proof. apply flat_map_app. Qed.

Lemma steps_skeleton (evs : list Event) : steps (skeleton evs) = steps evs.
Proof.
  induction evs as [|e evs IH]; [reflexivity|].
  destruct e; simpl; rewrite ?IH; reflexivity.
Qed.

Lemma steps_map_dispatch (r : chunk_ref) (assets : list string) :
  steps (map (EDispatch r) assets) = map SDispatch assets.
Proof. induction assets as [|a l IH]; simpl; [|rewrite IH]; reflexivity. Qed.

Lemma io_failures_app (xs ys : list Event) :
  io_failures (xs ++ ys) = io_failures xs ++ io_failures ys.
Proof. apply flat_map_app. Qed.

Lemma io_failures_skeleton (evs : list Event) :
  io_failures (skeleton evs) = io_failures evs.
Proof.
  induction evs as [|e evs IH]; [reflexivity|].
  destruct e; simpl; rewrite ?IH; reflexivity.
Qed.

Lemma io_failures_map_dispatch (r : chunk_ref) (assets : list string) :
  io_failures (map (EDispatch r) assets) = [].
Proof. induction assets as [|a l IH]; simpl; auto. Qed.

(** The dispatches, opens and saves of a trace are those of its steps. *)
Lemma dispatches_steps (evs : list Event) :
  dispatches evs
    = flat_map (fun s => match s with SDispatch a => [a] | _ => [] end) (steps evs).
Proof.
  induction evs as [|e evs IH]; [reflexivity|].
  destruct e; simpl; rewrite ?IH; reflexivity.
Qed.

Lemma opens_steps (evs : list Event) :
  opens evs
    = flat_map (fun s => match s with SOpen p => [p] | _ => [] end) (steps evs).
Proof.
  induction evs as [|e evs IH]; [reflexivity|].
  destruct e; simpl; rewrite ?IH; reflexivity.
Qed.

Lemma saves_steps (evs : list Event) :
  saves evs
    = flat_map (fun s => match s with SSave p => [p] | _ => [] end) (steps evs).
Proof.
  induction evs as [|e evs IH]; [reflexivity|].
  destruct e; simpl; rewrite ?IH; reflexivity.
Qed.

Lemma shown_log_app (xs ys : list Event) :
  shown_log (xs ++ ys) = shown_log xs ++ shown_log ys.
Proof. apply flat_map_app. Qed.

Lemma shown_log_skeleton (evs : list Event) :
  shown_log (skeleton evs) = shown_log evs.
Proof.
  induction evs as [|e evs IH]; [reflexivity|].
  destruct e; simpl; rewrite ?IH; reflexivity.
Qed.

Lemma shown_log_map_dispatch (r : chunk_ref) (assets : list string) :
  shown_log (map (EDispatch r) assets) = [].
Proof. induction assets as [|a l IH]; simpl; auto. Qed.

Lemma trace_set_chunk r c st : trace (set_chunk r c st) = trace st.
Proof. destruct r; reflexivity. Qed.

Lemma get_chunk_add_event r e st : get_chunk r (add_event e st) = get_chunk r st.
Proof. destruct r; reflexivity. Qed.

(** ** The dispatcher *)

Definition other (r : chunk_ref) : chunk_ref :=
  match r with AppDocument => OpenedDocument | OpenedDocument => AppDocument end.

Definition is_raise {A} (r : outcome A) : bool :=
  match r with Ok _ => false | Raise _ => true end.

Section Dispatcher.

Variable host : Host.

(** A computation that stays inside one dispatch: it only calls the host on
    [chunk] and prints, it leaves the log and the other chunk alone, and it
    raises exactly when a call on the chunk raised; [Q] holds of what it
    returns. *)
Definition inner (chunk : chunk_ref) {A} (Q : A -> Prop) (m : M A) : Prop :=
  forall st, exists evs,
    trace (snd (m st)) = trace st ++ evs /\
    log (snd (m st)) = log st /\
    get_chunk (other chunk) (snd (m st)) = get_chunk (other chunk) st /\
    skeleton evs = [] /\
    any_raised evs = is_raise (fst (m st)) /\
    match fst (m st) with Ok a => Q a | Raise _ => True end.

Lemma inner_ret chunk {A} (Q : A -> Prop) (a : A) : Q a -> inner chunk Q (ret a).
Proof.
  intros HQ st. exists []. simpl. rewrite app_nil_r. auto 10.
Qed.

Lemma inner_bind chunk {A B} (P : A -> Prop) (Q : B -> Prop)
    (m : M A) (k : A -> M B) :
  inner chunk P m -> (forall a, P a -> inner chunk Q (k a)) ->
  inner chunk Q (bind m k).
Proof.
  intros Hm Hk st. unfold bind.
  destruct (Hm st) as (evs & Ht & Hl & Ho & Hs & Hr & HP).
  destruct (m st) as [[a|e] st1]; simpl in *.
  - destruct (Hk a HP st1) as (evs2 & Ht2 & Hl2 & Ho2 & Hs2 & Hr2 & HQ).
    exists (evs ++ evs2). rewrite Ht2, Ht, Hl2, Hl, Ho2, Ho, app_assoc.
    rewrite skeleton_app, Hs, Hs2, any_raised_app, Hr, Hr2. auto 10.
  - exists evs. auto 10.
Qed.

Lemma inner_attr chunk {A} (f : Chunk -> A) : inner chunk (fun _ => True) (attr chunk f).
Proof. intros st. exists []. simpl. rewrite app_nil_r. auto 10. Qed.

Lemma inner_print chunk (line : string) : inner chunk (fun _ => True) (print line).
Proof. intros st. exists [EPrint line]. simpl. auto 10. Qed.

Lemma inner_call chunk (op : HostOp) : inner chunk (fun _ => True) (call host chunk op).
Proof.
  intros st. unfold call.
  destruct (host_call host op (get_chunk chunk st)) as [[e|] c'];
    exists [EHost chunk op (Some e)] || exists [EHost chunk op None];
    destruct chunk; simpl; auto 10.
Qed.

Lemma inner_for_each chunk {A} (xs : list A) (body : A -> M unit) :
  (forall x, inner chunk (fun _ => True) (body x)) ->
  inner chunk (fun _ => True) (for_each xs body).
Proof.
  intros Hb. induction xs as [|x xs IH]; simpl.
  - apply inner_ret. exact I.
  - eapply inner_bind; [apply Hb | intros; apply IH].
Qed.

Lemma events_of_intro {A} (m : M A) (st : State) (evs : list Event) :
  trace (snd (m st)) = trace st ++ evs -> events_of m st = evs.
Proof.
  intros H. unfold events_of. rewrite H, skipn_app, skipn_all, Nat.sub_diag.
  reflexivity.
Qed.

Lemma body_inner chunk a :
  inner chunk
    (fun r => match r with
              | None => known a = true
              | Some b => b = false /\ known a = false
              end)
    (handle_assets_body host chunk a).
Proof.
  unfold handle_assets_body, known, valid_labels. simpl existsb.
  repeat match goal with
  | |- context [if ?a =? ?l then _ else _] => destruct (a =? l) eqn:?
  | |- inner _ _ (ret _) => apply inner_ret; simpl; auto
  | |- inner _ _ (bind _ _) =>
      eapply inner_bind;
      [ first [ apply inner_attr | apply inner_call | apply inner_print
              | apply inner_for_each; intros; apply inner_call ]
      | intros ? _ ]
  | |- inner _ _ (match ?x with _ => _ end) => destruct x
  end.
Qed.

(** [handle_assets] always returns: [True] for a known label when no call on
    the chunk raised, [False] otherwise; it adds its dispatch event, calls
    on [chunk] and printed lines to the trace and nothing to the log. *)
Lemma handle_assets_run chunk a st :
  exists evs st',
    handle_assets host chunk a st = (Ok (known a && negb (any_raised evs)), st') /\
    trace st' = trace st ++ EDispatch chunk a :: evs /\
    log st' = log st /\
    get_chunk (other chunk) st' = get_chunk (other chunk) st /\
    skeleton evs = [].
Proof.
  assert (Htry : inner chunk (fun b => b = known a) (handle_assets_try host chunk a)).
  { unfold handle_assets_try.
    eapply inner_bind; [apply body_inner|].
    intros [b|] Hb; simpl in Hb.
    - destruct Hb as [-> Hk]. apply inner_ret. auto.
    - eapply inner_bind; [apply inner_attr|]. intros l _.
      eapply inner_bind; [apply inner_print|]. intros _ _.
      apply inner_ret. auto. }
  unfold handle_assets, bind, emit, try_except.
  destruct (Htry (add_event (EDispatch chunk a) st))
    as (evs & Ht & Hl & Ho & Hs & Hr & HQ).
  rewrite get_chunk_add_event in Ho.
  destruct (handle_assets_try host chunk a (add_event (EDispatch chunk a) st))
    as [[b|e] st1]; simpl in Ht, Hl, Ho, Hr, HQ.
  - exists evs, st1. subst b. rewrite Hr, andb_true_r, Ht, <- app_assoc.
    repeat split; auto.
  - set (line := ("Failed to remove " ++ a ++ " from "
                  ++ label (get_chunk chunk st1) ++ ": " ++ e)%string).
    exists (evs ++ [EPrint line]), (add_event (EPrint line) st1).
    unfold bind, attr, print, emit, ret. simpl.
    rewrite any_raised_app, Hr, andb_false_r, Ht, skeleton_app, Hs.
    rewrite <- !app_assoc. simpl.
    repeat split; auto.
Qed.

(** An unknown label: one printed line, no call on the chunk, [False]. *)
Lemma handle_assets_unknown chunk a st :
  known a = false ->
  handle_assets host chunk a st
    = (Ok false,
       add_event (EPrint ("Unknown asset type: " ++ a)%string)
                 (add_event (EDispatch chunk a) st)).
Proof.
  intros H. unfold known, valid_labels in H. simpl in H.
  repeat (apply orb_false_elim in H; destruct H as [? H]).
  unfold handle_assets, handle_assets_try, handle_assets_body.
  repeat match goal with E : (a =? _) = false |- _ => rewrite E; clear E end.
  reflexivity.
Qed.

(** The branch of a one-call label. *)
Lemma body_single chunk a st op :
  single_call a (get_chunk chunk st) = Some op ->
  handle_assets_body host chunk a st = (call host chunk op ;; ret None) st.
Proof.
  intros H. unfold single_call in H. unfold handle_assets_body.
  repeat match type of H with
  | context [if a =? ?l then _ else _] =>
      destruct (String.eqb_spec a l) as [->|?];
      [ injection H as <-; reflexivity | ]
  end.
  discriminate.
Qed.


(** The Key Points branch: one call when the chunk has a tie-point set, none
    when it has not; without a tie-point set the result is [True] and the
    chunk is untouched. *)
Lemma handle_assets_key_points chunk st :
  exists line,
    trace (snd (handle_assets host chunk "Key Points" st))
      = trace st ++
        EDispatch chunk "Key Points"
        :: match tie_points (get_chunk chunk st) with
           | Some tp =>
               [EHost chunk (RemoveKeypoints tp)
                  (fst (host_call host (RemoveKeypoints tp) (get_chunk chunk st)))]
           | None => []
           end
        ++ [EPrint line] /\
    (tie_points (get_chunk chunk st) = None ->
     fst (handle_assets host chunk "Key Points" st) = Ok true /\
     get_chunk chunk (snd (handle_assets host chunk "Key Points" st))
       = get_chunk chunk st).
Proof.
  unfold handle_assets, handle_assets_try, handle_assets_body, emit, try_except.
  simpl String.eqb. cbv iota. unfold bind, attr.
  replace (get_chunk chunk (add_event (EDispatch chunk "Key Points") st))
    with (get_chunk chunk st) by (destruct chunk; reflexivity).
  destruct (tie_points (get_chunk chunk st)) as [tp|] eqn:Etp.
  - unfold call.
    replace (get_chunk chunk (add_event (EDispatch chunk "Key Points") st))
      with (get_chunk chunk st) by (destruct chunk; reflexivity).
    destruct (host_call host (RemoveKeypoints tp) (get_chunk chunk st))
      as [[e|] c'];
      unfold print, emit, ret; destruct chunk; simpl;
      rewrite <- !app_assoc; eexists; (split; [reflexivity | discriminate]).
  - unfold print, emit, ret; destruct chunk; simpl;
      rewrite <- !app_assoc; eexists; (split; [reflexivity | auto]).
Qed.

Lemma call_run chunk op st :
  call host chunk op st
    = (match fst (host_call host op (get_chunk chunk st)) with
       | None => Ok tt
       | Some e => Raise e
       end,
       add_event (EHost chunk op (fst (host_call host op (get_chunk chunk st))))
         (set_chunk chunk (snd (host_call host op (get_chunk chunk st))) st)).
Proof.
  unfold call. destruct (host_call host op (get_chunk chunk st)) as [[e|] c'];
    reflexivity.
Qed.




End Dispatcher.

(** ** The pass over the selected assets *)

(** One entry per asset, in order, each naming the asset and a name that
    satisfies [P]. *)
Definition asset_entries (P : string -> Prop) (assets : list string)
    (entries : list LogEntry) : Prop :=
  Forall2 (fun a x => exists name,
             P name /\ (x = success_entry a name \/ x = failure_entry a name))
          assets entries.

Lemma asset_entries_length P assets entries :
  asset_entries P assets entries -> List.length entries = List.length assets.
Proof. intros H. symmetry. eapply Forall2_length; eauto. Qed.

Section Batch.

Variable host : Host.
Variable user : User.

(** The pass never raises, dispatches every asset in order and logs one
    entry per asset; [shown] only reads. *)
Lemma remove_assets_run chunk (assets : list string) (shown : M string)
    (P : string -> Prop) :
  (forall st, exists name, shown st = (Ok name, st) /\ P name) ->
  forall st,
  exists evs entries st',
    remove_assets host chunk assets shown st = (Ok tt, st') /\
    trace st' = trace st ++ evs /\
    skeleton evs = map (EDispatch chunk) assets /\
    log st' = log st ++ entries /\
    asset_entries P assets entries /\
    get_chunk (other chunk) st' = get_chunk (other chunk) st.
Proof.
  intros Hshown. unfold remove_assets.
  induction assets as [|a assets IH]; intros st.
  - exists [], [], st. simpl. rewrite !app_nil_r. repeat split; auto. constructor.
  - simpl for_each. unfold bind at 1 2.
    destruct (handle_assets_run host chunk a st)
      as (evs1 & st1 & Hr & Ht & Hl & Ho & Hs).
    rewrite Hr. unfold bind at 1.
    destruct (Hshown st1) as (name & Hn & HP). rewrite Hn.
    set (b := known a && negb (any_raised evs1)) in *.
    assert (Hstep : exists x,
              (if b then log_append (success_entry a name)
               else log_append (failure_entry a name)) st1
                = (Ok tt, add_log x st1) /\
              (x = success_entry a name \/ x = failure_entry a name)).
    { destruct b; eexists; split; try reflexivity; auto. }
    destruct Hstep as (x & Hx & Hxs). rewrite Hx.
    destruct (IH (add_log x st1))
      as (evs2 & es2 & st2 & Hr2 & Ht2 & Hs2 & Hl2 & He2 & Ho2).
    exists (EDispatch chunk a :: evs1 ++ evs2), (x :: es2), st2.
    rewrite Hr2, Ht2, Hl2, Ho2. simpl.
    rewrite Ht, Hl, skeleton_app, Hs, Hs2, <- !app_assoc. simpl.
    repeat split; auto.
    constructor; eauto.
Qed.

Lemma shown_path (file_path : string) :
  forall st, exists name,
    ret file_path st = (Ok name, st) /\ file_path = name.
Proof. intros st. exists file_path. split; reflexivity. Qed.

Lemma shown_label chunk :
  forall st, exists name, attr chunk label st = (Ok name, st) /\ True.
Proof. intros st. eexists. split; [reflexivity | exact I]. Qed.

(** ** One target of the batch *)

Definition opened (file_path : string) : bool :=
  match doc_open host file_path with inl _ => false | inr _ => true end.

(** What one target adds to the skeleton of the trace and to the log:
    a failed open and its entry; or open, one dispatch per asset and save,
    with one entry per asset, and one more when the save raised. *)
Inductive file_block (assets : list string) (p : string)
  : list Event -> list LogEntry -> Prop :=
| block_unopened e :
    doc_open host p = inl e ->
    file_block assets p [EOpen p (Some e)] [io_failure_entry p e]
| block_saved c entries :
    doc_open host p = inr c ->
    asset_entries (eq p) assets entries ->
    file_block assets p
      (EOpen p None :: map (EDispatch OpenedDocument) assets ++ [ESave p None])
      entries
| block_unsaved c entries e :
    doc_open host p = inr c ->
    asset_entries (eq p) assets entries ->
    file_block assets p
      (EOpen p None :: map (EDispatch OpenedDocument) assets ++ [ESave p (Some e)])
      (entries ++ [io_failure_entry p e]).

Inductive batch_blocks (assets : list string)
  : list string -> list Event -> list LogEntry -> Prop :=
| batch_nil : batch_blocks assets [] [] []
| batch_cons p ps evs es evs' es' :
    file_block assets p evs es ->
    batch_blocks assets ps evs' es' ->
    batch_blocks assets (p :: ps) (evs ++ evs') (es ++ es').

Lemma clean_file_run assets p st :
  exists evs es st',
    clean_file host assets p st = (Ok tt, st') /\
    trace st' = trace st ++ evs /\
    log st' = log st ++ es /\
    file_block assets p (skeleton evs) es /\
    app_chunk st' = app_chunk st.
Proof.
  unfold clean_file, try_except, bind at 1, open_document.
  destruct (doc_open host p) as [e|c] eqn:Eopen.
  - eexists [EOpen p (Some e)], [io_failure_entry p e], _.
    repeat split; try reflexivity. simpl. apply block_unopened; auto.
  - unfold bind.
    destruct (remove_assets_run OpenedDocument assets (ret p) (eq p) (shown_path p)
                (add_event (EOpen p None) (set_chunk OpenedDocument c st)))
      as (evs & es & st1 & Hr & Ht & Hs & Hl & He & Ho).
    rewrite Hr. unfold save_document.
    destruct (doc_save host p (doc_chunk st1)) as [e|] eqn:Esave; simpl in *.
    + exists (EOpen p None :: evs ++ [ESave p (Some e)]),
             (es ++ [io_failure_entry p e]), 
             (add_log (io_failure_entry p e) (add_event (ESave p (Some e)) st1)).
      simpl. rewrite Ht, Hl, skeleton_app, Hs, <- !app_assoc. simpl.
      repeat split; auto. eapply block_unsaved; eauto.
    + exists (EOpen p None :: evs ++ [ESave p None]), es,
             (add_event (ESave p None) st1).
      simpl. rewrite Ht, Hl, skeleton_app, Hs, <- !app_assoc. simpl.
      repeat split; auto. eapply block_saved; eauto.
Qed.

Lemma clean_loop_run assets (file_paths : list string) :
  forall st,
  exists evs es st',
    for_each file_paths (clean_file host assets) st = (Ok tt, st') /\
    trace st' = trace st ++ evs /\
    log st' = log st ++ es /\
    batch_blocks assets file_paths (skeleton evs) es /\
    app_chunk st' = app_chunk st.
Proof.
  induction file_paths as [|p ps IH]; intros st.
  - exists [], [], st. simpl. rewrite !app_nil_r. repeat split; auto. constructor.
  - simpl for_each. unfold bind.
    destruct (clean_file_run assets p st) as (evs & es & st1 & Hr & Ht & Hl & Hb & Ha).
    rewrite Hr.
    destruct (IH st1) as (evs2 & es2 & st2 & Hr2 & Ht2 & Hl2 & Hb2 & Ha2).
    exists (evs ++ evs2), (es ++ es2), st2.
    rewrite Hr2, Ht2, Hl2, Ha2, Ht, Hl, Ha, skeleton_app, <- !app_assoc.
    repeat split; auto. constructor; auto.
Qed.

(** The order of a batch: each target is opened, then, when the open did
    not raise, every asset is dispatched and the target is saved, before the
    next target is opened. *)
Definition batch_steps (assets file_paths : list string) : list Step :=
  flat_map (fun p =>
              SOpen p ::
              if opened p then map SDispatch assets ++ [SSave p] else [])
           file_paths.

Lemma file_block_steps assets p evs es :
  file_block assets p evs es ->
  steps evs = SOpen p :: if opened p then map SDispatch assets ++ [SSave p] else [].
Proof.
  unfold opened.
  intros [e He | c entries Hc _ | c entries e Hc _]; rewrite ?He, ?Hc; simpl;
    rewrite ?steps_app, ?steps_map_dispatch; reflexivity.
Qed.

Lemma batch_blocks_steps assets ps evs es :
  batch_blocks assets ps evs es -> steps evs = batch_steps assets ps.
Proof.
  induction 1 as [|p ps evs es evs' es' Hb _ IH]; [reflexivity|].
  rewrite steps_app, (file_block_steps _ _ _ _ Hb), IH. simpl.
  destruct (opened p); simpl; rewrite <- ?app_assoc; reflexivity.
Qed.

(** The entries one target leaves in the log. *)
Definition file_entries (assets : list string) (p : string)
    (block : list LogEntry) : Prop :=
  match doc_open host p with
  | inl e => block = [io_failure_entry p e]
  | inr _ =>
      exists entries tail,
        block = entries ++ tail /\
        asset_entries (eq p) assets entries /\
        (tail = [] \/ exists e, tail = [io_failure_entry p e])
  end.

Lemma file_block_entries assets p evs es :
  file_block assets p evs es -> file_entries assets p es.
Proof.
  unfold file_entries.
  intros [e He | c entries Hc Hen | c entries e Hc Hen]; rewrite ?He, ?Hc; auto.
  - exists entries, []. rewrite app_nil_r. auto.
  - exists entries, [io_failure_entry p e]. eauto.
Qed.

Lemma batch_blocks_entries assets ps evs es :
  batch_blocks assets ps evs es ->
  exists blocks, es = List.concat blocks /\ Forall2 (file_entries assets) ps blocks.
Proof.
  induction 1 as [|p ps evs es evs' es' Hb _ (blocks & -> & IH)].
  - exists []. split; [reflexivity | constructor].
  - exists (es :: blocks). split; [reflexivity|].
    constructor; auto. eapply file_block_entries; eauto.
Qed.

(** One log entry per dispatch and one per [open] or [save] that raised. *)
Lemma file_block_count assets p evs es :
  file_block assets p evs es ->
  List.length es = List.length (dispatches evs) + List.length (io_failures evs).
Proof.
  intros [e He | c entries Hc Hen | c entries e Hc Hen]; simpl;
    rewrite ?dispatches_app, ?io_failures_app, ?dispatches_map,
            ?io_failures_map_dispatch, ?length_app; simpl;
    rewrite ?(asset_entries_length _ _ _ Hen); lia.
Qed.

Lemma batch_blocks_count assets ps evs es :
  batch_blocks assets ps evs es ->
  List.length es = List.length (dispatches evs) + List.length (io_failures evs).
Proof.
  induction 1 as [|p ps evs es evs' es' Hb _ IH]; [reflexivity|].
  rewrite dispatches_app, io_failures_app, !length_app, IH,
          (file_block_count _ _ _ _ Hb).
  lia.
Qed.

(** The dispatches of a batch: the assets, once per target that opened. *)
Lemma batch_blocks_dispatches assets ps evs es :
  batch_blocks assets ps evs es ->
  dispatches evs = flat_map (fun p => if opened p then assets else []) ps.
Proof.
  intros H. rewrite dispatches_steps, (batch_blocks_steps _ _ _ _ H).
  clear H. unfold batch_steps.
  induction ps as [|p ps IH]; [reflexivity|].
  simpl. rewrite flat_map_app, IH.
  destruct (opened p); simpl; [|reflexivity].
  rewrite flat_map_app. simpl. rewrite app_nil_r. f_equal.
  clear. induction assets as [|a l IH]; simpl; [|rewrite IH]; reflexivity.
Qed.

(** Without a failed open or save there are N x M dispatches. *)
Lemma batch_blocks_no_failure assets ps evs es :
  batch_blocks assets ps evs es ->
  io_failures evs = [] ->
  List.length (dispatches evs) = List.length ps * List.length assets.
Proof.
  induction 1 as [|p ps evs es evs' es' Hb _ IH]; [reflexivity|].
  rewrite io_failures_app, dispatches_app, length_app.
  intros Hio. apply app_eq_nil in Hio. destruct Hio as [H1 H2].
  rewrite (IH H2). simpl.
  destruct Hb as [e He | c entries Hc Hen | c entries e Hc Hen];
    simpl in H1; try discriminate.
  - simpl. rewrite dispatches_app, dispatches_map, length_app. simpl. lia.
  - rewrite io_failures_app, io_failures_map_dispatch in H1. discriminate.
Qed.

(** ** The batch over the chosen files *)

Lemma clean_files_run self (ps : list string) st :
  exists st',
    clean_files host user self ps st = (Ok tt, st') /\
    app_chunk st' = app_chunk st /\
    match get_selected_assets self with
    | [] => trace st' = trace st
    | _ :: _ =>
        if confirmed user (get_selected_assets self) ps then
          exists evs es,
            trace st'
              = trace st ++
                EQuestion confirm_title
                  (confirm_message (get_selected_assets self) ps) true
                :: evs ++ [EShowLog es] /\
            log st' = es /\
            batch_blocks (get_selected_assets self) ps (skeleton evs) es
        else
          trace st'
            = trace st ++
              [EQuestion confirm_title
                 (confirm_message (get_selected_assets self) ps) false]
    end.
Proof.
  unfold clean_files, confirmed.
  destruct (get_selected_assets self) as [|a assets] eqn:Ea.
  - eexists. simpl. repeat split; reflexivity.
  - simpl truthy. cbv iota. unfold bind at 1, log_new.
    unfold bind at 1, confirm_removal, bind at 1, emit, ret.
    destruct (question_reply user confirm_title (confirm_message (a :: assets) ps)).
    + unfold bind at 1.
      destruct (clean_loop_run (a :: assets) ps
                  (add_event (EQuestion confirm_title
                                (confirm_message (a :: assets) ps) true)
                             (clear_log st)))
        as (evs & es & st1 & Hr & Ht & Hl & Hb & Ha).
      rewrite Hr. unfold show_log, bind, get_log, emit.
      eexists. split; [reflexivity|]. simpl. rewrite Ha. split; [reflexivity|].
      exists evs, es. rewrite Ht, Hl. simpl. rewrite <- !app_assoc. auto.
    + eexists. repeat split; reflexivity.
Qed.

End Batch.

(** * The dispatcher, claim by claim *)

Lemma known_valid (a : string) : known a = true <-> In a valid_labels.
Proof.
  unfold known. rewrite existsb_exists. split.
  - intros (x & Hin & Heq). apply String.eqb_eq in Heq. subst. exact Hin.
  - intros Hin. exists a. split; [exact Hin | apply String.eqb_refl].
Qed.

Lemma unknown_invalid (a : string) : ~ In a valid_labels -> known a = false.
Proof.
  intros H. destruct (known a) eqn:E; [|reflexivity].
  apply known_valid in E. contradiction.
Qed.

(** C3.  For a label outside the ten that [handle_assets] tests for, the
    dispatcher returns [False]; it prints one line, makes no call on the
    chunk and leaves both chunks as they were. *)
Theorem unknown_label_fails_without_call
    (host : Host) (chunk : chunk_ref) (asset_type : string) (st : State) :
  ~ In asset_type valid_labels ->
  result_of (handle_assets host chunk asset_type) st = Ok false /\
  events_of (handle_assets host chunk asset_type) st
    = [ EDispatch chunk asset_type;
        EPrint ("Unknown asset type: " ++ asset_type)%string ] /\
  host_ops (events_of (handle_assets host chunk asset_type) st) = [] /\
  app_chunk (snd (handle_assets host chunk asset_type st)) = app_chunk st /\
  doc_chunk (snd (handle_assets host chunk asset_type st)) = doc_chunk st.
Proof.
  intros Hout. apply unknown_invalid in Hout.
  assert (Hev : events_of (handle_assets host chunk asset_type) st
                = [ EDispatch chunk asset_type;
                    EPrint ("Unknown asset type: " ++ asset_type)%string ]).
  { apply events_of_intro. rewrite (handle_assets_unknown host chunk _ st Hout).
    simpl. rewrite <- app_assoc. reflexivity. }
  unfold result_of. rewrite Hev.
  rewrite (handle_assets_unknown host chunk _ st Hout). simpl. auto.
Qed.

Lemma unknown_label_fails_without_call_witness :
  ~ In "Cameras" valid_labels /\
  result_of (handle_assets failing_host AppDocument "Cameras") (start sample_chunk)
    = Ok false /\
  host_ops (events_of (handle_assets failing_host AppDocument "Cameras")
                      (start sample_chunk)) = [].
Proof.
  assert (Hout : ~ In "Cameras" valid_labels).
  { simpl. intros H. repeat (destruct H as [H|H]; [discriminate H|]). exact H. }
  destruct (unknown_label_fails_without_call failing_host AppDocument "Cameras"
              (start sample_chunk) Hout) as (Hr & _ & Hops & _).
  split; [exact Hout | split; [exact Hr | exact Hops]].
Defined.

Lemma remove_assets_cons host chunk a assets (shown : M string) st b st1 name :
  handle_assets host chunk a st = (Ok b, st1) ->
  shown st1 = (Ok name, st1) ->
  remove_assets host chunk (a :: assets) shown st
    = remove_assets host chunk assets shown
        (add_log (if b then success_entry a name else failure_entry a name) st1).
Proof.
  intros H1 H2. unfold remove_assets. simpl for_each. unfold bind.
  rewrite H1, H2. destruct b; reflexivity.
Qed.

(** C9.  On a chunk without a tie-point set, the Key Points dispatch makes
    no call on the chunk and still returns [True]; a pass that starts with
    Key Points logs the success entry for it, whether the entry names a file
    path or the chunk's label. *)
Theorem key_points_without_tie_points
    (host : Host) (chunk : chunk_ref) (st : State) :
  tie_points (get_chunk chunk st) = None ->
  result_of (handle_assets host chunk "Key Points") st = Ok true /\
  host_ops (events_of (handle_assets host chunk "Key Points") st) = [] /\
  (forall assets file_path, exists rest,
     log_of (remove_assets host chunk ("Key Points" :: assets) (ret file_path)) st
       = log st ++ success_entry "Key Points" file_path :: rest) /\
  (forall assets, exists rest,
     log_of (remove_assets host chunk ("Key Points" :: assets) (attr chunk label)) st
       = log st
         ++ success_entry "Key Points" (label (get_chunk chunk st)) :: rest).
Proof.
  intros Hno.
  destruct (handle_assets_key_points host chunk st) as (line & Ht & Hres).
  destruct (Hres Hno) as (Hok & Hsame). clear Hres.
  rewrite Hno in Ht. simpl in Ht.
  destruct (handle_assets_run host chunk "Key Points" st)
    as (evs1 & st1 & Hr & _ & Hl & _ & _).
  rewrite Hr in Hok, Hsame. simpl fst in Hok. simpl snd in Hsame.
  change (known "Key Points" && negb (any_raised evs1))
    with (negb (any_raised evs1)) in Hr.
  rewrite Hok in Hr. clear Hok.
  split; [unfold result_of; rewrite Hr; reflexivity|].
  split; [rewrite (events_of_intro _ _ _ Ht); reflexivity|].
  split.
  - intros assets file_path.
    unfold log_of.
    rewrite (remove_assets_cons host chunk _ assets (ret file_path) st _ st1
               file_path Hr eq_refl). cbv iota.
    destruct (remove_assets_run host chunk assets (ret file_path) (eq file_path)
                (shown_path file_path) (add_log (success_entry "Key Points" file_path) st1))
      as (evs & entries & st2 & Hr2 & _ & _ & Hl2 & _).
    rewrite Hr2. simpl snd. rewrite Hl2. simpl.
    rewrite Hl, <- app_assoc. exists entries. reflexivity.
  - intros assets.
    unfold log_of.
    rewrite (remove_assets_cons host chunk _ assets (attr chunk label) st _ st1
               _ Hr eq_refl). cbv iota.
    rewrite Hsame.
    destruct (remove_assets_run host chunk assets (attr chunk label) (fun _ => True)
                (shown_label chunk)
                (add_log (success_entry "Key Points" (label (get_chunk chunk st))) st1))
      as (evs & entries & st2 & Hr2 & _ & _ & Hl2 & _).
    rewrite Hr2. simpl snd. rewrite Hl2. simpl.
    rewrite Hl, <- app_assoc. exists entries. reflexivity.
Qed.

Lemma key_points_without_tie_points_witness :
  tie_points (get_chunk AppDocument (start bare_chunk)) = None /\
  result_of (handle_assets quiet_host AppDocument "Key Points") (start bare_chunk)
    = Ok true /\
  host_ops (events_of (handle_assets quiet_host AppDocument "Key Points")
                      (start bare_chunk)) = [].
Proof.
  destruct (key_points_without_tie_points quiet_host AppDocument (start bare_chunk)
              eq_refl) as (Hr & Hops & _).
  split; [reflexivity | split; [exact Hr | exact Hops]].
Defined.




(** C8.  [get_selected_assets] returns exactly the labels whose box is
    checked, and a new dialog has exactly Point Clouds, DEMs, Orthophotos and
    Orthomosaics checked. *)
Theorem selected_assets_are_checked_boxes (self : CleanUpDlg) :
  (forall a, In a (get_selected_assets self) <-> In (a, true) (checkboxes self)) /\
  get_selected_assets new_dialog
    = ["Point Clouds"; "DEMs"; "Orthophotos"; "Orthomosaics"] /\
  (forall a,
     In a (get_selected_assets new_dialog) <->
     In a ["Orthophotos"; "Orthomosaics"; "DEMs"; "Point Clouds"]).
Proof.
  split; [|split].
  - intros a. unfold get_selected_assets. rewrite in_map_iff. split.
    + intros ([a' b] & Ha & Hin). apply filter_In in Hin as [Hin Hb].
      simpl in Ha, Hb. subst. exact Hin.
    + intros Hin. exists (a, true). split; [reflexivity|].
      apply filter_In. split; [exact Hin | reflexivity].
  - reflexivity.
  - intros a. change (get_selected_assets new_dialog)
      with ["Point Clouds"; "DEMs"; "Orthophotos"; "Orthomosaics"].
    simpl. tauto.
Qed.

(** * The three handlers *)

Section Handlers.

Variable host : Host.
Variable user : User.
Variable walk_tree : string -> dir.

(** A loop over the targets shows no log and asks nothing. *)
Lemma batch_blocks_quiet assets ps evs es :
  batch_blocks host assets ps evs es -> shown_log evs = [] /\ questions evs = [].
Proof.
  induction 1 as [|p ps evs es evs' es' Hb _ [IH1 IH2]]; [auto|].
  rewrite shown_log_app, questions_app, IH1, IH2, !app_nil_r.
  destruct Hb; simpl; rewrite ?shown_log_app, ?questions_app,
    ?shown_log_map_dispatch; simpl; rewrite ?app_nil_r; split; auto;
    clear; induction assets as [|a l IH]; simpl; auto.
Qed.

(** A computation that returns or raises at once, leaving the state alone. *)
Definition idle {A} (m : M A) : Prop := exists r, forall st, m st = (r, st).

Lemma idle_events {A} (m : M A) st : idle m -> events_of m st = [].
Proof.
  intros [r H]. apply events_of_intro. rewrite H. simpl. rewrite app_nil_r.
  reflexivity.
Qed.

Lemma idle_state {A} (m : M A) st : idle m -> snd (m st) = st.
Proof. intros [r H]. rewrite H. reflexivity. Qed.

(** Each of the two file handlers either does nothing or runs the batch over
    the targets it resolved. *)
Lemma select_project_cases self :
  (file_dialog user = None /\ idle (select_project host user self)) \/
  exists ps,
    file_dialog user = Some ps /\
    select_project host user self = clean_files host user self ps.
Proof.
  unfold select_project. destruct (file_dialog user) as [ps|].
  - right. exists ps. auto.
  - left. split; [reflexivity|]. exists (Ok tt). reflexivity.
Qed.

Lemma process_selected_projects_cases self fps cbs :
  (match selected_files_from 0 fps cbs with Some (_ :: _) => False | _ => True end
   /\ idle (process_selected_projects host user self fps cbs)) \/
  exists ps,
    selected_files_from 0 fps cbs = Some ps /\ ps <> [] /\
    process_selected_projects host user self fps cbs
      = clean_files host user self ps.
Proof.
  unfold process_selected_projects.
  destruct (selected_files_from 0 fps cbs) as [[|p ps]|].
  - left. split; [exact I|]. exists (Ok tt). reflexivity.
  - right. exists (p :: ps). repeat split; auto. discriminate.
  - left. split; [exact I|]. eexists. reflexivity.
Qed.

Lemma remove_from_subfolders_cases self :
  idle (remove_from_subfolders host user walk_tree self) \/
  exists fps cbs,
    remove_from_subfolders host user walk_tree self
      = process_selected_projects host user self fps cbs.
Proof.
  unfold remove_from_subfolders. destruct (folder_dialog user) as [folder|].
  - destruct (scan_projects folder (walk_tree folder)) as [|p fps].
    + left. exists (Ok tt). reflexivity.
    + simpl truthy. cbv iota. unfold project_selection_table.
      destruct (table_session user (p :: fps)) as [actions [|]].
      * right. eexists _, _. reflexivity.
      * left. exists (Ok tt). reflexivity.
  - left. exists (Ok tt). reflexivity.
Qed.

(** The current-project handler: the question, then, on Yes, the pass and
    the log. *)
Lemma remove_from_project_run self st :
  exists st',
    remove_from_project host user self st = (Ok tt, st') /\
    doc_chunk st' = doc_chunk st /\
    if confirmed user (get_selected_assets self) [label (app_chunk st)] then
      exists evs es,
        trace st'
          = trace st ++
            EQuestion confirm_title
              (confirm_message (get_selected_assets self) [label (app_chunk st)])
              true
            :: evs ++ [EShowLog es] /\
        skeleton evs = map (EDispatch AppDocument) (get_selected_assets self) /\
        asset_entries (fun _ => True) (get_selected_assets self) es
    else
      trace st'
        = trace st ++
          [EQuestion confirm_title
             (confirm_message (get_selected_assets self) [label (app_chunk st)])
             false] /\
      app_chunk st' = app_chunk st.
Proof.
  unfold remove_from_project, confirmed.
  unfold bind at 1, attr at 1. simpl get_chunk.
  unfold bind at 1, log_new. unfold bind at 1, confirm_removal, bind at 1, emit, ret.
  destruct (question_reply user confirm_title
              (confirm_message (get_selected_assets self) [label (app_chunk st)])).
  - unfold bind at 1.
    destruct (remove_assets_run host AppDocument (get_selected_assets self)
                (attr AppDocument label) (fun _ => True) (shown_label AppDocument)
                (add_event (EQuestion confirm_title
                              (confirm_message (get_selected_assets self)
                                               [label (app_chunk st)]) true)
                           (clear_log st)))
      as (evs & es & st1 & Hr & Ht & Hs & Hl & He & Ho).
    rewrite Hr. unfold show_log, bind, get_log, emit.
    eexists. split; [reflexivity|]. simpl in Ho |- *. split; [exact Ho|].
    exists evs, es. rewrite Ht, Hl. simpl. rewrite <- !app_assoc. auto.
  - eexists. repeat split; reflexivity.
Qed.

End Handlers.

(** Nothing was dispatched, called, opened or saved, and the open project
    is as it was. *)
Definition untouched {A} (m : M A) (st : State) : Prop :=
  dispatches (events_of m st) = [] /\
  host_ops (events_of m st) = [] /\
  opens (events_of m st) = [] /\
  saves (events_of m st) = [] /\
  app_chunk (snd (m st)) = app_chunk st.

Lemma untouched_idle {A} (m : M A) st : idle m -> untouched m st.
Proof.
  intros H. unfold untouched. rewrite (idle_events m st H), (idle_state m st H).
  auto.
Qed.

Lemma clean_files_declined host user self ps st :
  confirmed user (get_selected_assets self) ps = false ->
  untouched (clean_files host user self ps) st.
Proof.
  intros Hno. destruct (clean_files_run host user self ps st) as (st' & Hr & Ha & Ht).
  rewrite Hno in Ht.
  assert (He : exists evs,
            events_of (clean_files host user self ps) st = evs /\
            (evs = [] \/ exists t m b, evs = [EQuestion t m b])).
  { destruct (get_selected_assets self).
    - exists []. split; auto. apply events_of_intro. rewrite Hr. simpl.
      rewrite Ht, app_nil_r. reflexivity.
    - eexists. split; [apply events_of_intro; rewrite Hr; exact Ht|]. right. eauto. }
  destruct He as (evs & He & Hc). unfold untouched. rewrite He, Hr. simpl snd.
  destruct Hc as [->|(t & m & b & ->)]; simpl; auto.
Qed.

(** Whatever a handler does comes after the confirmation dialog, and
    nothing comes after the answer No. *)
Definition asks_first {A} (m : M A) (st : State) : Prop :=
  events_of m st = [] \/
  exists message reply rest,
    events_of m st = EQuestion confirm_title message reply :: rest /\
    (reply = false -> rest = []).

Lemma asks_first_idle {A} (m : M A) st : idle m -> asks_first m st.
Proof. intros H. left. apply idle_events, H. Qed.

Lemma clean_files_asks_first host user self ps st :
  asks_first (clean_files host user self ps) st.
Proof.
  destruct (clean_files_run host user self ps st) as (st' & Hr & _ & Ht).
  destruct (get_selected_assets self) as [|a assets].
  - left. apply events_of_intro. rewrite Hr. simpl. rewrite Ht, app_nil_r. reflexivity.
  - right. destruct (confirmed user (a :: assets) ps).
    + destruct Ht as (evs & es & Ht & _).
      eexists _, true, _. split; [|discriminate].
      apply events_of_intro. rewrite Hr. exact Ht.
    + eexists _, false, []. split; [|reflexivity].
      apply events_of_intro. rewrite Hr. exact Ht.
Qed.

(** C5.  In every handler nothing is dispatched, called, opened or saved
    before the confirmation dialog, and nothing at all happens after the
    answer No; so when the user declines, the handler ends without a
    dispatch, without a call on a chunk and without opening or saving a
    project. *)
Theorem declined_confirmation_aborts
    (host : Host) (user : User) (walk_tree : string -> dir)
    (self : CleanUpDlg) (st : State) :
  (asks_first (remove_from_project host user self) st /\
   asks_first (select_project host user self) st /\
   asks_first (remove_from_subfolders host user walk_tree self) st) /\
  ((forall assets projects, confirmed user assets projects = false) ->
   untouched (remove_from_project host user self) st /\
   untouched (select_project host user self) st /\
   untouched (remove_from_subfolders host user walk_tree self) st /\
   (forall file_paths checkboxes,
      untouched (process_selected_projects host user self file_paths checkboxes)
                st)).
Proof.
  split.
  - split; [|split].
    + right. destruct (remove_from_project_run host user self st)
        as (st' & Hr & _ & Ht).
      destruct (confirmed user (get_selected_assets self) [label (app_chunk st)]).
      * destruct Ht as (evs & es & Ht & _).
        eexists _, true, _. split; [|discriminate].
        apply events_of_intro. rewrite Hr. exact Ht.
      * destruct Ht as [Ht _]. eexists _, false, []. split; [|reflexivity].
        apply events_of_intro. rewrite Hr. exact Ht.
    + destruct (select_project_cases host user self) as [[_ Hidle] | (ps & _ & ->)];
        [apply asks_first_idle, Hidle | apply clean_files_asks_first].
    + destruct (remove_from_subfolders_cases host user walk_tree self)
        as [Hidle | (fps & cbs & ->)]; [apply asks_first_idle, Hidle|].
      destruct (process_selected_projects_cases host user self fps cbs)
        as [[_ Hidle] | (ps & _ & _ & ->)];
        [apply asks_first_idle, Hidle | apply clean_files_asks_first].
  - intros Hno.
    assert (Hproc : forall fps cbs,
              untouched (process_selected_projects host user self fps cbs) st).
    { intros fps cbs.
      destruct (process_selected_projects_cases host user self fps cbs)
        as [[_ Hidle] | (ps & _ & _ & ->)].
      - apply untouched_idle, Hidle.
      - apply clean_files_declined, Hno. }
    split; [|split; [|split]]; auto.
    + destruct (remove_from_project_run host user self st) as (st' & Hr & _ & Ht).
      rewrite Hno in Ht. destruct Ht as [Ht Ha].
      unfold untouched. rewrite (events_of_intro _ st _
        ltac:(rewrite Hr; exact Ht)). rewrite Hr. simpl. auto.
    + destruct (select_project_cases host user self) as [[_ Hidle] | (ps & _ & ->)].
      * apply untouched_idle, Hidle.
      * apply clean_files_declined, Hno.
    + destruct (remove_from_subfolders_cases host user walk_tree self)
        as [Hidle | (fps & cbs & ->)].
      * apply untouched_idle, Hidle.
      * apply Hproc.
Qed.

Lemma declined_confirmation_aborts_witness :
  (forall assets projects, confirmed no_user assets projects = false) /\
  untouched (remove_from_project quiet_host no_user new_dialog) (start sample_chunk) /\
  untouched (select_project quiet_host no_user new_dialog) (start sample_chunk).
Proof.
  assert (Hno : forall assets projects, confirmed no_user assets projects = false)
    by reflexivity.
  destruct (proj2 (declined_confirmation_aborts quiet_host no_user
                     (fun _ => sample_tree) new_dialog (start sample_chunk)) Hno)
    as (H1 & H2 & _).
  split; [exact Hno | split; [exact H1 | exact H2]].
Defined.



(** * The batch, claim by claim *)

(** What a confirmed batch over the targets [ps] leaves behind: the
    dispatches are the assets once per opened target, target by target; the
    shown log is one block per target, in order, as [file_entries] describes;
    the log has one entry per dispatch and one per [open] or [save] that
    raised; without such a failure there are N x M dispatches and entries. *)
Definition batch_outcome (host : Host) (assets ps : list string)
    (evs : list Event) : Prop :=
  dispatches evs = flat_map (fun p => if opened host p then assets else []) ps /\
  (exists blocks,
     shown_log evs = List.concat blocks /\
     Forall2 (file_entries host assets) ps blocks) /\
  List.length (shown_log evs)
    = List.length (dispatches evs) + List.length (io_failures evs) /\
  (io_failures evs = [] ->
   List.length (dispatches evs) = List.length ps * List.length assets /\
   List.length (shown_log evs) = List.length ps * List.length assets).

Lemma batch_outcome_nil host assets : batch_outcome host assets [] [].
Proof.
  unfold batch_outcome. simpl. repeat split; auto.
  exists []. split; [reflexivity | constructor].
Qed.

(** The facts about a confirmed batch that the claims below share. *)
Lemma clean_files_confirmed host user self ps st :
  get_selected_assets self <> [] ->
  confirmed user (get_selected_assets self) ps = true ->
  result_of (clean_files host user self ps) st = Ok tt /\
  steps (events_of (clean_files host user self ps) st)
    = batch_steps host (get_selected_assets self) ps /\
  questions (events_of (clean_files host user self ps) st) = [true] /\
  batch_outcome host (get_selected_assets self) ps
    (events_of (clean_files host user self ps) st).
Proof.
  intros Hne Hyes.
  destruct (clean_files_run host user self ps st) as (st' & Hr & _ & Ht).
  rewrite Hyes in Ht.
  destruct (get_selected_assets self) as [|a assets] eqn:Ea; [congruence|].
  destruct Ht as (evs & es & Ht & _ & Hb).
  unfold result_of. rewrite Hr. split; [reflexivity|].
  rewrite (events_of_intro (clean_files host user self ps) st _
             ltac:(rewrite Hr; exact Ht)).
  destruct (batch_blocks_quiet host _ _ _ _ Hb) as [Hq1 Hq2].
  rewrite shown_log_skeleton in Hq1. rewrite questions_skeleton in Hq2.
  assert (Hsteps : steps evs = batch_steps host (a :: assets) ps)
    by (rewrite <- steps_skeleton; eapply batch_blocks_steps; eauto).
  assert (Hdis : dispatches evs
                 = flat_map (fun p => if opened host p then a :: assets else []) ps)
    by (rewrite <- dispatches_skeleton; eapply batch_blocks_dispatches; eauto).
  assert (Hcount : List.length es
                   = List.length (dispatches evs) + List.length (io_failures evs))
    by (rewrite <- dispatches_skeleton, <- io_failures_skeleton;
        eapply batch_blocks_count; eauto).
  assert (Hshown : shown_log (EQuestion confirm_title
                                (confirm_message (a :: assets) ps) true
                              :: evs ++ [EShowLog es]) = es)
    by (simpl; rewrite shown_log_app, Hq1; simpl; apply app_nil_r).
  assert (Hdis' : dispatches (EQuestion confirm_title
                                (confirm_message (a :: assets) ps) true
                              :: evs ++ [EShowLog es]) = dispatches evs)
    by (simpl; rewrite dispatches_app; simpl; apply app_nil_r).
  assert (Hio : io_failures (EQuestion confirm_title
                               (confirm_message (a :: assets) ps) true
                             :: evs ++ [EShowLog es]) = io_failures evs)
    by (simpl; rewrite io_failures_app; simpl; apply app_nil_r).
  split; [simpl; rewrite steps_app; simpl; rewrite app_nil_r; exact Hsteps|].
  split; [simpl; rewrite questions_app, Hq2; reflexivity|].
  unfold batch_outcome. rewrite Hshown, Hdis', Hio.
  split; [exact Hdis|].
  split; [eapply batch_blocks_entries; eauto|].
  split; [exact Hcount|].
  intros Hnone.
  assert (Hn : List.length (dispatches evs)
               = List.length ps * List.length (a :: assets)).
  { rewrite <- dispatches_skeleton.
    eapply batch_blocks_no_failure; eauto.
    rewrite io_failures_skeleton. exact Hnone. }
  split; [exact Hn|]. rewrite Hcount, Hn, Hnone. simpl. lia.
Qed.

(** C1, as stated, fails: with two targets that both open and one selected
    asset, N x M = 2, yet the log has four entries, because each [doc.save()]
    raised and added an entry of its own. *)
Lemma log_length_counterexample :
  file_dialog yes_user = Some ["P1.psx"; "P2.psx"] /\
  get_selected_assets shapes_only = ["Shapes"] /\
  confirmed yes_user ["Shapes"] ["P1.psx"; "P2.psx"] = true /\
  forallb (opened readonly_host) ["P1.psx"; "P2.psx"] = true /\
  dispatches (events_of (select_project readonly_host yes_user shapes_only)
                        (start sample_chunk)) = ["Shapes"; "Shapes"] /\
  shown_log (events_of (select_project readonly_host yes_user shapes_only)
                       (start sample_chunk))
    = [ success_entry "Shapes" "P1.psx";
        io_failure_entry "P1.psx" "Document is read-only";
        success_entry "Shapes" "P2.psx";
        io_failure_entry "P2.psx" "Document is read-only" ].
Proof. repeat split; reflexivity. Qed.

(** The batch of two targets of which the second does not open: two
    success entries for P1, one I/O failure entry for P2, and no dispatch on
    P2. *)
Example second_target_does_not_open :
  steps (events_of (select_project p2_broken_host p1_p2_user orthomosaics_and_shapes)
                   (start sample_chunk))
    = [ SOpen "P1"; SDispatch "Orthomosaics"; SDispatch "Shapes"; SSave "P1";
        SOpen "P2" ] /\
  shown_log (events_of (select_project p2_broken_host p1_p2_user
                          orthomosaics_and_shapes)
                       (start sample_chunk))
    = [ success_entry "Orthomosaics" "P1";
        success_entry "Shapes" "P1";
        io_failure_entry "P2" "Can't open file" ].
Proof. split; reflexivity. Qed.

Lemma opens_of_dispatch_steps (assets : list string) :
  flat_map (fun s => match s with SOpen p => [p] | _ => [] end)
           (map SDispatch assets) = [].
Proof. induction assets as [|a l IH]; simpl; auto. Qed.

Lemma saves_of_dispatch_steps (assets : list string) :
  flat_map (fun s => match s with SSave p => [p] | _ => [] end)
           (map SDispatch assets) = [].
Proof. induction assets as [|a l IH]; simpl; auto. Qed.

Lemma batch_steps_opens host assets ps :
  flat_map (fun s => match s with SOpen p => [p] | _ => [] end)
           (batch_steps host assets ps) = ps.
Proof.
  unfold batch_steps. induction ps as [|p ps IH]; [reflexivity|].
  simpl. rewrite flat_map_app, IH.
  destruct (opened host p); [|reflexivity].
  rewrite flat_map_app, opens_of_dispatch_steps. reflexivity.
Qed.

Lemma batch_steps_saves host assets ps :
  flat_map (fun s => match s with SSave p => [p] | _ => [] end)
           (batch_steps host assets ps) = filter (opened host) ps.
Proof.
  unfold batch_steps. induction ps as [|p ps IH]; [reflexivity|].
  simpl. rewrite flat_map_app, IH.
  destruct (opened host p); [|reflexivity].
  rewrite flat_map_app, saves_of_dispatch_steps. reflexivity.
Qed.

(** C6, as stated, fails: the current-project handler dispatches the
    selected assets on the open project and never saves it. *)
Lemma current_project_not_saved_counterexample :
  confirmed yes_user (get_selected_assets new_dialog) [label sample_chunk] = true /\
  dispatches (events_of (remove_from_project quiet_host yes_user new_dialog)
                        (start sample_chunk))
    = ["Point Clouds"; "DEMs"; "Orthophotos"; "Orthomosaics"] /\
  saves (events_of (remove_from_project quiet_host yes_user new_dialog)
                   (start sample_chunk)) = [].
Proof. repeat split; reflexivity. Qed.

(** * The directory scan *)

(** ** Suffixes *)

Lemma substring_whole (s : string) : substring 0 (String.length s) s = s.
Proof. induction s as [|c s IH]; simpl; [|rewrite IH]; reflexivity. Qed.

Lemma substring_after (pre s : string) (m : nat) :
  substring (String.length pre) m (pre ++ s)%string = substring 0 m s.
Proof. induction pre as [|c pre IH]; simpl; auto. Qed.

Lemma string_length_app (a b : string) :
  String.length (a ++ b)%string = String.length a + String.length b.
Proof. induction a as [|c a IH]; simpl; [|rewrite IH]; reflexivity. Qed.

Lemma substring_split (s : string) :
  forall m, m <= String.length s ->
  s = (substring 0 m s ++ substring m (String.length s - m) s)%string.
Proof.
  induction s as [|c s IH]; intros [|m] Hm; simpl in *; try lia.
  - reflexivity.
  - rewrite substring_whole. reflexivity.
  - rewrite <- IH by lia. reflexivity.
Qed.

Lemma lower_length (s : string) : String.length (lower s) = String.length s.
Proof. induction s as [|c s IH]; simpl; [|rewrite IH]; reflexivity. Qed.

Lemma lower_app (a b : string) : lower (a ++ b)%string = (lower a ++ lower b)%string.
Proof. induction a as [|c a IH]; simpl; [|rewrite IH]; reflexivity. Qed.

Lemma lower_substring (s : string) :
  forall n m, substring n m (lower s) = lower (substring n m s).
Proof.
  induction s as [|c s IH]; intros [|n] [|m]; simpl; auto.
  rewrite IH. reflexivity.
Qed.

Lemma endswith_iff (s suffix : string) :
  endswith s suffix = true <-> exists pre, s = (pre ++ suffix)%string.
Proof.
  unfold endswith. rewrite andb_true_iff, Nat.leb_le, String.eqb_eq. split.
  - intros [Hk Hs].
    exists (substring 0 (String.length s - String.length suffix) s).
    pose proof (substring_split s (String.length s - String.length suffix)
                  ltac:(lia)) as H.
    replace (String.length s - (String.length s - String.length suffix))
      with (String.length suffix) in H by lia.
    rewrite Hs in H. exact H.
  - intros [pre ->]. rewrite string_length_app. split; [lia|].
    replace (String.length pre + String.length suffix - String.length suffix)
      with (String.length pre) by lia.
    rewrite substring_after. apply substring_whole.
Qed.

(** A name ends, case aside, in [suffix] exactly when it splits into a stem
    and an extension that lower-cases to [suffix]. *)
Lemma endswith_lower (file suffix : string) :
  endswith (lower file) suffix = true <->
  exists stem ext, file = (stem ++ ext)%string /\ lower ext = suffix.
Proof.
  split.
  - unfold endswith. rewrite andb_true_iff, Nat.leb_le, String.eqb_eq.
    rewrite lower_length, lower_substring. intros [Hk Hs].
    exists (substring 0 (String.length file - String.length suffix) file),
           (substring (String.length file - String.length suffix)
                      (String.length suffix) file).
    split; [|exact Hs].
    pose proof (substring_split file (String.length file - String.length suffix)
                  ltac:(lia)) as H.
    replace (String.length file - (String.length file - String.length suffix))
      with (String.length suffix) in H by lia.
    exact H.
  - intros (stem & ext & -> & <-). rewrite lower_app.
    apply endswith_iff. eauto.
Qed.

Lemma is_project_file_iff (file : string) :
  is_project_file file = true <->
  exists stem ext,
    file = (stem ++ ext)%string /\ (lower ext = ".psz" \/ lower ext = ".psx").
Proof.
  unfold is_project_file. rewrite orb_true_iff, !endswith_lower. split.
  - intros [(stem & ext & H1 & H2) | (stem & ext & H1 & H2)];
      exists stem, ext; auto.
  - intros (stem & ext & H1 & [H2|H2]); [left | right]; eauto.
Qed.

(** ** The walk *)

(** [file_under top d root file]: in the tree [d] found at path [top], the
    directory at path [root] lists the file [file]. *)
Inductive file_under : string -> dir -> string -> string -> Prop :=
| file_here top name subdirs files file :
    In file files ->
    file_under top (Dir name subdirs files) top file
| file_below top name subdirs files sub root file :
    In sub subdirs ->
    file_under (path_join top (dir_name sub)) sub root file ->
    file_under top (Dir name subdirs files) root file.

Fixpoint dir_nested_ind (P : dir -> Prop)
    (H : forall name subdirs files, Forall P subdirs -> P (Dir name subdirs files))
    (d : dir) : P d :=
  match d with
  | Dir name subdirs files =>
      H name subdirs files
        ((fix all (l : list dir) : Forall P l :=
            match l with
            | [] => Forall_nil P
            | x :: l' => Forall_cons x (dir_nested_ind P H x) (all l')
            end) subdirs)
  end.

Lemma walk_lists_files (d : dir) :
  forall top root file,
    (exists dirs files, In (root, dirs, files) (walk top d) /\ In file files) <->
    file_under top d root file.
Proof.
  induction d as [name subdirs files0 IH] using dir_nested_ind.
  intros top root file. simpl walk. split.
  - intros (dirs & files & [Heq | Hin] & Hf).
    + injection Heq as <- _ <-. apply file_here. exact Hf.
    + apply in_flat_map in Hin as (sub & Hsub & Hin).
      eapply file_below; [exact Hsub|].
      rewrite Forall_forall in IH. apply (IH sub Hsub). eauto.
  - intros H. inversion H as [? ? ? ? ? Hf | ? ? ? ? sub ? ? Hsub Hu]; subst.
    + exists (map dir_name subdirs), files0. split; [left; reflexivity | exact Hf].
    + rewrite Forall_forall in IH. apply (IH sub Hsub) in Hu as (dirs & files & Hin & Hf).
      exists dirs, files. split; [|exact Hf].
      right. apply in_flat_map. eauto.
Qed.

Lemma scan_projects_spec (folder_path : string) (d : dir) (path : string) :
  In path (scan_projects folder_path d) <->
  exists root file,
    file_under folder_path d root file /\
    is_project_file file = true /\
    path = path_join root file.
Proof.
  unfold scan_projects. rewrite in_flat_map. split.
  - intros ([[root dirs] files] & Hin & Hp).
    apply in_map_iff in Hp as (file & <- & Hf). apply filter_In in Hf as [Hf Hproj].
    exists root, file. repeat split; auto.
    apply walk_lists_files. eauto.
  - intros (root & file & Hu & Hproj & ->).
    apply walk_lists_files in Hu as (dirs & files & Hin & Hf).
    exists (root, dirs, files). split; [exact Hin|].
    apply in_map, filter_In. auto.
Qed.

(** ** The selection table *)

(** The paths of the rows whose index is not in [deselected], in order. *)
Definition rows_except (file_paths : list string) (deselected : list nat)
  : list string :=
  map snd
    (filter (fun ip => negb (existsb (Nat.eqb (fst ip)) deselected))
            (combine (seq 0 (List.length file_paths)) file_paths)).

Lemma set_row_seq (b : bool) (f : nat -> bool) (n : nat) :
  forall s i,
    set_row i b (map f (seq s n))
      = map (fun j => if j =? s + i then b else f j)%nat (seq s n).
Proof.
  induction n as [|n IH]; intros s i; [destruct i; reflexivity|].
  simpl seq. simpl map. destruct i as [|i]; simpl set_row.
  - rewrite Nat.add_0_r, Nat.eqb_refl. f_equal.
    apply map_ext_in. intros j Hj. apply in_seq in Hj.
    destruct (Nat.eqb_spec j s); [lia | reflexivity].
  - destruct (Nat.eqb_spec s (s + S i)); [lia|]. f_equal.
    rewrite IH. apply map_ext. intros j.
    replace (S s + i) with (s + S i) by lia. reflexivity.
Qed.

Lemma deselect_rows (deselected : list nat) (n : nat) :
  forall f,
    fold_left table_step (map (fun i => SetRow i false) deselected)
              (map f (seq 0 n))
      = map (fun j => f j && negb (existsb (Nat.eqb j) deselected)) (seq 0 n).
Proof.
  induction deselected as [|i D IH]; intros f; simpl.
  - apply map_ext. intros j. rewrite andb_true_r. reflexivity.
  - rewrite set_row_seq, IH. apply map_ext. intros j. simpl.
    destruct (Nat.eqb_spec j i); simpl; [rewrite andb_false_r|]; reflexivity.
Qed.

Lemma table_checkboxes_seq (file_paths : list string) :
  table_checkboxes file_paths
    = map (fun _ => true) (seq 0 (List.length file_paths)).
Proof.
  unfold table_checkboxes. generalize 0.
  induction file_paths as [|p ps IH]; intros s; simpl; [|rewrite <- IH]; reflexivity.
Qed.

Lemma selected_files_seq (g : nat -> bool) (rest : list string) :
  forall pre,
    selected_files_from (List.length pre) (pre ++ rest)
                        (map g (seq (List.length pre) (List.length rest)))
      = Some (map snd
                (filter (fun ip => g (fst ip))
                        (combine (seq (List.length pre) (List.length rest)) rest))).
Proof.
  induction rest as [|x rest IH]; intros pre; [reflexivity|].
  simpl List.length. simpl seq. simpl map. simpl selected_files_from.
  specialize (IH (pre ++ [x])).
  rewrite <- app_assoc, length_app in IH. simpl in IH.
  replace (List.length pre + 1) with (S (List.length pre)) in IH by lia.
  rewrite IH. simpl combine. simpl filter.
  destruct (g (List.length pre)); [|reflexivity].
  rewrite nth_error_app2, Nat.sub_diag by lia. reflexivity.
Qed.

Lemma selected_default (file_paths : list string) :
  selected_files_from 0 file_paths (table_checkboxes file_paths) = Some file_paths.
Proof.
  rewrite table_checkboxes_seq.
  pose proof (selected_files_seq (fun _ => true) file_paths []) as H.
  simpl in H. rewrite H. f_equal. clear H.
  generalize 0. induction file_paths as [|p ps IH]; intros s; simpl;
    [|rewrite IH]; reflexivity.
Qed.

Lemma selected_after_deselect (file_paths : list string) (deselected : list nat) :
  selected_files_from 0 file_paths
    (fold_left table_step (map (fun i => SetRow i false) deselected)
               (table_checkboxes file_paths))
    = Some (rows_except file_paths deselected).
Proof.
  rewrite table_checkboxes_seq, deselect_rows.
  apply (selected_files_seq
           (fun j => true && negb (existsb (Nat.eqb j) deselected)) file_paths []).
Qed.

Lemma process_selected_projects_steps host user self fps cbs ps st :
  get_selected_assets self <> [] ->
  (forall assets projects, confirmed user assets projects = true) ->
  selected_files_from 0 fps cbs = Some ps ->
  steps (events_of (process_selected_projects host user self fps cbs) st)
    = batch_steps host (get_selected_assets self) ps.
Proof.
  intros Hne Hyes Hsel.
  destruct (process_selected_projects_cases host user self fps cbs)
    as [[Hm Hidle] | (ps' & Hsel' & _ & ->)].
  - rewrite Hsel in Hm. destruct ps; [|contradiction].
    rewrite (idle_events _ st Hidle). reflexivity.
  - assert (ps' = ps) by congruence. subst ps'.
    apply clean_files_confirmed; auto.
Qed.

(** C7.  The scan finds exactly the paths [join(root, file)] of the files
    that a directory of the tree lists and whose name, lower-cased, ends in
    .psz or .psx, that is, whose name splits into a stem and an extension
    that is .psz or .psx up to case.  The table starts with every row
    checked, so OK without a click selects every discovered file; after
    unchecking the rows [deselected] the selection is the other rows, in
    order, and a confirmed batch opens exactly those. *)
Theorem directory_scan_and_selection
    (host : Host) (user : User) (walk_tree : string -> dir)
    (self : CleanUpDlg) (st : State) :
  (forall folder_path d path,
     In path (scan_projects folder_path d) <->
     exists root file,
       file_under folder_path d root file /\
       is_project_file file = true /\
       path = path_join root file) /\
  (forall file,
     is_project_file file = true <->
     exists stem ext,
       file = (stem ++ ext)%string /\ (lower ext = ".psz" \/ lower ext = ".psx")) /\
  (forall file_paths,
     Forall (eq true) (table_checkboxes file_paths) /\
     selected_files_from 0 file_paths (table_checkboxes file_paths)
       = Some file_paths) /\
  (forall file_paths deselected,
     selected_files_from 0 file_paths
       (fold_left table_step (map (fun i => SetRow i false) deselected)
                  (table_checkboxes file_paths))
       = Some (rows_except file_paths deselected)) /\
  (forall folder_path deselected,
     folder_dialog user = Some folder_path ->
     table_session user (scan_projects folder_path (walk_tree folder_path))
       = (map (fun i => SetRow i false) deselected, true) ->
     get_selected_assets self <> [] ->
     (forall assets projects, confirmed user assets projects = true) ->
     opens (events_of (remove_from_subfolders host user walk_tree self) st)
       = rows_except (scan_projects folder_path (walk_tree folder_path)) deselected).
Proof.
  split; [exact scan_projects_spec|].
  split; [exact is_project_file_iff|].
  split; [|split; [exact selected_after_deselect|]].
  - intros fps. split; [|apply selected_default].
    unfold table_checkboxes. apply Forall_forall. intros b Hb.
    apply in_map_iff in Hb as (p & <- & _). reflexivity.
  - intros folder D Hfolder Htable Hne Hyes.
    unfold remove_from_subfolders. rewrite Hfolder.
    destruct (scan_projects folder (walk_tree folder)) as [|p fps] eqn:Escan.
    + simpl truthy. cbv iota.
      rewrite (idle_events (ret tt) st) by (exists (Ok tt); reflexivity).
      reflexivity.
    + simpl truthy. cbv iota. unfold project_selection_table. rewrite Htable.
      rewrite opens_steps.
      rewrite (process_selected_projects_steps host user self (p :: fps) _
                 (rows_except (p :: fps) D) st Hne Hyes
                 (selected_after_deselect (p :: fps) D)).
      apply batch_steps_opens.
Qed.

Lemma directory_scan_and_selection_witness :
  folder_dialog pruning_user = Some "/data" /\
  scan_projects "/data" sample_tree
    = ["/data/top.psx"; "/data/a/one.PSX"; "/data/b/c/two.psz"] /\
  opens (events_of (remove_from_subfolders quiet_host pruning_user
                      (fun _ => sample_tree) shapes_only)
                   (start sample_chunk))
    = ["/data/top.psx"; "/data/b/c/two.psz"].
Proof.
  split; [reflexivity | split; [reflexivity|]].
  assert (Hne : get_selected_assets shapes_only <> []) by discriminate.
  assert (Hyes : forall assets projects,
            confirmed pruning_user assets projects = true) by reflexivity.
  destruct (directory_scan_and_selection quiet_host pruning_user
              (fun _ => sample_tree) shapes_only (start sample_chunk))
    as (_ & _ & _ & _ & H).
  rewrite (H "/data" [1] eq_refl eq_refl Hne Hyes). reflexivity.
Defined.

(** * Beyond the claims: the selection table *)

(** The paths of the rows whose box is checked, in order. *)
Definition checked_rows (file_paths : list string) (checkboxes : list bool)
  : list string :=
  map fst (filter snd (combine file_paths checkboxes)).

Lemma set_row_length (i : nat) (b : bool) (checkboxes : list bool) :
  List.length (set_row i b checkboxes) = List.length checkboxes.
Proof.
  revert i. induction checkboxes as [|cb rest IH]; intros [|i]; simpl; auto.
Qed.

Lemma table_step_length (checkboxes : list bool) (a : table_action) :
  List.length (table_step checkboxes a) = List.length checkboxes.
Proof.
  destruct a; simpl; [apply set_row_length | |];
    unfold toggle_select_all; apply length_map.
Qed.

Lemma table_clicks_length (actions : list table_action) :
  forall checkboxes,
    List.length (fold_left table_step actions checkboxes) = List.length checkboxes.
Proof.
  induction actions as [|a actions IH]; intros cbs; simpl; [reflexivity|].
  rewrite IH. apply table_step_length.
Qed.

Lemma table_checkboxes_length (file_paths : list string) :
  List.length (table_checkboxes file_paths) = List.length file_paths.
Proof. apply length_map. Qed.

(** Line 223 with no more boxes than paths: the checked rows, no IndexError. *)
Lemma selected_files_checked (rest : list string) :
  forall pre checkboxes,
    List.length checkboxes <= List.length rest ->
    selected_files_from (List.length pre) (pre ++ rest) checkboxes
      = Some (checked_rows rest checkboxes).
Proof.
  unfold checked_rows.
  induction rest as [|x rest IH]; intros pre [|cb cbs] Hlen; simpl in *;
    try reflexivity; try lia.
  specialize (IH (pre ++ [x]) cbs ltac:(lia)).
  rewrite <- app_assoc, length_app in IH. simpl in IH.
  replace (List.length pre + 1) with (S (List.length pre)) in IH by lia.
  rewrite IH. destruct cb; [|reflexivity].
  rewrite nth_error_app2, Nat.sub_diag by lia. reflexivity.
Qed.

Lemma selected_files_checked0 (file_paths : list string) (checkboxes : list bool) :
  List.length checkboxes <= List.length file_paths ->
  selected_files_from 0 file_paths checkboxes
    = Some (checked_rows file_paths checkboxes).
Proof. intros H. exact (selected_files_checked file_paths [] checkboxes H). Qed.

Lemma all_true_checkboxes (checkboxes : list bool) (file_paths : list string) :
  List.length checkboxes = List.length file_paths ->
  toggle_select_all checkboxes true = table_checkboxes file_paths.
Proof.
  unfold toggle_select_all, table_checkboxes. revert file_paths.
  induction checkboxes as [|cb cbs IH]; intros [|p ps] Hlen; simpl in *;
    try discriminate; [reflexivity|].
  f_equal. apply IH. lia.
Qed.

Lemma all_false_rows (checkboxes : list bool) :
  forall file_paths,
    checked_rows file_paths (toggle_select_all checkboxes false) = [].
Proof.
  unfold checked_rows, toggle_select_all.
  induction checkboxes as [|cb cbs IH]; intros [|p ps]; simpl; auto.
Qed.

Lemma process_selected_projects_returns host user self fps cbs st :
  List.length cbs <= List.length fps ->
  result_of (process_selected_projects host user self fps cbs) st = Ok tt.
Proof.
  intros Hlen. unfold result_of, process_selected_projects.
  rewrite (selected_files_checked0 fps cbs Hlen).
  destruct (checked_rows fps cbs) as [|p ps]; [reflexivity|].
  change (fst (clean_files host user self (p :: ps) st) = Ok tt).
  destruct (clean_files_run host user self (p :: ps) st) as (st' & Hr & _).
  rewrite Hr. reflexivity.
Qed.

(** X1.  Whatever the user clicks in the selection table (single boxes,
    Select All, Deselect All, in any order), the table keeps one box per
    discovered path, the list comprehension of line 223 returns the paths of
    the checked rows in table order without an IndexError, and
    [process_selected_projects] returns normally. *)
Theorem table_clicks_select_checked_rows
    (host : Host) (user : User) (self : CleanUpDlg) (st : State)
    (file_paths : list string) (actions : list table_action) :
  List.length (fold_left table_step actions (table_checkboxes file_paths))
    = List.length file_paths /\
  selected_files_from 0 file_paths
    (fold_left table_step actions (table_checkboxes file_paths))
    = Some (checked_rows file_paths
              (fold_left table_step actions (table_checkboxes file_paths))) /\
  result_of (process_selected_projects host user self file_paths
               (fold_left table_step actions (table_checkboxes file_paths))) st
    = Ok tt.
Proof.
  assert (Hlen : List.length (fold_left table_step actions
                                (table_checkboxes file_paths))
                 = List.length file_paths)
    by (rewrite table_clicks_length; apply table_checkboxes_length).
  split; [exact Hlen|]. split.
  - apply selected_files_checked0. lia.
  - apply process_selected_projects_returns. lia.
Qed.

(** X2.  The two bulk buttons override every earlier click: after Select All
    the selection is every discovered path, after Deselect All it is empty,
    and with an empty selection [process_selected_projects] does nothing at
    all, not even ask for confirmation. *)
Theorem bulk_buttons_override_clicks
    (host : Host) (user : User) (self : CleanUpDlg) (st : State)
    (file_paths : list string) (actions : list table_action) :
  selected_files_from 0 file_paths
    (fold_left table_step (actions ++ [SelectAll]) (table_checkboxes file_paths))
    = Some file_paths /\
  selected_files_from 0 file_paths
    (fold_left table_step (actions ++ [DeselectAll]) (table_checkboxes file_paths))
    = Some [] /\
  events_of (process_selected_projects host user self file_paths
               (fold_left table_step (actions ++ [DeselectAll])
                          (table_checkboxes file_paths))) st
    = [].
Proof.
  rewrite !fold_left_app. simpl fold_left.
  assert (Hlen : List.length (fold_left table_step actions
                                (table_checkboxes file_paths))
                 = List.length file_paths)
    by (rewrite table_clicks_length; apply table_checkboxes_length).
  assert (Hnone : selected_files_from 0 file_paths
                    (toggle_select_all
                       (fold_left table_step actions (table_checkboxes file_paths))
                       false) = Some []).
  { rewrite selected_files_checked0.
    - rewrite all_false_rows. reflexivity.
    - unfold toggle_select_all. rewrite length_map. lia. }
  split; [|split].
  - rewrite (all_true_checkboxes _ file_paths Hlen). apply selected_default.
  - exact Hnone.
  - apply idle_events. unfold process_selected_projects. rewrite Hnone.
    exists (Ok tt). reflexivity.
Qed.

(** * Beyond the claims: the directory scan *)

Lemma flat_map_nested {A B C} (f : B -> list C) (g : A -> list B) (l : list A) :
  flat_map f (flat_map g l) = flat_map (fun x => flat_map f (g x)) l.
Proof.
  induction l as [|x l IH]; simpl; [reflexivity|].
  rewrite flat_map_app, IH. reflexivity.
Qed.

Lemma scan_projects_unfold
    (folder_path name : string) (subdirs : list dir) (files : list string) :
  scan_projects folder_path (Dir name subdirs files)
    = map (path_join folder_path) (filter is_project_file files)
      ++ flat_map (fun sub =>
                     scan_projects (path_join folder_path (dir_name sub)) sub)
                  subdirs.
Proof.
  unfold scan_projects. simpl walk. simpl flat_map.
  rewrite flat_map_nested. reflexivity.
Qed.

(** The number of files of the tree whose name has a project suffix. *)
Fixpoint project_file_count (d : dir) : nat :=
  match d with
  | Dir _ subdirs files =>
      List.length (filter is_project_file files)
      + list_sum (map project_file_count subdirs)
  end.

Lemma scan_projects_count (d : dir) :
  forall folder_path,
    List.length (scan_projects folder_path d) = project_file_count d.
Proof.
  induction d as [name subdirs files IH] using dir_nested_ind.
  intros folder. rewrite scan_projects_unfold, length_app, length_map.
  simpl project_file_count. f_equal.
  induction subdirs as [|sub subs IHs]; [reflexivity|].
  simpl. rewrite length_app. inversion IH as [|? ? Hsub Hsubs]; subst.
  rewrite Hsub, (IHs Hsubs). reflexivity.
Qed.

(** X3.  The scan is top-down: the project files a directory lists itself
    come first, in listing order, then the scan of each sub-directory in
    turn, each under the path joined from the parent's path and the
    sub-directory's name; this is the order of the rows of the table and of
    the batch.  The scan yields one path per matching file of the tree, so
    no file is dropped or listed twice, whatever the folder's path. *)
Theorem scan_is_top_down
    (folder_path name : string) (subdirs : list dir) (files : list string) :
  scan_projects folder_path (Dir name subdirs files)
    = map (path_join folder_path) (filter is_project_file files)
      ++ flat_map (fun sub =>
                     scan_projects (path_join folder_path (dir_name sub)) sub)
                  subdirs /\
  List.length (scan_projects folder_path (Dir name subdirs files))
    = project_file_count (Dir name subdirs files).
Proof.
  split; [apply scan_projects_unfold | apply scan_projects_count].
Qed.



(** No entry name of the tree starts with a separator. *)
Fixpoint relative_names (d : dir) : bool :=
  match d with
  | Dir _ subdirs files =>
      forallb (fun file => negb (startswith file "/")) files &&
      forallb (fun sub => negb (startswith (dir_name sub) "/") && relative_names sub)
              subdirs
  end.

Lemma string_app_assoc (a b c : string) :
  ((a ++ b) ++ c)%string = (a ++ (b ++ c))%string.
Proof. induction a as [|x a IH]; simpl; [|rewrite IH]; reflexivity. Qed.

Lemma path_join_extends (a b : string) :
  startswith b "/" = false -> exists rest, path_join a b = (a ++ rest)%string.
Proof.
  intros H. unfold path_join. rewrite H.
  destruct ((a =? "") || endswith a "/"); eauto.
Qed.

Lemma file_under_extends top d root file :
  file_under top d root file ->
  relative_names d = true ->
  exists rest, root = (top ++ rest)%string.
Proof.
  induction 1 as [top name subdirs files file Hf
                 | top name subdirs files sub root file Hsub Hu IH]; intros Hrel.
  - exists "". clear. induction top as [|c t IH]; simpl; [|rewrite <- IH]; reflexivity.
  - simpl in Hrel. apply andb_true_iff in Hrel as [_ Hsubs].
    rewrite forallb_forall in Hsubs. specialize (Hsubs sub Hsub).
    apply andb_true_iff in Hsubs as [Hname Hrel].
    apply negb_true_iff in Hname.
    destruct (IH Hrel) as (rest & ->).
    destruct (path_join_extends top (dir_name sub) Hname) as (r1 & ->).
    exists (r1 ++ rest)%string. apply string_app_assoc.
Qed.

Lemma file_under_relative top d root file :
  file_under top d root file ->
  relative_names d = true ->
  startswith file "/" = false.
Proof.
  induction 1 as [top name subdirs files file Hf
                 | top name subdirs files sub root file Hsub Hu IH]; intros Hrel;
    simpl in Hrel; apply andb_true_iff in Hrel as [Hfiles Hsubs].
  - rewrite forallb_forall in Hfiles. apply negb_true_iff, Hfiles, Hf.
  - rewrite forallb_forall in Hsubs. specialize (Hsubs sub Hsub).
    apply andb_true_iff in Hsubs as [_ Hrel]. auto.
Qed.

Lemma startswith_app (a rest : string) : startswith (a ++ rest)%string a = true.
Proof.
  unfold startswith. induction a as [|c a IH]; simpl.
  - destruct rest; reflexivity.
  - destruct (ascii_dec c c); [exact IH | congruence].
Qed.

(** X5.  When no entry name starts with a separator (as on a real file
    system), every discovered path lies under the chosen folder: it is the
    folder's path followed by more text.  Without that condition
    [os.path.join] would drop the folder's path. *)
Theorem discovered_paths_extend_folder
    (folder_path : string) (d : dir) (path : string) :
  relative_names d = true ->
  In path (scan_projects folder_path d) ->
  startswith path folder_path = true /\
  exists rest, path = (folder_path ++ rest)%string.
Proof.
  intros Hrel Hin.
  apply scan_projects_spec in Hin as (root & file & Hu & _ & ->).
  destruct (file_under_extends _ _ _ _ Hu Hrel) as (r1 & ->).
  destruct (path_join_extends (folder_path ++ r1)%string file
              (file_under_relative _ _ _ _ Hu Hrel)) as (r2 & ->).
  rewrite string_app_assoc. split; [apply startswith_app | eauto].
Qed.

Lemma discovered_paths_extend_folder_witness :
  relative_names sample_tree = true /\
  In "/data/b/c/two.psz" (scan_projects "/data" sample_tree) /\
  startswith "/data/b/c/two.psz" "/data" = true.
Proof.
  assert (Hin : In "/data/b/c/two.psz" (scan_projects "/data" sample_tree))
    by (right; right; left; reflexivity).
  split; [reflexivity | split; [exact Hin|]].
  exact (proj1 (discovered_paths_extend_folder "/data" sample_tree
                  "/data/b/c/two.psz" eq_refl Hin)).
Defined.

(** * Beyond the claims: the asset check boxes *)


Lemma selected_among_keys (self : CleanUpDlg) (a : string) :
  In a (get_selected_assets self) -> In a (map fst (checkboxes self)).
Proof.
  unfold get_selected_assets. rewrite !in_map_iff.
  intros (kv & Hk & Hin). apply filter_In in Hin as [Hin _]. eauto.
Qed.



(** X7.  Setting one box changes the selection for that label only: after
    [setChecked(True)] the label is selected if the dialog has a box for it,
    after [setChecked(False)] it is not, and every other label is selected
    exactly when it was before. *)
Theorem setChecked_changes_one_label
    (self : CleanUpDlg) (name : string) (b : bool) (a : string) :
  In a (get_selected_assets (mkDlg (setChecked name b (checkboxes self)))) <->
  (a = name /\ b = true /\ In name (map fst (checkboxes self))) \/
  (a <> name /\ In a (get_selected_assets self)).
Proof.
  unfold get_selected_assets, setChecked. simpl checkboxes. split.
  - intros Hin. apply in_map_iff in Hin as ([k v] & Hk & Hin).
    simpl in Hk. subst k.
    apply filter_In in Hin as [Hin Hv]. simpl in Hv. subst v.
    apply in_map_iff in Hin as ([k v] & Heq & Hin). simpl in Heq.
    destruct (String.eqb_spec k name) as [->|Hne].
    + injection Heq as Ha Hb. subst a b. left. repeat split; auto.
      apply in_map_iff. exists (name, v). auto.
    + injection Heq as Ha Hv. subst a v. right. split; [exact Hne|].
      apply in_map_iff. exists (k, true). split; [reflexivity|].
      apply filter_In. auto.
  - intros [(-> & -> & Hin) | (Hne & Hin)].
    + apply in_map_iff in Hin as ([k v] & Hk & Hin). simpl in Hk. subst k.
      apply in_map_iff. exists (name, true). split; [reflexivity|].
      apply filter_In. split; [|reflexivity].
      apply in_map_iff. exists (name, v). simpl. rewrite String.eqb_refl. auto.
    + apply in_map_iff in Hin as ([k v] & Hk & Hin). simpl in Hk. subst k.
      apply filter_In in Hin as [Hin Hv]. simpl in Hv. subst v.
      apply in_map_iff. exists (a, true). split; [reflexivity|].
      apply filter_In. split; [|reflexivity].
      apply in_map_iff. exists (a, true). simpl.
      destruct (String.eqb_spec a name); [contradiction | auto].
Qed.

(** * Beyond the claims: what a handler may do *)

(** Every event a computation adds to the trace satisfies [P]. *)
Definition emits (P : Event -> Prop) {A} (m : M A) : Prop :=
  forall st, exists evs, trace (snd (m st)) = trace st ++ evs /\ Forall P evs.

Lemma emits_events P {A} (m : M A) st : emits P m -> Forall P (events_of m st).
Proof.
  intros H. destruct (H st) as (evs & Ht & HP).
  rewrite (events_of_intro m st evs Ht). exact HP.
Qed.

Lemma emits_silent P {A} (m : M A) :
  (forall st, trace (snd (m st)) = trace st) -> emits P m.
Proof.
  intros H st. exists []. rewrite H, app_nil_r. split; [reflexivity | constructor].
Qed.

Lemma emits_ret P {A} (a : A) : emits P (ret a).
Proof. apply emits_silent. reflexivity. Qed.

Lemma emits_attr P {A} chunk (f : Chunk -> A) : emits P (attr chunk f).
Proof. apply emits_silent. reflexivity. Qed.

Lemma emits_log_new P : emits P log_new.
Proof. apply emits_silent. reflexivity. Qed.

Lemma emits_log_append P x : emits P (log_append x).
Proof. apply emits_silent. reflexivity. Qed.

Lemma emits_get_log P : emits P get_log.
Proof. apply emits_silent. reflexivity. Qed.

Lemma emits_emit (P : Event -> Prop) e : P e -> emits P (emit e).
Proof. intros H st. exists [e]. split; [reflexivity | auto]. Qed.

Lemma emits_bind P {A B} (m : M A) (k : A -> M B) :
  emits P m -> (forall a, emits P (k a)) -> emits P (bind m k).
Proof.
  intros Hm Hk st. unfold bind. destruct (Hm st) as (evs & Ht & HP).
  destruct (m st) as [[a|e] st1]; simpl in Ht.
  - destruct (Hk a st1) as (evs2 & Ht2 & HP2).
    exists (evs ++ evs2). rewrite Ht2, Ht, app_assoc.
    split; [reflexivity | apply Forall_app; auto].
  - exists evs. auto.
Qed.

Lemma emits_try P {A} (body : M A) (handler : string -> M A) :
  emits P body -> (forall e, emits P (handler e)) -> emits P (try_except body handler).
Proof.
  intros Hb Hh st. unfold try_except. destruct (Hb st) as (evs & Ht & HP).
  destruct (body st) as [[a|e] st1]; simpl in Ht.
  - exists evs. auto.
  - destruct (Hh e st1) as (evs2 & Ht2 & HP2).
    exists (evs ++ evs2). rewrite Ht2, Ht, app_assoc.
    split; [reflexivity | apply Forall_app; auto].
Qed.

Lemma emits_for_each P {A} (xs : list A) (body : A -> M unit) :
  (forall x, In x xs -> emits P (body x)) -> emits P (for_each xs body).
Proof.
  induction xs as [|x xs IH]; intros Hb; simpl.
  - apply emits_ret.
  - apply emits_bind; [apply Hb; left; reflexivity|].
    intros _. apply IH. intros y Hy. apply Hb. right. exact Hy.
Qed.

Lemma emits_call (P : Event -> Prop) host chunk op :
  (forall c, P (EHost chunk op (fst (host_call host op c)))) ->
  emits P (call host chunk op).
Proof.
  intros H st. rewrite call_run. simpl.
  eexists [_]. rewrite trace_set_chunk. split; [reflexivity|].
  constructor; [apply H | constructor].
Qed.

(** A dispatch adds its entry event, printed lines and calls on its chunk,
    each recorded with what the host answered. *)
Lemma handle_assets_emits (P : Event -> Prop) host chunk a :
  P (EDispatch chunk a) ->
  (forall line, P (EPrint line)) ->
  (forall op c, P (EHost chunk op (fst (host_call host op c)))) ->
  emits P (handle_assets host chunk a).
Proof.
  intros Hd Hp Hh.
  unfold handle_assets, handle_assets_try, handle_assets_body, print.
  repeat match goal with
  | |- emits _ (if true then _ else _) => cbv iota
  | |- emits _ (if false then _ else _) => cbv iota
  | |- emits _ (if ?x =? ?l then _ else _) =>
      destruct (String.eqb_spec x l) as [->|?]
  | |- emits _ (ret _) => apply emits_ret
  | |- emits _ (bind _ _) => apply emits_bind; [|intros ?]
  | |- emits _ (try_except _ _) => apply emits_try; [|intros ?]
  | |- emits _ (attr _ _) => apply emits_attr
  | |- emits _ (emit _) => apply emits_emit; auto
  | |- emits _ (call _ _ _) =>
      apply emits_call; intros ?; apply Hh
  | |- emits _ (for_each _ _) => apply emits_for_each; intros ? _
  | |- emits _ (match ?x with _ => _ end) => destruct x
  end.
Qed.

(** What a handler working on the chunk [r0] with the labels [selected] may
    add to the trace: dispatches of selected labels on [r0], and calls on
    [r0]. *)
Definition handler_events (r0 : chunk_ref) (selected : list string) (e : Event)
  : Prop :=
  match e with
  | EDispatch r a => r = r0 /\ In a selected
  | EHost r _ _ => r = r0
  | _ => True
  end.

Lemma remove_assets_emits host chunk selected (shown : M string) :
  emits (handler_events chunk selected) shown ->
  emits (handler_events chunk selected) (remove_assets host chunk selected shown).
Proof.
  intros Hshown. unfold remove_assets.
  apply emits_for_each. intros a Ha.
  apply emits_bind.
  - apply handle_assets_emits; simpl; eauto.
  - intros success. apply emits_bind; [exact Hshown|].
    intros name. destruct success; apply emits_log_append.
Qed.

Lemma show_log_emits P : (forall es, P (EShowLog es)) -> emits P show_log.
Proof.
  intros H. unfold show_log. apply emits_bind; [apply emits_get_log|].
  intros es. apply emits_emit, H.
Qed.

Lemma confirm_removal_emits P user assets projects :
  (forall t m b, P (EQuestion t m b)) -> emits P (confirm_removal user assets projects).
Proof.
  intros H. unfold confirm_removal. apply emits_bind; [apply emits_emit, H|].
  intros _. apply emits_ret.
Qed.

Lemma remove_from_project_emits host user self :
  emits (handler_events AppDocument (get_selected_assets self))
        (remove_from_project host user self).
Proof.
  unfold remove_from_project.
  apply emits_bind; [apply emits_attr|]. intros l.
  apply emits_bind; [apply emits_log_new|]. intros _.
  apply emits_bind; [apply confirm_removal_emits; simpl; auto|]. intros [|].
  - apply emits_bind; [apply remove_assets_emits, emits_attr|].
    intros _. apply show_log_emits. simpl. auto.
  - apply emits_ret.
Qed.

Lemma clean_file_emits host selected file_path :
  emits (handler_events OpenedDocument selected) (clean_file host selected file_path).
Proof.
  unfold clean_file. apply emits_try.
  - apply emits_bind.
    + intros st. unfold open_document.
      destruct (doc_open host file_path) as [e|c]; eexists [_]; simpl;
        (split; [reflexivity | repeat constructor]).
    + intros _. apply emits_bind; [apply remove_assets_emits, emits_ret|].
      intros _ st. unfold save_document.
      destruct (doc_save host file_path (doc_chunk st)); eexists [_]; simpl;
        (split; [reflexivity | repeat constructor]).
  - intros e. apply emits_log_append.
Qed.

Lemma clean_files_emits host user self ps :
  emits (handler_events OpenedDocument (get_selected_assets self))
        (clean_files host user self ps).
Proof.
  unfold clean_files.
  apply emits_bind; [apply emits_log_new|]. intros _.
  destruct (truthy (get_selected_assets self)); [|apply emits_ret].
  apply emits_bind; [apply confirm_removal_emits; simpl; auto|]. intros [|].
  - apply emits_bind.
    + apply emits_for_each. intros p _. apply clean_file_emits.
    + intros _. apply show_log_emits. simpl. auto.
  - apply emits_ret.
Qed.

Lemma emits_idle P {A} (m : M A) : idle m -> emits P m.
Proof.
  intros [r H]. apply emits_silent. intros st. rewrite H. reflexivity.
Qed.

(** A file handler leaves the open project's chunk alone. *)
Lemma file_handler_frame host user self {A} (m : M A) st :
  idle m \/ (exists ps, forall st0,
               snd (m st0) = snd (clean_files host user self ps st0)) ->
  app_chunk (snd (m st)) = app_chunk st.
Proof.
  intros [Hidle | (ps & H)].
  - rewrite (idle_state m st Hidle). reflexivity.
  - rewrite H. destruct (clean_files_run host user self ps st) as (st' & Hr & Ha & _).
    rewrite Hr. exact Ha.
Qed.

(** * Beyond the claims: a host that never raises *)

(** No call on a chunk raises, every project opens and every save succeeds. *)
Definition never_raises (host : Host) : Prop :=
  (forall op c, fst (host_call host op c) = None) /\
  (forall p, exists c, doc_open host p = inr c) /\
  (forall p c, doc_save host p c = None).

Definition not_raised (e : Event) : Prop :=
  match e with EHost _ _ (Some _) => False | _ => True end.

Lemma not_raised_any (evs : list Event) :
  Forall not_raised evs -> any_raised evs = false.
Proof.
  induction 1 as [|e evs He _ IH]; [reflexivity|].
  simpl. rewrite IH. destruct e as [| ? ? [?|] | | | | |]; simpl in *;
    try reflexivity; contradiction.
Qed.

Lemma handle_assets_calm host chunk a st :
  (forall op c, fst (host_call host op c) = None) ->
  exists st',
    handle_assets host chunk a st = (Ok (known a), st') /\ log st' = log st.
Proof.
  intros Hcalm.
  destruct (handle_assets_run host chunk a st) as (evs & st' & Hr & Ht & Hl & _).
  assert (He : emits not_raised (handle_assets host chunk a)).
  { apply handle_assets_emits; simpl; auto.
    intros op c. rewrite Hcalm. exact I. }
  destruct (He st) as (evs' & Ht' & HP).
  rewrite Hr in Ht'. simpl in Ht'. rewrite Ht in Ht'.
  apply app_inv_head in Ht'. subst evs'. inversion HP as [|? ? _ HP']; subst.
  rewrite (not_raised_any evs HP'), andb_true_r in Hr.
  exists st'. auto.
Qed.

Lemma remove_assets_calm host chunk (assets : list string) (name : string) :
  (forall op c, fst (host_call host op c) = None) ->
  (forall a, In a assets -> known a = true) ->
  forall st,
  exists st',
    remove_assets host chunk assets (ret name) st = (Ok tt, st') /\
    log st' = log st ++ map (fun a => success_entry a name) assets.
Proof.
  intros Hcalm. induction assets as [|a assets IH]; intros Hknown st.
  - exists st. simpl. rewrite app_nil_r. auto.
  - destruct (handle_assets_calm host chunk a st Hcalm) as (st1 & Hr & Hl).
    rewrite (Hknown a (or_introl eq_refl)) in Hr.
    rewrite (remove_assets_cons host chunk a assets (ret name) st true st1 name
               Hr eq_refl).
    cbv iota.
    destruct (IH (fun x Hx => Hknown x (or_intror Hx))
                 (add_log (success_entry a name) st1)) as (st2 & Hr2 & Hl2).
    exists st2. split; [exact Hr2|].
    rewrite Hl2. simpl. rewrite Hl, <- app_assoc. reflexivity.
Qed.

Lemma clean_file_calm host (assets : list string) (p : string) st :
  never_raises host ->
  (forall a, In a assets -> known a = true) ->
  exists st',
    clean_file host assets p st = (Ok tt, st') /\
    log st' = log st ++ map (fun a => success_entry a p) assets.
Proof.
  intros (Hcall & Hopen & Hsave) Hknown.
  unfold clean_file, try_except, bind at 1, open_document.
  destruct (Hopen p) as (c & ->). unfold bind.
  destruct (remove_assets_calm host OpenedDocument assets p Hcall Hknown
              (add_event (EOpen p None) (set_chunk OpenedDocument c st)))
    as (st1 & Hr & Hl).
  rewrite Hr. unfold save_document. rewrite Hsave.
  eexists. split; [reflexivity|]. simpl. exact Hl.
Qed.

Lemma clean_loop_calm host (assets ps : list string) :
  never_raises host ->
  (forall a, In a assets -> known a = true) ->
  forall st,
  exists st',
    for_each ps (clean_file host assets) st = (Ok tt, st') /\
    log st'
      = log st ++ flat_map (fun p => map (fun a => success_entry a p) assets) ps.
Proof.
  intros Hcalm Hknown. induction ps as [|p ps IH]; intros st.
  - exists st. simpl. rewrite app_nil_r. auto.
  - simpl for_each. unfold bind.
    destruct (clean_file_calm host assets p st Hcalm Hknown) as (st1 & Hr & Hl).
    rewrite Hr. destruct (IH st1) as (st2 & Hr2 & Hl2).
    exists st2. split; [exact Hr2|].
    rewrite Hl2, Hl, <- app_assoc. reflexivity.
Qed.

(** A confirmed batch shows the log it has built. *)
Lemma clean_files_shows_log host user self ps st :
  get_selected_assets self <> [] ->
  confirmed user (get_selected_assets self) ps = true ->
  shown_log (events_of (clean_files host user self ps) st)
    = log (snd (clean_files host user self ps st)).
Proof.
  intros Hne Hyes.
  destruct (clean_files_run host user self ps st) as (st' & Hr & _ & Ht).
  rewrite Hyes in Ht.
  destruct (get_selected_assets self) as [|a assets]; [congruence|].
  destruct Ht as (evs & es & Ht & Hl & Hb).
  rewrite (events_of_intro (clean_files host user self ps) st _
             ltac:(rewrite Hr; exact Ht)).
  destruct (batch_blocks_quiet host _ _ _ _ Hb) as [Hq _].
  rewrite shown_log_skeleton in Hq.
  rewrite Hr. simpl. rewrite shown_log_app, Hq, Hl. simpl. apply app_nil_r.
Qed.

Lemma clean_files_calm host user self ps st :
  never_raises host ->
  (forall a, In a (get_selected_assets self) -> known a = true) ->
  get_selected_assets self <> [] ->
  confirmed user (get_selected_assets self) ps = true ->
  shown_log (events_of (clean_files host user self ps) st)
    = flat_map (fun p => map (fun a => success_entry a p) (get_selected_assets self))
               ps.
Proof.
  intros Hcalm Hknown Hne Hyes.
  rewrite (clean_files_shows_log host user self ps st Hne Hyes).
  unfold clean_files, confirmed in *.
  destruct (get_selected_assets self) as [|a assets] eqn:Ea; [congruence|].
  simpl truthy. cbv iota. unfold bind at 1, log_new.
  unfold bind at 1, confirm_removal, bind at 1, emit, ret.
  rewrite Hyes. unfold bind at 1.
  destruct (clean_loop_calm host (a :: assets) ps Hcalm Hknown
              (add_event (EQuestion confirm_title
                            (confirm_message (a :: assets) ps) true)
                         (clear_log st)))
    as (st1 & Hr & Hl).
  rewrite Hr. unfold show_log, bind, get_log, emit. simpl. exact Hl.
Qed.

Lemma standard_dialog_known (self : CleanUpDlg) :
  map fst (checkboxes self) = map fst new_checkboxes ->
  forall a, In a (get_selected_assets self) -> known a = true.
Proof.
  intros Hkeys a Hin. apply selected_among_keys in Hin. rewrite Hkeys in Hin.
  simpl in Hin. repeat (destruct Hin as [<-|Hin]; [reflexivity|]). contradiction.
Qed.

(** * Beyond the claims: when the log is shown *)

(** How many times [show_log] opened its window. *)
Definition log_windows (evs : list Event) : nat :=
  List.length
    (filter (fun e => match e with EShowLog _ => true | _ => false end) evs).

Lemma log_windows_app (xs ys : list Event) :
  log_windows (xs ++ ys) = log_windows xs + log_windows ys.
Proof. unfold log_windows. rewrite filter_app, length_app. reflexivity. Qed.

Lemma log_windows_skeleton (evs : list Event) :
  log_windows (skeleton evs) = log_windows evs.
Proof.
  unfold log_windows. induction evs as [|e evs IH]; [reflexivity|].
  destruct e; simpl; rewrite ?IH; reflexivity.
Qed.

Lemma log_windows_map_dispatch (r : chunk_ref) (assets : list string) :
  log_windows (map (EDispatch r) assets) = 0.
Proof. induction assets as [|a l IH]; simpl; auto. Qed.

Lemma batch_blocks_no_window host assets ps evs es :
  batch_blocks host assets ps evs es -> log_windows evs = 0.
Proof.
  induction 1 as [|p ps evs es evs' es' Hb _ IH]; [reflexivity|].
  rewrite log_windows_app, IH, Nat.add_0_r.
  destruct Hb; [reflexivity | |];
    change (EOpen p None :: ?l) with ([EOpen p None] ++ l);
    rewrite !log_windows_app, log_windows_map_dispatch; reflexivity.
Qed.

(** Either the user said Yes, and then the last thing the handler did was to
    show, once, the log it ended with; or no confirmation was asked or the
    answer was No, and then no log was shown. *)
Definition shows_log_last {A} (m : M A) (st : State) : Prop :=
  (questions (events_of m st) = [true] /\
   exists evs,
     events_of m st = evs ++ [EShowLog (log (snd (m st)))] /\
     log_windows evs = 0) \/
  ((questions (events_of m st) = [] \/ questions (events_of m st) = [false]) /\
   log_windows (events_of m st) = 0).

Lemma shows_log_last_idle {A} (m : M A) st : idle m -> shows_log_last m st.
Proof.
  intros H. right. rewrite (idle_events m st H). auto.
Qed.

Lemma clean_files_shows_log_last host user self ps st :
  shows_log_last (clean_files host user self ps) st.
Proof.
  destruct (clean_files_run host user self ps st) as (st' & Hr & _ & Ht).
  unfold shows_log_last. rewrite Hr. simpl snd.
  destruct (get_selected_assets self) as [|a assets].
  - right.
    rewrite (events_of_intro (clean_files host user self ps) st []
               ltac:(rewrite Hr; simpl; rewrite Ht, app_nil_r; reflexivity)).
    auto.
  - destruct (confirmed user (a :: assets) ps).
    + destruct Ht as (evs & es & Ht & Hl & Hb). left.
      rewrite (events_of_intro (clean_files host user self ps) st _
                 ltac:(rewrite Hr; exact Ht)).
      destruct (batch_blocks_quiet host _ _ _ _ Hb) as [_ Hq].
      rewrite questions_skeleton in Hq.
      pose proof (batch_blocks_no_window host _ _ _ _ Hb) as Hw.
      rewrite log_windows_skeleton in Hw.
      split.
      * simpl. rewrite questions_app, Hq. reflexivity.
      * exists (EQuestion confirm_title (confirm_message (a :: assets) ps) true
                :: evs).
        rewrite Hl. split; [reflexivity|]. exact Hw.
    + right.
      rewrite (events_of_intro (clean_files host user self ps) st _
                 ltac:(rewrite Hr; exact Ht)).
      auto.
Qed.

Lemma remove_from_project_eq host user self st :
  remove_from_project host user self st
    = let assets := get_selected_assets self in
      let reply := confirmed user assets [label (app_chunk st)] in
      let st0 := add_event (EQuestion confirm_title
                              (confirm_message assets [label (app_chunk st)])
                              reply)
                           (clear_log st) in
      if reply then
        match remove_assets host AppDocument assets (attr AppDocument label) st0 with
        | (Ok _, st1) => (Ok tt, add_event (EShowLog (log st1)) st1)
        | (Raise e, st1) => (Raise e, st1)
        end
      else (Ok tt, st0).
Proof.
  unfold remove_from_project, confirmed, confirm_removal, show_log.
  unfold bind, attr, log_new, emit, ret, get_log.
  cbv beta iota zeta delta [get_chunk].
  destruct (question_reply user confirm_title
              (confirm_message (get_selected_assets self) [label (app_chunk st)]));
    [|reflexivity].
  match goal with
  | |- context [remove_assets ?h ?c ?a ?s ?st0] =>
      destruct (remove_assets h c a s st0) as [[[]|e] st1]
  end; reflexivity.
Qed.

Lemma remove_from_project_shows_log_last host user self st :
  shows_log_last (remove_from_project host user self) st.
Proof.
  unfold shows_log_last.
  pose proof (remove_from_project_eq host user self st) as Heq. cbv zeta in Heq.
  destruct (confirmed user (get_selected_assets self) [label (app_chunk st)]).
  - destruct (remove_assets_run host AppDocument (get_selected_assets self)
                (attr AppDocument label) (fun _ => True) (shown_label AppDocument)
                (add_event (EQuestion confirm_title
                              (confirm_message (get_selected_assets self)
                                               [label (app_chunk st)]) true)
                           (clear_log st)))
      as (evs & es & st1 & Hr & Ht & Hs & _).
    rewrite Hr in Heq. simpl in Ht. left.
    assert (Hev : events_of (remove_from_project host user self) st
                  = (EQuestion confirm_title
                       (confirm_message (get_selected_assets self)
                                        [label (app_chunk st)]) true :: evs)
                    ++ [EShowLog (log st1)]).
    { apply events_of_intro. rewrite Heq. simpl. rewrite Ht, <- !app_assoc.
      reflexivity. }
    rewrite Hev, Heq. simpl snd. simpl log.
    assert (Hq : questions evs = [])
      by (rewrite <- questions_skeleton, Hs; clear;
          induction (get_selected_assets self); simpl; auto).
    assert (Hw : log_windows evs = 0)
      by (rewrite <- log_windows_skeleton, Hs; apply log_windows_map_dispatch).
    split.
    + rewrite questions_app. simpl. rewrite Hq. reflexivity.
    + eexists. split; [reflexivity|]. exact Hw.
  - right.
    rewrite (events_of_intro (remove_from_project host user self) st _
               ltac:(rewrite Heq; reflexivity)).
    auto.
Qed.

(** X10.  Each handler asks for confirmation at most once.  When the answer
    is Yes the handler ends by showing the log, once, after everything else,
    and the log shown is the complete log of the run, also when every target
    failed; when the answer is No, or no confirmation was asked, no log
    window opens. *)
Theorem log_is_shown_last_and_once
    (host : Host) (user : User) (walk_tree : string -> dir)
    (self : CleanUpDlg) (st : State) :
  shows_log_last (remove_from_project host user self) st /\
  shows_log_last (select_project host user self) st /\
  shows_log_last (remove_from_subfolders host user walk_tree self) st.
Proof.
  split; [apply remove_from_project_shows_log_last|]. split.
  - destruct (select_project_cases host user self) as [[_ Hidle] | (ps & _ & ->)];
      [apply shows_log_last_idle, Hidle | apply clean_files_shows_log_last].
  - destruct (remove_from_subfolders_cases host user walk_tree self)
      as [Hidle | (fps & cbs & ->)]; [apply shows_log_last_idle, Hidle|].
    destruct (process_selected_projects_cases host user self fps cbs)
      as [[_ Hidle] | (ps & _ & _ & ->)];
      [apply shows_log_last_idle, Hidle | apply clean_files_shows_log_last].
Qed.

(** * Beyond the claims: what the dialogs say *)

(** [x] occurs in [s] as it is. *)
Definition occurs (x s : string) : Prop :=
  exists pre post, s = (pre ++ x ++ post)%string.

Lemma string_app_nil_r (s : string) : (s ++ "")%string = s.
Proof. induction s as [|c s IH]; simpl; [|rewrite IH]; reflexivity. Qed.

Lemma occurs_refl (x : string) : occurs x x.
Proof. exists ""%string, ""%string. simpl. rewrite string_app_nil_r. reflexivity. Qed.

Lemma occurs_app_r (x a s : string) : occurs x s -> occurs x (a ++ s)%string.
Proof.
  intros (pre & post & ->). exists (a ++ pre)%string, post.
  rewrite string_app_assoc. reflexivity.
Qed.

Lemma occurs_app_l (x s b : string) : occurs x s -> occurs x (s ++ b)%string.
Proof.
  intros (pre & post & ->). exists pre, (post ++ b)%string.
  rewrite !string_app_assoc. reflexivity.
Qed.

Lemma join_cons (sep x y : string) (l : list string) :
  join sep (x :: y :: l) = (x ++ sep ++ join sep (y :: l))%string.
Proof. reflexivity. Qed.

Lemma occurs_join (sep : string) (xs : list string) (x : string) :
  In x xs -> occurs x (join sep xs).
Proof.
  induction xs as [|h t IH]; intros Hin; [contradiction|].
  destruct t as [|y t].
  - destruct Hin as [->|[]]. apply occurs_refl.
  - rewrite join_cons. destruct Hin as [->|Hin].
    + apply occurs_app_l, occurs_refl.
    + apply occurs_app_r, occurs_app_r, IH, Hin.
Qed.

Lemma confirm_message_names (assets projects : list string) :
  (forall a, In a assets -> occurs a (confirm_message assets projects)) /\
  (forall p, In p projects -> occurs p (confirm_message assets projects)).
Proof.
  unfold confirm_message. split.
  - intros a Ha.
    apply occurs_app_r, occurs_app_r, occurs_app_r, occurs_app_l.
    apply occurs_join, Ha.
  - intros p Hp. do 9 apply occurs_app_r. apply occurs_join, Hp.
Qed.

(** The text of the confirmation dialogs shown. *)
Definition asked (evs : list Event) : list string :=
  flat_map (fun e => match e with EQuestion _ m _ => [m] | _ => [] end) evs.

(** Every project opened and every label dispatched is written out in a
    confirmation dialog of the same run. *)
Definition named_in_confirmation {A} (m : M A) (st : State) : Prop :=
  (forall p, In p (opens (events_of m st)) ->
             exists message, In message (asked (events_of m st)) /\ occurs p message) /\
  (forall a, In a (dispatches (events_of m st)) ->
             exists message, In message (asked (events_of m st)) /\ occurs a message).

Lemma named_in_confirmation_idle {A} (m : M A) st :
  idle m -> named_in_confirmation m st.
Proof.
  intros H. unfold named_in_confirmation. rewrite (idle_events m st H).
  split; intros x [].
Qed.

Lemma clean_files_named host user self ps st :
  named_in_confirmation (clean_files host user self ps) st.
Proof.
  destruct (clean_files_run host user self ps st) as (st' & Hr & _ & Ht).
  unfold named_in_confirmation.
  destruct (get_selected_assets self) as [|a assets] eqn:Ea.
  - rewrite (events_of_intro (clean_files host user self ps) st []
               ltac:(rewrite Hr; simpl; rewrite Ht, app_nil_r; reflexivity)).
    split; intros x [].
  - destruct (confirmed user (a :: assets) ps).
    + destruct Ht as (evs & es & Ht & _ & Hb).
      rewrite (events_of_intro (clean_files host user self ps) st _
                 ltac:(rewrite Hr; exact Ht)).
      destruct (confirm_message_names (a :: assets) ps) as [Ha Hp].
      assert (Hopens : opens evs = ps).
      { rewrite opens_steps, <- steps_skeleton,
                (batch_blocks_steps host _ _ _ _ Hb).
        apply batch_steps_opens. }
      assert (Hdis : dispatches evs
                     = flat_map (fun p => if opened host p then a :: assets else [])
                                ps)
        by (rewrite <- dispatches_skeleton; eapply batch_blocks_dispatches; eauto).
      simpl. rewrite opens_app, dispatches_app. simpl. rewrite !app_nil_r.
      rewrite Hopens, Hdis. split.
      * intros p Hin. eexists. split; [left; reflexivity | apply Hp, Hin].
      * intros x Hin. apply in_flat_map in Hin as (p & _ & Hin).
        destruct (opened host p); [|contradiction].
        eexists. split; [left; reflexivity | apply Ha, Hin].
    + rewrite (events_of_intro (clean_files host user self ps) st _
                 ltac:(rewrite Hr; exact Ht)).
      split; intros x [].
Qed.

(** X11.  The confirmation text writes out every selected asset label and
    every target, and in each handler every project that is opened and every
    label that is dispatched is written out in the confirmation dialog the
    user answered in that run. *)
Theorem confirmation_names_what_is_processed
    (host : Host) (user : User) (walk_tree : string -> dir)
    (self : CleanUpDlg) (st : State) :
  (forall assets projects,
     (forall a, In a assets -> occurs a (confirm_message assets projects)) /\
     (forall p, In p projects -> occurs p (confirm_message assets projects))) /\
  named_in_confirmation (remove_from_project host user self) st /\
  named_in_confirmation (select_project host user self) st /\
  named_in_confirmation (remove_from_subfolders host user walk_tree self) st.
Proof.
  split; [exact confirm_message_names|]. split; [|split].
  - unfold named_in_confirmation.
    destruct (remove_from_project_run host user self st) as (st' & Hr & _ & Ht).
    destruct (confirmed user (get_selected_assets self) [label (app_chunk st)]).
    + destruct Ht as (evs & es & Ht & Hs & _).
      rewrite (events_of_intro (remove_from_project host user self) st _
                 ltac:(rewrite Hr; exact Ht)).
      simpl. rewrite opens_app, dispatches_app. simpl. rewrite !app_nil_r.
      rewrite <- opens_skeleton, <- dispatches_skeleton, Hs.
      rewrite opens_map_dispatch, dispatches_map. split; [intros p []|].
      intros a Ha. eexists. split; [left; reflexivity|].
      apply (proj1 (confirm_message_names _ _)), Ha.
    + destruct Ht as [Ht _].
      rewrite (events_of_intro (remove_from_project host user self) st _
                 ltac:(rewrite Hr; exact Ht)).
      split; intros x [].
  - destruct (select_project_cases host user self) as [[_ Hidle] | (ps & _ & ->)];
      [apply named_in_confirmation_idle, Hidle | apply clean_files_named].
  - destruct (remove_from_subfolders_cases host user walk_tree self)
      as [Hidle | (fps & cbs & ->)]; [apply named_in_confirmation_idle, Hidle|].
    destruct (process_selected_projects_cases host user self fps cbs)
      as [[_ Hidle] | (ps & _ & _ & ->)];
      [apply named_in_confirmation_idle, Hidle | apply clean_files_named].
Qed.

(** Lines 256-258: the text [show_log] puts in its window. *)
Definition quote_mark : string := String (ascii_of_nat 34) EmptyString.

Definition log_span (x : LogEntry) : string :=
  ("<span style=" ++ quote_mark ++ "color:" ++ snd x ++ ";" ++ quote_mark ++ ">"
   ++ fst x ++ "</span>")%string.

Definition log_html (entries : list LogEntry) : string :=
  join "<br>" (map log_span entries).

(** X12.  The log window's text is empty for an empty log and otherwise one
    span per entry, in order, with a line break between consecutive spans
    and none after the last; each span carries the entry's colour and its
    message as it is, without HTML escaping. *)
Theorem log_html_is_spans_joined (x : LogEntry) (entries : list LogEntry) :
  log_html [] = ""%string /\
  log_html [x] = log_span x /\
  (entries <> [] ->
   log_html (x :: entries) = (log_span x ++ "<br>" ++ log_html entries)%string) /\
  (In x entries ->
   occurs (log_span x) (log_html entries) /\
   occurs (fst x) (log_html entries) /\
   occurs (snd x) (log_html entries)).
Proof.
  split; [reflexivity|]. split; [reflexivity|]. split.
  - intros Hne. destruct entries as [|y l]; [congruence|]. reflexivity.
  - intros Hin.
    assert (Hspan : occurs (log_span x) (log_html entries))
      by (apply occurs_join, in_map, Hin).
    split; [exact Hspan|].
    destruct Hspan as (pre & post & ->). unfold log_span. split.
    + apply occurs_app_r, occurs_app_l.
      do 7 apply occurs_app_r. apply occurs_app_l, occurs_refl.
    + apply occurs_app_r, occurs_app_l.
      do 3 apply occurs_app_r. apply occurs_app_l, occurs_refl.
Qed.

Lemma log_html_is_spans_joined_witness :
  [failure_entry "Shapes" "P1"] <> [] /\
  log_html [success_entry "DEMs" "P1"; failure_entry "Shapes" "P1"]
    = (log_span (success_entry "DEMs" "P1") ++ "<br>"
       ++ log_span (failure_entry "Shapes" "P1"))%string.
Proof.
  assert (Hne : [failure_entry "Shapes" "P1"] <> []) by discriminate.
  split; [exact Hne|].
  exact (proj1 (proj2 (proj2 (log_html_is_spans_joined
                                (success_entry "DEMs" "P1")
                                [failure_entry "Shapes" "P1"]))) Hne).
Defined.

(** * Beyond the claims: the anatomy of a dispatch *)

Definition is_call_on (chunk : chunk_ref) (e : Event) : Prop :=
  exists op raised, e = EHost chunk op raised.

(** A computation that adds only calls on [chunk] to the trace and that,
    when it raises, raises the exception of the last call it made. *)
Definition calls_only (chunk : chunk_ref) {A} (m : M A) : Prop :=
  forall st, exists evs,
    trace (snd (m st)) = trace st ++ evs /\
    Forall (is_call_on chunk) evs /\
    match fst (m st) with
    | Ok _ => True
    | Raise e => exists evs' op, evs = evs' ++ [EHost chunk op (Some e)]
    end.

Lemma calls_only_ret chunk {A} (a : A) : calls_only chunk (ret a).
Proof. intros st. exists []. simpl. rewrite app_nil_r. auto. Qed.

Lemma calls_only_attr chunk r {A} (f : Chunk -> A) : calls_only chunk (attr r f).
Proof. intros st. exists []. simpl. rewrite app_nil_r. auto. Qed.

Lemma calls_only_bind chunk {A B} (m : M A) (k : A -> M B) :
  calls_only chunk m -> (forall a, calls_only chunk (k a)) ->
  calls_only chunk (bind m k).
Proof.
  intros Hm Hk st. unfold bind. destruct (Hm st) as (evs & Ht & HP & Hr).
  destruct (m st) as [[a|e] st1]; simpl in Ht, Hr.
  - destruct (Hk a st1) as (evs2 & Ht2 & HP2 & Hr2).
    exists (evs ++ evs2). rewrite Ht2, Ht, app_assoc.
    split; [reflexivity|]. split; [apply Forall_app; auto|].
    destruct (fst (k a st1)); [exact I|].
    destruct Hr2 as (evs' & op & ->). exists (evs ++ evs'), op.
    apply app_assoc.
  - exists evs. simpl. auto.
Qed.

Lemma calls_only_call host chunk op : calls_only chunk (call host chunk op).
Proof.
  intros st. rewrite call_run. simpl. rewrite trace_set_chunk.
  eexists [_]. split; [reflexivity|]. split.
  - constructor; [|constructor]. eexists _, _. reflexivity.
  - destruct (fst (host_call host op (get_chunk chunk st))); [|exact I].
    exists [], op. reflexivity.
Qed.

Lemma calls_only_for_each chunk {A} (xs : list A) (body : A -> M unit) :
  (forall x, calls_only chunk (body x)) -> calls_only chunk (for_each xs body).
Proof.
  intros Hb. induction xs as [|x xs IH]; simpl.
  - apply calls_only_ret.
  - apply calls_only_bind; [apply Hb | intros _; exact IH].
Qed.

(** For a known label the chain of tests only calls the chunk. *)
Lemma body_calls_only host chunk a :
  known a = true -> calls_only chunk (handle_assets_body host chunk a).
Proof.
  intros Hk. apply known_valid in Hk. unfold handle_assets_body.
  repeat match goal with
  | |- calls_only _ (if true then _ else _) => cbv iota
  | |- calls_only _ (if false then _ else _) => cbv iota
  | |- calls_only _ (if ?x =? ?l then _ else _) =>
      destruct (String.eqb_spec x l) as [->|?]
  | |- calls_only _ (ret _) => apply calls_only_ret
  | |- calls_only _ (bind (print _) _) => exfalso
  | |- calls_only _ (bind _ _) => apply calls_only_bind; [|intros ?]
  | |- calls_only _ (attr _ _) => apply calls_only_attr
  | |- calls_only _ (call _ _ _) => apply calls_only_call
  | |- calls_only _ (for_each _ _) =>
      apply calls_only_for_each; intros ?
  | |- calls_only _ (match ?x with _ => _ end) => destruct x
  end.
  simpl in Hk. repeat (destruct Hk as [Hk|Hk]; [congruence|]). exact Hk.
Qed.

(** [handle_assets] in terms of what the chain of tests returned. *)
Lemma handle_assets_eq host chunk a st :
  handle_assets host chunk a st
    = match handle_assets_body host chunk a (add_event (EDispatch chunk a) st) with
      | (Ok (Some b), st1) => (Ok b, st1)
      | (Ok None, st1) =>
          (Ok true,
           add_event (EPrint (a ++ " removed from "
                              ++ label (get_chunk chunk st1))%string) st1)
      | (Raise e, st1) =>
          (Ok false,
           add_event (EPrint ("Failed to remove " ++ a ++ " from "
                              ++ label (get_chunk chunk st1) ++ ": " ++ e)%string)
                     st1)
      end.
Proof.
  unfold handle_assets, handle_assets_try, try_except, bind, emit, attr, print,
    emit, ret.
  destruct (handle_assets_body host chunk a (add_event (EDispatch chunk a) st))
    as [[[b|]|e] st1]; reflexivity.
Qed.

(** A dispatch on a chunk object: its calls on the chunk, then exactly one
    printed line, which tells the three outcomes apart. *)
Lemma handle_assets_shape
    (host : Host) (chunk : chunk_ref) (a : string) (st : State) :
  exists calls line,
    events_of (handle_assets host chunk a) st
      = EDispatch chunk a :: calls ++ [EPrint line] /\
    Forall (is_call_on chunk) calls /\
    ((result_of (handle_assets host chunk a) st = Ok true /\
      line = (a ++ " removed from "
              ++ label (get_chunk chunk (snd (handle_assets host chunk a st))))%string)
     \/
     (result_of (handle_assets host chunk a) st = Ok false /\
      known a = false /\ calls = [] /\
      line = ("Unknown asset type: " ++ a)%string)
     \/
     (result_of (handle_assets host chunk a) st = Ok false /\
      exists e earlier op,
        calls = earlier ++ [EHost chunk op (Some e)] /\
        line = ("Failed to remove " ++ a ++ " from "
                ++ label (get_chunk chunk (snd (handle_assets host chunk a st)))
                ++ ": " ++ e)%string)).
Proof.
  destruct (known a) eqn:Hk.
  - destruct (body_calls_only host chunk a Hk (add_event (EDispatch chunk a) st))
      as (evs & Ht & HP & Hr).
    destruct (body_inner host chunk a (add_event (EDispatch chunk a) st))
      as (_ & _ & _ & _ & _ & _ & HQ).
    pose proof (handle_assets_eq host chunk a st) as Heq.
    destruct (handle_assets_body host chunk a (add_event (EDispatch chunk a) st))
      as [[[b|]|e] st1]; simpl in Ht, Hr, HQ.
    + destruct HQ as [_ HQ]. congruence.
    + exists evs, (a ++ " removed from " ++ label (get_chunk chunk st1))%string.
      split; [|split; [exact HP|]].
      * apply events_of_intro. rewrite Heq. simpl. rewrite Ht, <- !app_assoc.
        reflexivity.
      * left. unfold result_of. rewrite Heq. simpl.
        rewrite get_chunk_add_event. auto.
    + exists evs, ("Failed to remove " ++ a ++ " from "
                   ++ label (get_chunk chunk st1) ++ ": " ++ e)%string.
      split; [|split; [exact HP|]].
      * apply events_of_intro. rewrite Heq. simpl. rewrite Ht, <- !app_assoc.
        reflexivity.
      * right. right. unfold result_of. rewrite Heq. simpl.
        rewrite get_chunk_add_event. split; [reflexivity|].
        destruct Hr as (evs' & op & ->). eauto.
  - exists [], ("Unknown asset type: " ++ a)%string.
    pose proof (handle_assets_unknown host chunk a st Hk) as Heq.
    split; [|split; [constructor|]].
    + apply events_of_intro. rewrite Heq. simpl. rewrite <- app_assoc. reflexivity.
    + right. left. unfold result_of. rewrite Heq. auto.
Qed.

(** * Beyond the claims: the bounds of the selection *)

Lemma selected_files_error (file_paths : list string) (checkboxes : list bool) :
  forall s,
    selected_files_from s file_paths checkboxes = None <->
    exists i, nth_error checkboxes i = Some true /\ List.length file_paths <= s + i.
Proof.
  induction checkboxes as [|cb rest IH]; intros s; simpl.
  - split; [discriminate|]. intros (i & Hi & _). destruct i; discriminate.
  - destruct cb.
    + destruct (nth_error file_paths s) as [p|] eqn:Hp.
      * assert (Hs : s < List.length file_paths)
          by (apply nth_error_Some; congruence).
        destruct (selected_files_from (S s) file_paths rest) as [ps|] eqn:Hrec.
        -- split; [discriminate|]. intros ([|i] & Hi & Hle); [lia|].
           simpl in Hi.
           assert (Hnone : selected_files_from (S s) file_paths rest = None)
             by (apply IH; exists i; split; [exact Hi | lia]).
           congruence.
        -- split; [intros _|reflexivity].
           destruct (proj1 (IH (S s)) Hrec) as (i & Hi & Hle).
           exists (S i). split; [exact Hi | lia].
      * split; [intros _|reflexivity].
        exists 0. split; [reflexivity|].
        apply nth_error_None in Hp. lia.
    + rewrite IH. split.
      * intros (i & Hi & Hle). exists (S i). split; [exact Hi | lia].
      * intros ([|i] & Hi & Hle); [discriminate|].
        exists i. split; [exact Hi | lia].
Qed.

Lemma skipn_tail {A} (l : list A) : forall s, skipn (S s) l = tl (skipn s l).
Proof.
  intros s. revert l.
  induction s as [|s IH]; intros [|x l]; simpl; auto.
  apply (IH l).
Qed.

Lemma skipn_nth {A} (l : list A) :
  forall s x, nth_error l s = Some x -> skipn s l = x :: skipn (S s) l.
Proof.
  induction l as [|y l IH]; intros [|s] x H; simpl in *; try discriminate.
  - congruence.
  - apply IH, H.
Qed.

Lemma checked_rows_unchecked (rows : list string) (cbs : list bool) :
  checked_rows rows (false :: cbs) = checked_rows (tl rows) cbs.
Proof. destruct rows as [|x rows]; [destruct cbs|]; reflexivity. Qed.

(** When line 223 does not raise it returns the checked rows. *)
Lemma selected_files_value (file_paths : list string) (checkboxes : list bool) :
  forall s selected,
    selected_files_from s file_paths checkboxes = Some selected ->
    selected = checked_rows (skipn s file_paths) checkboxes.
Proof.
  induction checkboxes as [|cb rest IH]; intros s selected H; simpl in H.
  - injection H as <-. unfold checked_rows.
    destruct (skipn s file_paths); reflexivity.
  - destruct cb.
    + destruct (nth_error file_paths s) as [p|] eqn:Hp; [|discriminate].
      destruct (selected_files_from (S s) file_paths rest) as [ps|] eqn:Hrec;
        [|discriminate].
      injection H as <-. rewrite (skipn_nth _ _ _ Hp), (IH _ _ Hrec). reflexivity.
    + rewrite (IH _ _ H), skipn_tail, checked_rows_unchecked. reflexivity.
Qed.

(** X14.  The list comprehension of line 223 raises IndexError exactly when
    some checked box has an index at or beyond the number of paths; then
    [process_selected_projects] raises "list index out of range" before
    anything else happens.  In every other case it returns the paths of the
    checked boxes. *)
Theorem selection_index_error
    (host : Host) (user : User) (self : CleanUpDlg) (st : State)
    (file_paths : list string) (checkboxes : list bool) :
  (selected_files_from 0 file_paths checkboxes = None <->
   exists i, nth_error checkboxes i = Some true /\ List.length file_paths <= i) /\
  (selected_files_from 0 file_paths checkboxes = None ->
   process_selected_projects host user self file_paths checkboxes st
     = (Raise "list index out of range", st)) /\
  (selected_files_from 0 file_paths checkboxes <> None ->
   selected_files_from 0 file_paths checkboxes
     = Some (checked_rows file_paths checkboxes)).
Proof.
  split; [apply (selected_files_error file_paths checkboxes 0)|]. split.
  - intros Hnone. unfold process_selected_projects. rewrite Hnone. reflexivity.
  - intros Hsome.
    destruct (selected_files_from 0 file_paths checkboxes) as [sel|] eqn:Hsel;
      [|congruence].
    rewrite (selected_files_value _ _ _ _ Hsel). reflexivity.
Qed.

Lemma selection_index_error_witness :
  selected_files_from 0 ["a.psx"] [false; true] = None /\
  process_selected_projects quiet_host yes_user new_dialog ["a.psx"] [false; true]
    (start sample_chunk)
    = (Raise "list index out of range", start sample_chunk).
Proof.
  split; [reflexivity|].
  exact (proj1 (proj2 (selection_index_error quiet_host yes_user new_dialog
                         (start sample_chunk) ["a.psx"] [false; true])) eq_refl).
Defined.

(** * Projects without a chunk *)

(** ** A chunk object *)

(** On a chunk object the general definitions are the ones of [Script]. *)
Lemma handle_assets_any_object host r a :
  handle_assets_any host (Object r) a = handle_assets host r a.
Proof. reflexivity. Qed.

Lemma remove_assets_any_object host r assets shown :
  remove_assets_any host (Object r) assets shown
    = remove_assets host r assets shown.
Proof. reflexivity. Qed.

Lemma remove_from_project_any_object host user docs self :
  app_no_chunk docs = false ->
  remove_from_project_any host user docs self = remove_from_project host user self.
Proof. intros H. unfold remove_from_project_any. rewrite H. reflexivity. Qed.

(** A target that opens has no chunk. *)
Definition chunkless (docs : Documents) (host : Host) (p : string) : bool :=
  opened host p && no_chunk docs p.

(** A target that opens has a chunk. *)
Definition with_chunk (docs : Documents) (host : Host) (p : string) : bool :=
  opened host p && negb (no_chunk docs p).

Lemma clean_file_any_object host docs assets p st :
  chunkless docs host p = false ->
  clean_file_any host docs assets p st = clean_file host assets p st.
Proof.
  unfold chunkless, opened, clean_file_any, clean_file, try_except, bind,
    open_document_any, open_document.
  destruct (doc_open host p) as [e|c]; simpl; intros H; [reflexivity|].
  rewrite H. reflexivity.
Qed.

Lemma for_each_ext {A} (xs : list A) (f g : A -> M unit) :
  (forall x st, In x xs -> f x st = g x st) ->
  forall st, for_each xs f st = for_each xs g st.
Proof.
  induction xs as [|x xs IH]; intros H st; [reflexivity|].
  simpl. unfold bind. rewrite (H x st (or_introl eq_refl)).
  destruct (g x st) as [[[]|e] st1]; [|reflexivity].
  apply IH. intros y st0 Hy. apply H. right. exact Hy.
Qed.

Lemma clean_files_any_object host user docs self ps st :
  (forall p, In p ps -> chunkless docs host p = false) ->
  clean_files_any host user docs self ps st = clean_files host user self ps st.
Proof.
  intros H. unfold clean_files_any, clean_files. cbv zeta.
  destruct (truthy (get_selected_assets self)); [|reflexivity].
  unfold bind, log_new, confirm_removal, emit, ret.
  destruct (question_reply user confirm_title
              (confirm_message (get_selected_assets self) ps)); [|reflexivity].
  unfold bind. cbv beta iota.
  rewrite (for_each_ext ps (clean_file_any host docs (get_selected_assets self))
             (clean_file host (get_selected_assets self))); [reflexivity|].
  intros p st2 Hp. apply clean_file_any_object, H, Hp.
Qed.

(** ** [None] *)

(** For a label it knows, the chain of tests starts from an attribute of
    the chunk, and on [None] that raises. *)
Lemma handle_assets_body_any_none host r a st :
  known a = true ->
  exists name,
    handle_assets_body_any host (NoChunk r) a st = (Raise (attribute_error name), st).
Proof.
  intros Hk. apply known_valid in Hk. simpl in Hk.
  repeat (destruct Hk as [<-|Hk]; [eexists; reflexivity|]).
  contradiction.
Qed.

(** The handler of line 114 then raises itself, at [chunk.label]: nothing
    is printed and the exception leaves the dispatcher. *)
Lemma handle_assets_any_none host r a st :
  known a = true ->
  handle_assets_any host (NoChunk r) a st
    = (Raise (attribute_error "label"), add_event (EDispatch r a) st).
Proof.
  intros Hk. unfold handle_assets_any, handle_assets_try_any, emit, try_except.
  unfold bind at 1 2. simpl handle_ref.
  destruct (handle_assets_body_any_none host r a (add_event (EDispatch r a) st) Hk)
    as (name & ->).
  reflexivity.
Qed.

Lemma handle_assets_any_none_unknown host r a st :
  known a = false ->
  handle_assets_any host (NoChunk r) a st
    = (Ok false,
       add_event (EPrint ("Unknown asset type: " ++ a)%string)
                 (add_event (EDispatch r a) st)).
Proof.
  intros H. unfold known, valid_labels in H. simpl in H.
  repeat (apply orb_false_elim in H; destruct H as [? H]).
  unfold handle_assets_any, handle_assets_try_any, handle_assets_body_any.
  repeat match goal with E : (a =? _) = false |- _ => rewrite E; clear E end.
  reflexivity.
Qed.

(** A target that opens without a chunk: the first dispatch raises, the
    other assets and [doc.save()] are skipped, and the handler of line 160
    logs the exception. *)
Lemma clean_file_any_chunkless host docs a rest p st :
  chunkless docs host p = true ->
  known a = true ->
  clean_file_any host docs (a :: rest) p st
    = (Ok tt,
       add_log (io_failure_entry p (attribute_error "label"))
         (add_event (EDispatch OpenedDocument a) (add_event (EOpen p None) st))).
Proof.
  unfold chunkless, opened. intros H Hk.
  unfold clean_file_any, try_except, bind at 1, open_document_any.
  destruct (doc_open host p) as [e|c]; [discriminate|].
  simpl in H. rewrite H.
  unfold remove_assets_any. simpl for_each. unfold bind.
  rewrite (handle_assets_any_none host OpenedDocument a _ Hk).
  reflexivity.
Qed.

(** ** The batch over projects of either kind *)

Section BatchAny.

Variable host : Host.
Variable user : User.
Variable docs : Documents.

(** What one target adds to the skeleton of the trace and to the log.  A
    target that does not open, or that opens with a chunk, adds what
    [file_block] says.  A target that opens without a chunk adds the open
    and the first dispatch, and the one entry of the handler of line 160. *)
Inductive file_block_any (assets : list string) (p : string)
  : list Event -> list LogEntry -> Prop :=
| block_object evs es :
    chunkless docs host p = false ->
    file_block host assets p evs es ->
    file_block_any assets p evs es
| block_chunkless a rest :
    chunkless docs host p = true ->
    assets = a :: rest ->
    file_block_any assets p
      [EOpen p None; EDispatch OpenedDocument a]
      [io_failure_entry p (attribute_error "label")].

Inductive batch_blocks_any (assets : list string)
  : list string -> list Event -> list LogEntry -> Prop :=
| batch_any_nil : batch_blocks_any assets [] [] []
| batch_any_cons p ps evs es evs' es' :
    file_block_any assets p evs es ->
    batch_blocks_any assets ps evs' es' ->
    batch_blocks_any assets (p :: ps) (evs ++ evs') (es ++ es').

Lemma clean_file_any_run assets p st :
  assets <> [] ->
  (forall a, In a assets -> known a = true) ->
  exists evs es st',
    clean_file_any host docs assets p st = (Ok tt, st') /\
    trace st' = trace st ++ evs /\
    log st' = log st ++ es /\
    file_block_any assets p (skeleton evs) es /\
    app_chunk st' = app_chunk st.
Proof.
  intros Hne Hk. destruct (chunkless docs host p) eqn:Hc.
  - destruct assets as [|a rest]; [congruence|].
    rewrite (clean_file_any_chunkless host docs a rest p st Hc
               (Hk a (or_introl eq_refl))).
    exists [EOpen p None; EDispatch OpenedDocument a],
           [io_failure_entry p (attribute_error "label")].
    eexists. split; [reflexivity|]. simpl. rewrite <- app_assoc.
    repeat split. eapply block_chunkless; eauto.
  - rewrite (clean_file_any_object host docs assets p st Hc).
    destruct (clean_file_run host assets p st)
      as (evs & es & st' & Hr & Ht & Hl & Hb & Ha).
    exists evs, es, st'. repeat split; auto. apply block_object; auto.
Qed.

Lemma clean_loop_any_run assets (file_paths : list string) :
  assets <> [] ->
  (forall a, In a assets -> known a = true) ->
  forall st,
  exists evs es st',
    for_each file_paths (clean_file_any host docs assets) st = (Ok tt, st') /\
    trace st' = trace st ++ evs /\
    log st' = log st ++ es /\
    batch_blocks_any assets file_paths (skeleton evs) es /\
    app_chunk st' = app_chunk st.
Proof.
  intros Hne Hk. induction file_paths as [|p ps IH]; intros st.
  - exists [], [], st. simpl. rewrite !app_nil_r. repeat split; auto. constructor.
  - simpl for_each. unfold bind.
    destruct (clean_file_any_run assets p st Hne Hk)
      as (evs & es & st1 & Hr & Ht & Hl & Hb & Ha).
    rewrite Hr.
    destruct (IH st1) as (evs2 & es2 & st2 & Hr2 & Ht2 & Hl2 & Hb2 & Ha2).
    exists (evs ++ evs2), (es ++ es2), st2.
    rewrite Hr2, Ht2, Hl2, Ha2, Ht, Hl, Ha, skeleton_app, <- !app_assoc.
    repeat split; auto. constructor; auto.
Qed.

Lemma clean_files_any_run self (ps : list string) st :
  (forall a, In a (get_selected_assets self) -> known a = true) ->
  exists st',
    clean_files_any host user docs self ps st = (Ok tt, st') /\
    app_chunk st' = app_chunk st /\
    match get_selected_assets self with
    | [] => trace st' = trace st
    | _ :: _ =>
        if confirmed user (get_selected_assets self) ps then
          exists evs es,
            trace st'
              = trace st ++
                EQuestion confirm_title
                  (confirm_message (get_selected_assets self) ps) true
                :: evs ++ [EShowLog es] /\
            log st' = es /\
            batch_blocks_any (get_selected_assets self) ps (skeleton evs) es
        else
          trace st'
            = trace st ++
              [EQuestion confirm_title
                 (confirm_message (get_selected_assets self) ps) false]
    end.
Proof.
  intros Hk. unfold clean_files_any, confirmed.
  destruct (get_selected_assets self) as [|a assets] eqn:Ea.
  - eexists. simpl. repeat split; reflexivity.
  - simpl truthy. cbv iota. unfold bind at 1, log_new.
    unfold bind at 1, confirm_removal, bind at 1, emit, ret.
    destruct (question_reply user confirm_title (confirm_message (a :: assets) ps)).
    + unfold bind at 1.
      destruct (clean_loop_any_run (a :: assets) ps ltac:(discriminate) Hk
                  (add_event (EQuestion confirm_title
                                (confirm_message (a :: assets) ps) true)
                             (clear_log st)))
        as (evs & es & st1 & Hr & Ht & Hl & Hb & Ha).
      rewrite Hr. unfold show_log, bind, get_log, emit.
      eexists. split; [reflexivity|]. simpl. rewrite Ha. split; [reflexivity|].
      exists evs, es. rewrite Ht, Hl. simpl. rewrite <- !app_assoc. auto.
    + eexists. repeat split; reflexivity.
Qed.

(** The assets dispatched on one target: none when it does not open, the
    first when it opens without a chunk, all of them when it has one. *)
Definition target_dispatches (assets : list string) (p : string) : list string :=
  if opened host p then
    if no_chunk docs p then firstn 1 assets else assets
  else [].

(** The order of a batch: each target is opened; its assets are dispatched;
    when it has a chunk it is saved; then the next target is opened. *)
Definition batch_steps_any (assets file_paths : list string) : list Step :=
  flat_map (fun p =>
              SOpen p :: map SDispatch (target_dispatches assets p)
              ++ if with_chunk docs host p then [SSave p] else [])
           file_paths.

Lemma file_block_any_steps assets p evs es :
  file_block_any assets p evs es ->
  steps evs
    = SOpen p :: map SDispatch (target_dispatches assets p)
      ++ if with_chunk docs host p then [SSave p] else [].
Proof.
  unfold target_dispatches, with_chunk, chunkless.
  intros [evs0 es0 Hc Hb | a rest Hc ->].
  - rewrite (file_block_steps host _ _ _ _ Hb). unfold chunkless in Hc.
    destruct (opened host p), (no_chunk docs p); simpl in *;
      try discriminate; rewrite ?app_nil_r; reflexivity.
  - unfold chunkless in Hc. apply andb_true_iff in Hc as [-> ->]. reflexivity.
Qed.

Lemma batch_blocks_any_steps assets ps evs es :
  batch_blocks_any assets ps evs es -> steps evs = batch_steps_any assets ps.
Proof.
  induction 1 as [|p ps evs es evs' es' Hb _ IH]; [reflexivity|].
  rewrite steps_app, (file_block_any_steps _ _ _ _ Hb), IH. simpl.
  rewrite <- app_assoc. reflexivity.
Qed.

(** The entries one target leaves in the log. *)
Definition file_entries_any (assets : list string) (p : string)
    (block : list LogEntry) : Prop :=
  if chunkless docs host p then
    block = [io_failure_entry p (attribute_error "label")]
  else file_entries host assets p block.

Lemma batch_blocks_any_entries assets ps evs es :
  batch_blocks_any assets ps evs es ->
  exists blocks,
    es = List.concat blocks /\ Forall2 (file_entries_any assets) ps blocks.
Proof.
  induction 1 as [|p ps evs es evs' es' Hb _ (blocks & -> & IH)].
  - exists []. split; [reflexivity | constructor].
  - exists (es :: blocks). split; [reflexivity|].
    constructor; auto. unfold file_entries_any.
    destruct Hb as [evs0 es0 Hc Hb | a rest Hc _]; rewrite Hc;
      [eapply file_block_entries; eauto | reflexivity].
Qed.

(** A batch in which no target opens without a chunk is a batch of
    [Script]. *)
Lemma batch_blocks_any_object assets ps evs es :
  (forall p, In p ps -> chunkless docs host p = false) ->
  batch_blocks_any assets ps evs es ->
  batch_blocks host assets ps evs es.
Proof.
  intros Hc H. induction H as [|p ps evs es evs' es' Hb _ IH]; [constructor|].
  constructor.
  - destruct Hb as [evs0 es0 _ Hb | a rest Hc' _]; [exact Hb|].
    rewrite (Hc p (or_introl eq_refl)) in Hc'. discriminate.
  - apply IH. intros q Hq. apply Hc. right. exact Hq.
Qed.

(** A loop over the targets shows no log and asks nothing. *)
Lemma batch_blocks_any_quiet assets ps evs es :
  batch_blocks_any assets ps evs es -> shown_log evs = [] /\ questions evs = [].
Proof.
  induction 1 as [|p ps evs es evs' es' Hb _ [IH1 IH2]]; [auto|].
  rewrite shown_log_app, questions_app, IH1, IH2, !app_nil_r.
  destruct Hb as [evs0 es0 _ Hb | a rest _ _]; [|auto].
  assert (H1 : batch_blocks host assets [p] (evs0 ++ []) (es0 ++ []))
    by (constructor; [exact Hb | constructor]).
  rewrite !app_nil_r in H1. exact (batch_blocks_quiet host _ _ _ _ H1).
Qed.

Lemma batch_steps_any_dispatches assets ps :
  flat_map (fun s => match s with SDispatch a => [a] | _ => [] end)
           (batch_steps_any assets ps)
    = flat_map (target_dispatches assets) ps.
Proof.
  unfold batch_steps_any. induction ps as [|p ps IH]; [reflexivity|].
  simpl. rewrite flat_map_app, IH. f_equal.
  rewrite flat_map_app.
  assert (Hd : forall l,
            flat_map (fun s => match s with SDispatch a => [a] | _ => [] end)
                     (map SDispatch l) = l)
    by (induction l as [|a l IHl]; simpl; [|rewrite IHl]; reflexivity).
  rewrite Hd. destruct (with_chunk docs host p); simpl; apply app_nil_r.
Qed.

Lemma batch_steps_any_opens assets ps :
  flat_map (fun s => match s with SOpen p => [p] | _ => [] end)
           (batch_steps_any assets ps) = ps.
Proof.
  unfold batch_steps_any. induction ps as [|p ps IH]; [reflexivity|].
  simpl. rewrite flat_map_app, IH. f_equal.
  rewrite flat_map_app, opens_of_dispatch_steps.
  destruct (with_chunk docs host p); reflexivity.
Qed.

Lemma batch_steps_any_saves assets ps :
  flat_map (fun s => match s with SSave p => [p] | _ => [] end)
           (batch_steps_any assets ps) = filter (with_chunk docs host) ps.
Proof.
  unfold batch_steps_any. induction ps as [|p ps IH]; [reflexivity|].
  simpl. rewrite flat_map_app, IH.
  rewrite flat_map_app, saves_of_dispatch_steps.
  destruct (with_chunk docs host p); reflexivity.
Qed.

End BatchAny.

(** What a confirmed batch over the targets [ps] leaves behind.  The
    dispatches are, target by target, those of [target_dispatches].  The
    shown log is one block per target, in order, as [file_entries_any]
    describes.  When no target opens without a chunk the log has one entry
    per dispatch and one per [open] or [save] that raised, and without such
    a failure there are N x M dispatches and entries. *)
Definition batch_outcome_any (docs : Documents) (host : Host)
    (assets ps : list string) (evs : list Event) : Prop :=
  dispatches evs = flat_map (target_dispatches host docs assets) ps /\
  (exists blocks,
     shown_log evs = List.concat blocks /\
     Forall2 (file_entries_any host docs assets) ps blocks) /\
  ((forall p, In p ps -> chunkless docs host p = false) ->
   List.length (shown_log evs)
     = List.length (dispatches evs) + List.length (io_failures evs) /\
   (io_failures evs = [] ->
    List.length (dispatches evs) = List.length ps * List.length assets /\
    List.length (shown_log evs) = List.length ps * List.length assets)).

Lemma batch_outcome_any_nil docs host assets : batch_outcome_any docs host assets [] [].
Proof.
  unfold batch_outcome_any. simpl. repeat split; auto.
  exists []. split; [reflexivity | constructor].
Qed.

(** The facts about a confirmed batch that the claims below share. *)
Lemma clean_files_any_confirmed host user docs self ps st :
  get_selected_assets self <> [] ->
  (forall a, In a (get_selected_assets self) -> known a = true) ->
  confirmed user (get_selected_assets self) ps = true ->
  result_of (clean_files_any host user docs self ps) st = Ok tt /\
  steps (events_of (clean_files_any host user docs self ps) st)
    = batch_steps_any host docs (get_selected_assets self) ps /\
  questions (events_of (clean_files_any host user docs self ps) st) = [true] /\
  batch_outcome_any docs host (get_selected_assets self) ps
    (events_of (clean_files_any host user docs self ps) st).
Proof.
  intros Hne Hk Hyes.
  destruct (clean_files_any_run host user docs self ps st Hk) as (st' & Hr & _ & Ht).
  rewrite Hyes in Ht.
  destruct (get_selected_assets self) as [|a assets] eqn:Ea; [congruence|].
  destruct Ht as (evs & es & Ht & _ & Hb).
  unfold result_of. rewrite Hr. split; [reflexivity|].
  rewrite (events_of_intro (clean_files_any host user docs self ps) st _
             ltac:(rewrite Hr; exact Ht)).
  destruct (batch_blocks_any_quiet host docs _ _ _ _ Hb) as [Hq1 Hq2].
  rewrite shown_log_skeleton in Hq1. rewrite questions_skeleton in Hq2.
  assert (Hsteps : steps evs = batch_steps_any host docs (a :: assets) ps)
    by (rewrite <- steps_skeleton; eapply batch_blocks_any_steps; eauto).
  assert (Hdis : dispatches evs
                 = flat_map (target_dispatches host docs (a :: assets)) ps)
    by (rewrite dispatches_steps, Hsteps; apply batch_steps_any_dispatches).
  assert (Hshown : shown_log (EQuestion confirm_title
                                (confirm_message (a :: assets) ps) true
                              :: evs ++ [EShowLog es]) = es)
    by (simpl; rewrite shown_log_app, Hq1; simpl; apply app_nil_r).
  assert (Hdis' : dispatches (EQuestion confirm_title
                                (confirm_message (a :: assets) ps) true
                              :: evs ++ [EShowLog es]) = dispatches evs)
    by (simpl; rewrite dispatches_app; simpl; apply app_nil_r).
  assert (Hio : io_failures (EQuestion confirm_title
                               (confirm_message (a :: assets) ps) true
                             :: evs ++ [EShowLog es]) = io_failures evs)
    by (simpl; rewrite io_failures_app; simpl; apply app_nil_r).
  split; [simpl; rewrite steps_app; simpl; rewrite app_nil_r; exact Hsteps|].
  split; [simpl; rewrite questions_app, Hq2; reflexivity|].
  unfold batch_outcome_any. rewrite Hshown, Hdis', Hio.
  split; [exact Hdis|].
  split; [eapply batch_blocks_any_entries; eauto|].
  intros Hobj.
  pose proof (batch_blocks_any_object host docs _ _ _ _ Hobj Hb) as Hb0.
  assert (Hcount : List.length es
                   = List.length (dispatches evs) + List.length (io_failures evs))
    by (rewrite <- dispatches_skeleton, <- io_failures_skeleton;
        eapply batch_blocks_count; eauto).
  split; [exact Hcount|].
  intros Hnone.
  assert (Hn : List.length (dispatches evs)
               = List.length ps * List.length (a :: assets)).
  { rewrite <- dispatches_skeleton.
    eapply batch_blocks_no_failure; eauto.
    rewrite io_failures_skeleton. exact Hnone. }
  split; [exact Hn|]. rewrite Hcount, Hn, Hnone. simpl. lia.
Qed.

(** Each of the two file handlers either does nothing or runs the batch over
    the targets it resolved. *)
Lemma select_project_any_cases host user docs self :
  (file_dialog user = None /\ idle (select_project_any host user docs self)) \/
  exists ps,
    file_dialog user = Some ps /\
    select_project_any host user docs self = clean_files_any host user docs self ps.
Proof.
  unfold select_project_any. destruct (file_dialog user) as [ps|].
  - right. exists ps. auto.
  - left. split; [reflexivity|]. exists (Ok tt). reflexivity.
Qed.

Lemma process_selected_projects_any_cases host user docs self fps cbs :
  (match selected_files_from 0 fps cbs with Some (_ :: _) => False | _ => True end
   /\ idle (process_selected_projects_any host user docs self fps cbs)) \/
  exists ps,
    selected_files_from 0 fps cbs = Some ps /\ ps <> [] /\
    process_selected_projects_any host user docs self fps cbs
      = clean_files_any host user docs self ps.
Proof.
  unfold process_selected_projects_any.
  destruct (selected_files_from 0 fps cbs) as [[|p ps]|].
  - left. split; [exact I|]. exists (Ok tt). reflexivity.
  - right. exists (p :: ps). repeat split; auto. discriminate.
  - left. split; [exact I|]. eexists. reflexivity.
Qed.

Lemma remove_from_subfolders_any_cases host user walk_tree docs self :
  idle (remove_from_subfolders_any host user walk_tree docs self) \/
  exists fps cbs,
    remove_from_subfolders_any host user walk_tree docs self
      = process_selected_projects_any host user docs self fps cbs.
Proof.
  unfold remove_from_subfolders_any. destruct (folder_dialog user) as [folder|].
  - destruct (scan_projects folder (walk_tree folder)) as [|p fps].
    + left. exists (Ok tt). reflexivity.
    + simpl truthy. cbv iota. unfold project_selection_table_any.
      destruct (table_session user (p :: fps)) as [actions [|]].
      * right. eexists _, _. reflexivity.
      * left. exists (Ok tt). reflexivity.
  - left. exists (Ok tt). reflexivity.
Qed.

(** ** The claims about the batch *)

(** Documents of which the project P1.psx has no chunk. *)
Definition p1_without_chunk : Documents :=
  mkDocuments (fun p => p =? "P1.psx") false.

(** Documents that all have a chunk. *)
Definition all_with_chunk : Documents := mkDocuments (fun _ => false) false.

(** The open project has no chunk. *)
Definition app_without_chunk : Documents := mkDocuments (fun _ => false) true.

Lemma events_of_ext {A} (m m' : M A) st :
  m st = m' st -> events_of m st = events_of m' st.
Proof. intros H. unfold events_of. rewrite H. reflexivity. Qed.

(** The current-project handler on a project without a chunk: line 122
    raises before the confirmation dialog. *)
Lemma remove_from_project_any_none host user docs self st :
  app_no_chunk docs = true ->
  remove_from_project_any host user docs self st
    = (Raise (attribute_error "label"), st).
Proof. intros H. unfold remove_from_project_any. rewrite H. reflexivity. Qed.

(** C1, amended.  In a confirmed batch over N targets and M selected assets
    (M > 0, each a label the dispatcher knows, as the nine of the dialog
    are), target by target: a target that does not open has no dispatch and
    one I/O failure entry; a target that opens with a chunk has the M
    dispatches and one entry per asset, in order, followed by one I/O
    failure entry when the save raised; a target that opens without a chunk
    has the first dispatch only and the single failure entry of the
    exception that dispatch raised.  When no target opens without a chunk
    the log has one entry per dispatch plus one per open or save that
    raised, and N x M dispatches and entries when none did.  In the
    current-project handler, on a project with a chunk, the dispatches are
    the M assets and the log has one entry per asset, in order. *)
Theorem batch_dispatches_and_log
    (host : Host) (user : User) (docs : Documents) (self : CleanUpDlg)
    (st : State) :
  get_selected_assets self <> [] ->
  (forall a, In a (get_selected_assets self) -> known a = true) ->
  (forall assets projects, confirmed user assets projects = true) ->
  (forall ps,
     file_dialog user = Some ps ->
     batch_outcome_any docs host (get_selected_assets self) ps
       (events_of (select_project_any host user docs self) st)) /\
  (forall file_paths checkboxes ps,
     selected_files_from 0 file_paths checkboxes = Some ps ->
     batch_outcome_any docs host (get_selected_assets self) ps
       (events_of (process_selected_projects_any host user docs self file_paths
                     checkboxes) st)) /\
  (app_no_chunk docs = false ->
   dispatches (events_of (remove_from_project_any host user docs self) st)
     = get_selected_assets self /\
   asset_entries (fun _ => True) (get_selected_assets self)
     (shown_log (events_of (remove_from_project_any host user docs self) st))).
Proof.
  intros Hne Hk Hyes. split; [|split].
  - intros ps Hfd.
    destruct (select_project_any_cases host user docs self)
      as [[Hnone _] | (ps' & Hfd' & ->)]; [congruence|].
    assert (ps' = ps) by congruence. subst ps'.
    apply clean_files_any_confirmed; auto.
  - intros fps cbs ps Hsel.
    destruct (process_selected_projects_any_cases host user docs self fps cbs)
      as [[Hm Hidle] | (ps' & Hsel' & _ & ->)].
    + rewrite Hsel in Hm. destruct ps; [|contradiction].
      rewrite (idle_events _ st Hidle). apply batch_outcome_any_nil.
    + assert (ps' = ps) by congruence. subst ps'.
      apply clean_files_any_confirmed; auto.
  - intros Happ. rewrite (remove_from_project_any_object host user docs self Happ).
    destruct (remove_from_project_run host user self st) as (st' & Hr & _ & Ht).
    rewrite Hyes in Ht. destruct Ht as (evs & es & Ht & Hs & He).
    rewrite (events_of_intro (remove_from_project host user self) st _
               ltac:(rewrite Hr; exact Ht)).
    simpl. rewrite dispatches_app, shown_log_app. simpl. rewrite !app_nil_r.
    rewrite <- dispatches_skeleton, <- shown_log_skeleton, Hs.
    rewrite dispatches_map, shown_log_map_dispatch. auto.
Qed.

Lemma batch_dispatches_and_log_witness :
  get_selected_assets new_dialog <> [] /\
  (forall a, In a (get_selected_assets new_dialog) -> known a = true) /\
  (forall assets projects, confirmed yes_user assets projects = true) /\
  batch_outcome_any p1_without_chunk failing_host (get_selected_assets new_dialog)
    ["P1.psx"; "P2.psx"]
    (events_of (select_project_any failing_host yes_user p1_without_chunk new_dialog)
               (start sample_chunk)).
Proof.
  assert (Hne : get_selected_assets new_dialog <> []) by discriminate.
  assert (Hk : forall a, In a (get_selected_assets new_dialog) -> known a = true)
    by (apply standard_dialog_known; reflexivity).
  assert (Hyes : forall assets projects, confirmed yes_user assets projects = true)
    by reflexivity.
  split; [exact Hne | split; [exact Hk | split; [exact Hyes|]]].
  apply (proj1 (batch_dispatches_and_log failing_host yes_user p1_without_chunk
                  new_dialog (start sample_chunk) Hne Hk Hyes)).
  reflexivity.
Defined.

(** The batch of two targets of which the first opens without a chunk: one
    dispatch and one failure entry for P1.psx, which is not saved; the whole
    pass on P2.psx. *)
Example first_target_has_no_chunk :
  steps (events_of (select_project_any quiet_host yes_user p1_without_chunk
                      orthomosaics_and_shapes)
                   (start sample_chunk))
    = [ SOpen "P1.psx"; SDispatch "Orthomosaics";
        SOpen "P2.psx"; SDispatch "Orthomosaics"; SDispatch "Shapes";
        SSave "P2.psx" ] /\
  shown_log (events_of (select_project_any quiet_host yes_user p1_without_chunk
                          orthomosaics_and_shapes)
                       (start sample_chunk))
    = [ io_failure_entry "P1.psx" "'NoneType' object has no attribute 'label'";
        success_entry "Orthomosaics" "P2.psx";
        success_entry "Shapes" "P2.psx" ].
Proof. split; reflexivity. Qed.

(** C6, amended.  In a confirmed batch of the file handlers (M > 0 selected
    assets, each a label the dispatcher knows) each target is opened; when
    the open did not raise and the project has a chunk, every selected
    asset is dispatched and the target is saved, before the next target is
    opened; a target that opens without a chunk gets the first dispatch and
    is not saved.  The saved targets are those that opened with a chunk.
    The current-project handler opens and saves nothing. *)
Theorem opened_projects_are_saved
    (host : Host) (user : User) (docs : Documents) (self : CleanUpDlg)
    (st : State) :
  (get_selected_assets self <> [] ->
   (forall a, In a (get_selected_assets self) -> known a = true) ->
   (forall assets projects, confirmed user assets projects = true) ->
   (forall ps,
      file_dialog user = Some ps ->
      steps (events_of (select_project_any host user docs self) st)
        = batch_steps_any host docs (get_selected_assets self) ps /\
      saves (events_of (select_project_any host user docs self) st)
        = filter (with_chunk docs host) ps) /\
   (forall file_paths checkboxes ps,
      selected_files_from 0 file_paths checkboxes = Some ps ->
      steps (events_of (process_selected_projects_any host user docs self
                          file_paths checkboxes) st)
        = batch_steps_any host docs (get_selected_assets self) ps /\
      saves (events_of (process_selected_projects_any host user docs self
                          file_paths checkboxes) st)
        = filter (with_chunk docs host) ps)) /\
  opens (events_of (remove_from_project_any host user docs self) st) = [] /\
  saves (events_of (remove_from_project_any host user docs self) st) = [].
Proof.
  split.
  - intros Hne Hk Hyes.
    assert (Hclean : forall ps,
              steps (events_of (clean_files_any host user docs self ps) st)
                = batch_steps_any host docs (get_selected_assets self) ps /\
              saves (events_of (clean_files_any host user docs self ps) st)
                = filter (with_chunk docs host) ps).
    { intros ps.
      destruct (clean_files_any_confirmed host user docs self ps st Hne Hk
                  (Hyes _ _)) as (_ & Hsteps & _).
      split; [exact Hsteps|].
      rewrite saves_steps, Hsteps. apply batch_steps_any_saves. }
    split.
    + intros ps Hfd.
      destruct (select_project_any_cases host user docs self)
        as [[Hnone _] | (ps' & Hfd' & ->)]; [congruence|].
      assert (ps' = ps) by congruence. subst ps'. apply Hclean.
    + intros fps cbs ps Hsel.
      destruct (process_selected_projects_any_cases host user docs self fps cbs)
        as [[Hm Hidle] | (ps' & Hsel' & _ & ->)].
      * rewrite Hsel in Hm. destruct ps; [|contradiction].
        rewrite (idle_events _ st Hidle). auto.
      * assert (ps' = ps) by congruence. subst ps'. apply Hclean.
  - destruct (app_no_chunk docs) eqn:Happ.
    + rewrite (idle_events (remove_from_project_any host user docs self) st); auto.
      exists (Raise (attribute_error "label")). intros st0.
      apply remove_from_project_any_none, Happ.
    + rewrite (remove_from_project_any_object host user docs self Happ).
      destruct (remove_from_project_run host user self st) as (st' & Hr & _ & Ht).
      destruct (confirmed user (get_selected_assets self) [label (app_chunk st)]).
      * destruct Ht as (evs & es & Ht & Hs & _).
        rewrite (events_of_intro (remove_from_project host user self) st _
                   ltac:(rewrite Hr; exact Ht)).
        simpl. rewrite opens_app, saves_app. simpl. rewrite !app_nil_r.
        rewrite <- opens_skeleton, <- saves_skeleton, Hs.
        rewrite opens_map_dispatch, saves_map_dispatch. auto.
      * destruct Ht as [Ht _].
        rewrite (events_of_intro (remove_from_project host user self) st _
                   ltac:(rewrite Hr; exact Ht)).
        auto.
Qed.

Lemma opened_projects_are_saved_witness :
  get_selected_assets orthomosaics_and_shapes <> [] /\
  (forall a, In a (get_selected_assets orthomosaics_and_shapes) -> known a = true) /\
  (forall assets projects, confirmed yes_user assets projects = true) /\
  steps (events_of (select_project_any quiet_host yes_user p1_without_chunk
                      orthomosaics_and_shapes)
                   (start sample_chunk))
    = batch_steps_any quiet_host p1_without_chunk
        (get_selected_assets orthomosaics_and_shapes) ["P1.psx"; "P2.psx"] /\
  saves (events_of (select_project_any quiet_host yes_user p1_without_chunk
                      orthomosaics_and_shapes)
                   (start sample_chunk))
    = ["P2.psx"].
Proof.
  assert (Hne : get_selected_assets orthomosaics_and_shapes <> []) by discriminate.
  assert (Hk : forall a, In a (get_selected_assets orthomosaics_and_shapes) ->
                         known a = true)
    by (apply standard_dialog_known; reflexivity).
  assert (Hyes : forall assets projects, confirmed yes_user assets projects = true)
    by reflexivity.
  split; [exact Hne | split; [exact Hk | split; [exact Hyes|]]].
  destruct (proj1 (opened_projects_are_saved quiet_host yes_user p1_without_chunk
                     orthomosaics_and_shapes (start sample_chunk)) Hne Hk Hyes)
    as (Hsel & _).
  exact (Hsel ["P1.psx"; "P2.psx"] eq_refl).
Defined.

(** C4.  On a chunk object the dispatcher contains every exception: it
    returns a boolean, [False] when a call on the chunk raised.  On [None]
    it does not.  For a label it knows, the chain of tests raises at its
    first attribute of the chunk, the handler of line 114 raises in turn at
    [chunk.label], and that exception leaves [handle_assets] after the
    dispatch event and before any printed line.  In the batch the remaining
    assets of that target are then not dispatched and the target is not
    saved; the handler of line 160 logs one entry.  In the current-project
    handler line 122 raises before the confirmation dialog. *)
Theorem none_chunk_escapes_dispatcher
    (host : Host) (user : User) (docs : Documents) (self : CleanUpDlg) :
  (forall r a st,
     exists b st',
       handle_assets_any host (Object r) a st = (Ok b, st') /\
       (any_raised (events_of (handle_assets_any host (Object r) a) st) = true ->
        b = false)) /\
  (forall r a st,
     In a valid_labels ->
     handle_assets_any host (NoChunk r) a st
       = (Raise (attribute_error "label"), add_event (EDispatch r a) st)) /\
  (forall a rest p st,
     In a valid_labels ->
     chunkless docs host p = true ->
     result_of (clean_file_any host docs (a :: rest) p) st = Ok tt /\
     events_of (clean_file_any host docs (a :: rest) p) st
       = [EOpen p None; EDispatch OpenedDocument a] /\
     log_of (clean_file_any host docs (a :: rest) p) st
       = log st ++ [io_failure_entry p (attribute_error "label")]) /\
  (app_no_chunk docs = true ->
   forall st,
     remove_from_project_any host user docs self st
       = (Raise (attribute_error "label"), st)).
Proof.
  split; [|split; [|split]].
  - intros r a st. rewrite handle_assets_any_object.
    destruct (handle_assets_run host r a st) as (evs & st' & Hr & Ht & _ & _ & _).
    eexists _, st'. split; [exact Hr|].
    rewrite (events_of_intro (handle_assets host r a) st _
               ltac:(rewrite Hr; exact Ht)).
    simpl. intros ->. apply andb_false_r.
  - intros r a st Hin. apply handle_assets_any_none, known_valid, Hin.
  - intros a rest p st Hin Hc. apply known_valid in Hin.
    pose proof (clean_file_any_chunkless host docs a rest p st Hc Hin) as Heq.
    unfold result_of, log_of. split; [rewrite Heq; reflexivity|].
    split; [|rewrite Heq; reflexivity].
    apply events_of_intro. rewrite Heq. simpl. rewrite <- app_assoc. reflexivity.
  - intros Happ st. apply remove_from_project_any_none, Happ.
Qed.

Lemma none_chunk_escapes_dispatcher_witness :
  In "Shapes" valid_labels /\
  handle_assets_any quiet_host (NoChunk OpenedDocument) "Shapes" (start sample_chunk)
    = (Raise "'NoneType' object has no attribute 'label'",
       add_event (EDispatch OpenedDocument "Shapes") (start sample_chunk)) /\
  app_no_chunk app_without_chunk = true /\
  remove_from_project_any quiet_host yes_user app_without_chunk new_dialog
    (start sample_chunk)
    = (Raise "'NoneType' object has no attribute 'label'", start sample_chunk).
Proof.
  assert (Hin : In "Shapes" valid_labels) by (do 9 right; left; reflexivity).
  pose proof (none_chunk_escapes_dispatcher quiet_host yes_user app_without_chunk
                new_dialog) as (_ & Hnone & _ & Happ).
  split; [exact Hin|].
  split; [exact (Hnone OpenedDocument "Shapes" (start sample_chunk) Hin)|].
  split; [reflexivity|].
  exact (Happ eq_refl (start sample_chunk)).
Defined.

(** ** A host that never raises, projects that all have a chunk *)

(** X9.  On a host where no call raises, every project opens and every save
    succeeds, and when every project has a chunk, a confirmed batch of
    either file handler shows a log that is exactly the success entry of
    every (target, selected asset) pair, target by target and, within a
    target, in check-box order: no failure entry appears. *)
Theorem quiet_host_logs_only_successes
    (host : Host) (user : User) (docs : Documents) (self : CleanUpDlg)
    (st : State) :
  never_raises host ->
  (forall p, no_chunk docs p = false) ->
  map fst (checkboxes self) = map fst new_checkboxes ->
  get_selected_assets self <> [] ->
  (forall assets projects, confirmed user assets projects = true) ->
  (forall ps,
     file_dialog user = Some ps ->
     shown_log (events_of (select_project_any host user docs self) st)
       = flat_map (fun p => map (fun a => success_entry a p)
                                (get_selected_assets self)) ps) /\
  (forall file_paths checkboxes ps,
     selected_files_from 0 file_paths checkboxes = Some ps ->
     shown_log (events_of (process_selected_projects_any host user docs self
                             file_paths checkboxes) st)
       = flat_map (fun p => map (fun a => success_entry a p)
                                (get_selected_assets self)) ps).
Proof.
  intros Hcalm Hchunk Hkeys Hne Hyes.
  pose proof (standard_dialog_known self Hkeys) as Hknown.
  assert (Hclean : forall ps,
            shown_log (events_of (clean_files_any host user docs self ps) st)
              = flat_map (fun p => map (fun a => success_entry a p)
                                       (get_selected_assets self)) ps).
  { intros ps.
    rewrite (events_of_ext _ (clean_files host user self ps) st).
    - apply clean_files_calm; auto.
    - apply clean_files_any_object. intros p _.
      unfold chunkless. rewrite Hchunk. apply andb_false_r. }
  split.
  - intros ps Hfd.
    destruct (select_project_any_cases host user docs self)
      as [[Hnone _] | (ps' & Hfd' & ->)]; [congruence|].
    assert (ps' = ps) by congruence. subst ps'. apply Hclean.
  - intros fps cbs ps Hsel.
    destruct (process_selected_projects_any_cases host user docs self fps cbs)
      as [[Hm Hidle] | (ps' & Hsel' & _ & ->)].
    + rewrite Hsel in Hm. destruct ps; [|contradiction].
      rewrite (idle_events _ st Hidle). reflexivity.
    + assert (ps' = ps) by congruence. subst ps'. apply Hclean.
Qed.

Lemma quiet_host_logs_only_successes_witness :
  never_raises quiet_host /\
  (forall p, no_chunk all_with_chunk p = false) /\
  map fst (checkboxes orthomosaics_and_shapes) = map fst new_checkboxes /\
  shown_log (events_of (select_project_any quiet_host yes_user all_with_chunk
                          orthomosaics_and_shapes)
                       (start sample_chunk))
    = [ success_entry "Orthomosaics" "P1.psx"; success_entry "Shapes" "P1.psx";
        success_entry "Orthomosaics" "P2.psx"; success_entry "Shapes" "P2.psx" ].
Proof.
  assert (Hcalm : never_raises quiet_host).
  { split; [reflexivity|]. split; [|reflexivity].
    intros p. exists sample_chunk. reflexivity. }
  assert (Hchunk : forall p, no_chunk all_with_chunk p = false) by reflexivity.
  assert (Hne : get_selected_assets orthomosaics_and_shapes <> []) by discriminate.
  assert (Hyes : forall assets projects, confirmed yes_user assets projects = true)
    by reflexivity.
  split; [exact Hcalm | split; [exact Hchunk | split; [reflexivity|]]].
  exact (proj1 (quiet_host_logs_only_successes quiet_host yes_user all_with_chunk
                  orthomosaics_and_shapes (start sample_chunk)
                  Hcalm Hchunk eq_refl Hne Hyes) ["P1.psx"; "P2.psx"] eq_refl).
Defined.

(** ** The anatomy of a dispatch, on a handle of either kind *)

(** X13.  A dispatch on a chunk object has one shape: its calls on the
    chunk, then exactly one printed line.  It returns [True] exactly when it
    prints "<label> removed from <chunk label>"; otherwise it prints either
    "Unknown asset type: <label>" after no call at all, or "Failed to remove
    <label> from <chunk label>: <message>" where the message is that of the
    exception raised by the last call made; it does not raise.  A dispatch
    on [None] makes no call: for a label outside the ten it prints the
    "Unknown asset type" line and returns [False]; for one of the ten it
    prints nothing and raises the [AttributeError] of [chunk.label]. *)
Theorem dispatch_prints_one_line (host : Host) (a : string) (st : State) :
  (forall chunk,
   exists calls line,
    events_of (handle_assets_any host (Object chunk) a) st
      = EDispatch chunk a :: calls ++ [EPrint line] /\
    Forall (is_call_on chunk) calls /\
    ((result_of (handle_assets_any host (Object chunk) a) st = Ok true /\
      line = (a ++ " removed from "
              ++ label (get_chunk chunk
                          (snd (handle_assets_any host (Object chunk) a st))))%string)
     \/
     (result_of (handle_assets_any host (Object chunk) a) st = Ok false /\
      known a = false /\ calls = [] /\
      line = ("Unknown asset type: " ++ a)%string)
     \/
     (result_of (handle_assets_any host (Object chunk) a) st = Ok false /\
      exists e earlier op,
        calls = earlier ++ [EHost chunk op (Some e)] /\
        line = ("Failed to remove " ++ a ++ " from "
                ++ label (get_chunk chunk
                            (snd (handle_assets_any host (Object chunk) a st)))
                ++ ": " ++ e)%string))) /\
  (forall chunk,
    (known a = false /\
     result_of (handle_assets_any host (NoChunk chunk) a) st = Ok false /\
     events_of (handle_assets_any host (NoChunk chunk) a) st
       = [EDispatch chunk a; EPrint ("Unknown asset type: " ++ a)%string])
    \/
    (known a = true /\
     result_of (handle_assets_any host (NoChunk chunk) a) st
       = Raise (attribute_error "label") /\
     events_of (handle_assets_any host (NoChunk chunk) a) st
       = [EDispatch chunk a])).
Proof.
  split.
  - intros chunk. exact (handle_assets_shape host chunk a st).
  - intros chunk. destruct (known a) eqn:Hk; [right | left].
    + pose proof (handle_assets_any_none host chunk a st Hk) as Heq.
      unfold result_of. rewrite Heq. repeat split.
      apply events_of_intro. rewrite Heq. reflexivity.
    + pose proof (handle_assets_any_none_unknown host chunk a st Hk) as Heq.
      unfold result_of. rewrite Heq. repeat split.
      apply events_of_intro. rewrite Heq. simpl. rewrite <- app_assoc. reflexivity.
Qed.

(** * Beyond the claims: which calls a handler makes *)

(** The calls the branch of a label sets out to make on a chunk that is in
    state [c] when the dispatch starts, in order. *)
Definition branch_calls (asset_type : string) (c : Chunk) : list HostOp :=
  if asset_type =? "Key Points" then
    match tie_points c with Some tp => [RemoveKeypoints tp] | None => [] end
  else if asset_type =? "Orthophotos" then
    map RemoveOrthophotos (orthomosaics c)
  else
    match single_call asset_type c with Some op => [op] | None => [] end.

(** Making the calls [ops] one after the other on a chunk in state [c],
    up to and including the first that raises: the calls made and the chunk
    as the host leaves it. *)
Fixpoint run_calls (host : Host) (c : Chunk) (ops : list HostOp)
  : list HostOp * Chunk :=
  match ops with
  | [] => ([], c)
  | op :: rest =>
      match host_call host op c with
      | (Some _, c') => ([op], c')
      | (None, c') =>
          let (made, c'') := run_calls host c' rest in (op :: made, c'')
      end
  end.

(** The calls of a pass over [assets] that starts with the chunk in state
    [c]: for each asset in turn, the calls of its branch on the chunk as the
    calls before have left it. *)
Fixpoint pass_ops (host : Host) (assets : list string) (c : Chunk) : list HostOp :=
  match assets with
  | [] => []
  | a :: rest =>
      fst (run_calls host c (branch_calls a c))
      ++ pass_ops host rest (snd (run_calls host c (branch_calls a c)))
  end.

(** The calls made on one target of the batch: none when it does not open
    or has no chunk, else those of a pass that starts with the chunk the
    document opened with. *)
Definition target_ops (host : Host) (docs : Documents) (assets : list string)
    (p : string) : list HostOp :=
  match doc_open host p with
  | inl _ => []
  | inr c => if no_chunk docs p then [] else pass_ops host assets c
  end.

Lemma get_chunk_set_chunk r c st : get_chunk r (set_chunk r c st) = c.
Proof. destruct r; reflexivity. Qed.

Lemma get_chunk_add_log r x st : get_chunk r (add_log x st) = get_chunk r st.
Proof. destruct r; reflexivity. Qed.

Lemma run_calls_one host c op :
  run_calls host c [op] = ([op], snd (host_call host op c)).
Proof. simpl. destruct (host_call host op c) as [[e|] c']; reflexivity. Qed.

Lemma snd_bind_ret {A B} (m : M A) (b : B) st :
  snd ((m ;; ret b) st) = snd (m st).
Proof. unfold bind, ret. destruct (m st) as [[a|e] s]; reflexivity. Qed.

Section Calls.

Variable host : Host.

(** One call: its event, and the chunk as the host left it. *)
Lemma call_calls chunk op st :
  trace (snd (call host chunk op st))
    = trace st ++ [EHost chunk op (fst (host_call host op (get_chunk chunk st)))] /\
  get_chunk chunk (snd (call host chunk op st))
    = snd (host_call host op (get_chunk chunk st)).
Proof.
  rewrite call_run. simpl. rewrite trace_set_chunk, get_chunk_add_event.
  rewrite get_chunk_set_chunk. auto.
Qed.

Lemma orthophotos_loop_calls chunk (orthos : list Asset) :
  forall st,
  exists evs,
    trace (snd (for_each orthos
                  (fun ortho => call host chunk (RemoveOrthophotos ortho)) st))
      = trace st ++ evs /\
    host_ops evs
      = fst (run_calls host (get_chunk chunk st) (map RemoveOrthophotos orthos)) /\
    get_chunk chunk
      (snd (for_each orthos
              (fun ortho => call host chunk (RemoveOrthophotos ortho)) st))
      = snd (run_calls host (get_chunk chunk st) (map RemoveOrthophotos orthos)).
Proof.
  induction orthos as [|o os IH]; intros st.
  - exists []. simpl. rewrite app_nil_r. auto.
  - simpl for_each. simpl map. simpl run_calls. unfold bind.
    destruct (call_calls chunk (RemoveOrthophotos o) st) as [Ht Hc].
    rewrite call_run in Ht, Hc |- *.
    destruct (host_call host (RemoveOrthophotos o) (get_chunk chunk st))
      as [[e|] c']; simpl fst in *; simpl snd in *; cbv iota.
    + exists [EHost chunk (RemoveOrthophotos o) (Some e)]. auto.
    + match goal with |- context [for_each os ?b ?s] =>
        destruct (IH s) as (evs & Ht2 & Hops & Hc2) end.
      rewrite Hc in Hops, Hc2.
      exists (EHost chunk (RemoveOrthophotos o) None :: evs).
      rewrite Ht2, Hc2, Ht, <- app_assoc. simpl. rewrite Hops.
      destruct (run_calls host c' (map RemoveOrthophotos os)); auto.
Qed.

Lemma body_orthophotos chunk :
  handle_assets_body host chunk "Orthophotos"
    = (orthos <- attr chunk orthomosaics ;;
       for_each orthos (fun ortho => call host chunk (RemoveOrthophotos ortho)) ;;
       ret None).
Proof. reflexivity. Qed.

(** The chain of tests makes the calls of the label's branch, up to the
    first that raises, and nothing else changes the chunk. *)
Lemma body_calls chunk a st :
  exists evs,
    trace (snd (handle_assets_body host chunk a st)) = trace st ++ evs /\
    host_ops evs
      = fst (run_calls host (get_chunk chunk st)
               (branch_calls a (get_chunk chunk st))) /\
    get_chunk chunk (snd (handle_assets_body host chunk a st))
      = snd (run_calls host (get_chunk chunk st)
               (branch_calls a (get_chunk chunk st))).
Proof.
  assert (Hone : forall op,
            branch_calls a (get_chunk chunk st) = [op] ->
            handle_assets_body host chunk a st = (call host chunk op ;; ret None) st ->
            exists evs,
              trace (snd (handle_assets_body host chunk a st)) = trace st ++ evs /\
              host_ops evs
                = fst (run_calls host (get_chunk chunk st)
                         (branch_calls a (get_chunk chunk st))) /\
              get_chunk chunk (snd (handle_assets_body host chunk a st))
                = snd (run_calls host (get_chunk chunk st)
                         (branch_calls a (get_chunk chunk st)))).
  { intros op Hb Heq. rewrite Heq, Hb, run_calls_one, snd_bind_ret.
    destruct (call_calls chunk op st) as [Ht Hc].
    exists [EHost chunk op (fst (host_call host op (get_chunk chunk st)))].
    auto. }
  assert (Hnone : branch_calls a (get_chunk chunk st) = [] ->
            forall evs,
            host_ops evs = [] ->
            snd (handle_assets_body host chunk a st)
              = fold_left (fun s e => add_event e s) evs st ->
            exists evs,
              trace (snd (handle_assets_body host chunk a st)) = trace st ++ evs /\
              host_ops evs
                = fst (run_calls host (get_chunk chunk st)
                         (branch_calls a (get_chunk chunk st))) /\
              get_chunk chunk (snd (handle_assets_body host chunk a st))
                = snd (run_calls host (get_chunk chunk st)
                         (branch_calls a (get_chunk chunk st)))).
  { intros Hb evs Hops Heq. exists evs. rewrite Heq, Hb. simpl run_calls.
    clear Heq. split; [|split; [exact Hops|]].
    - clear. revert st. induction evs as [|e evs IH]; intros st; simpl.
      + symmetry. apply app_nil_r.
      + rewrite IH. simpl. rewrite <- app_assoc. reflexivity.
    - clear. revert st. induction evs as [|e evs IH]; intros st; simpl; [reflexivity|].
      rewrite IH. apply get_chunk_add_event. }
  destruct (String.eqb_spec a "Key Points") as [->|Hkp].
  { destruct (tie_points (get_chunk chunk st)) as [tp|] eqn:Etp.
    - apply (Hone (RemoveKeypoints tp)).
      + unfold branch_calls. simpl String.eqb. cbv iota. rewrite Etp. reflexivity.
      + unfold handle_assets_body, bind at 1, attr. simpl. rewrite Etp. reflexivity.
    - apply Hnone with (evs := []).
      + unfold branch_calls. simpl String.eqb. cbv iota. rewrite Etp. reflexivity.
      + reflexivity.
      + unfold handle_assets_body, bind, attr. simpl. rewrite Etp. reflexivity. }
  destruct (String.eqb_spec a "Orthophotos") as [->|Hor].
  { rewrite body_orthophotos.
    change (branch_calls "Orthophotos" (get_chunk chunk st))
      with (map RemoveOrthophotos (orthomosaics (get_chunk chunk st))).
    unfold bind at 1 3, attr. cbv beta iota. rewrite !snd_bind_ret.
    apply orthophotos_loop_calls. }
  assert (Hb : branch_calls a (get_chunk chunk st)
               = match single_call a (get_chunk chunk st) with
                 | Some op => [op]
                 | None => []
                 end).
  { unfold branch_calls.
    apply String.eqb_neq in Hkp, Hor. rewrite Hkp, Hor. reflexivity. }
  destruct (single_call a (get_chunk chunk st)) as [op|] eqn:Es.
  - apply (Hone op Hb). apply body_single, Es.
  - apply Hnone with (evs := [EPrint ("Unknown asset type: " ++ a)%string]);
      [exact Hb | reflexivity |].
    unfold single_call in Es. unfold handle_assets_body.
    apply String.eqb_neq in Hkp, Hor. rewrite Hkp, Hor.
    repeat match type of Es with
    | context [if a =? ?l then _ else _] =>
        destruct (a =? l); [discriminate Es|]
    end.
    reflexivity.
Qed.

(** A dispatch returns and makes the calls of its label's branch, up to the
    first that raises. *)
Lemma handle_assets_calls chunk a st :
  exists b st' evs,
    handle_assets host chunk a st = (Ok b, st') /\
    trace st' = trace st ++ evs /\
    host_ops evs
      = fst (run_calls host (get_chunk chunk st)
               (branch_calls a (get_chunk chunk st))) /\
    get_chunk chunk st'
      = snd (run_calls host (get_chunk chunk st)
               (branch_calls a (get_chunk chunk st))).
Proof.
  destruct (body_calls chunk a (add_event (EDispatch chunk a) st))
    as (evs & Ht & Hops & Hc).
  rewrite get_chunk_add_event in Hops, Hc.
  rewrite (handle_assets_eq host chunk a st).
  destruct (handle_assets_body host chunk a (add_event (EDispatch chunk a) st))
    as [[[b|]|e] st1]; simpl in Ht, Hc.
  - exists b, st1, (EDispatch chunk a :: evs).
    rewrite Ht, <- app_assoc. simpl. auto.
  - eexists true, _, (EDispatch chunk a :: evs ++ [EPrint _]).
    split; [reflexivity|]. simpl. rewrite Ht, <- !app_assoc, get_chunk_add_event.
    simpl. rewrite host_ops_app, Hops. simpl. rewrite app_nil_r. auto.
  - eexists false, _, (EDispatch chunk a :: evs ++ [EPrint _]).
    split; [reflexivity|]. simpl. rewrite Ht, <- !app_assoc, get_chunk_add_event.
    simpl. rewrite host_ops_app, Hops. simpl. rewrite app_nil_r. auto.
Qed.

(** The pass on a chunk object makes the calls of [pass_ops]. *)
Lemma remove_assets_calls chunk (assets : list string) (shown : M string) :
  (forall st, exists name, shown st = (Ok name, st)) ->
  forall st,
  exists st' evs,
    remove_assets host chunk assets shown st = (Ok tt, st') /\
    trace st' = trace st ++ evs /\
    host_ops evs = pass_ops host assets (get_chunk chunk st).
Proof.
  intros Hshown. induction assets as [|a assets IH]; intros st.
  - exists st, []. simpl. rewrite app_nil_r. auto.
  - destruct (handle_assets_calls chunk a st)
      as (b & st1 & evs & Hr & Ht & Hops & Hc).
    destruct (Hshown st1) as (name & Hn).
    rewrite (remove_assets_cons host chunk a assets shown st b st1 name Hr Hn).
    match goal with |- context [remove_assets _ _ _ _ ?s] =>
      destruct (IH s) as (st2 & evs2 & Hr2 & Ht2 & Hp) end.
    exists st2, (evs ++ evs2). split; [exact Hr2|].
    split; [rewrite Ht2; simpl; rewrite Ht, app_assoc; reflexivity|].
    rewrite host_ops_app, Hops, Hp, get_chunk_add_log, Hc. reflexivity.
Qed.

Lemma remove_assets_any_none_known r a (assets : list string) (shown : M string) st :
  known a = true ->
  remove_assets_any host (NoChunk r) (a :: assets) shown st
    = (Raise (attribute_error "label"), add_event (EDispatch r a) st).
Proof.
  intros Hk. unfold remove_assets_any. simpl for_each. unfold bind.
  rewrite (handle_assets_any_none host r a st Hk). reflexivity.
Qed.

Lemma remove_assets_any_none_unknown r a (assets : list string) (p : string) st :
  known a = false ->
  remove_assets_any host (NoChunk r) (a :: assets) (ret p) st
    = remove_assets_any host (NoChunk r) assets (ret p)
        (add_log (failure_entry a p)
           (add_event (EPrint ("Unknown asset type: " ++ a)%string)
              (add_event (EDispatch r a) st))).
Proof.
  intros Hk. unfold remove_assets_any. simpl for_each. unfold bind at 1 2.
  rewrite (handle_assets_any_none_unknown host r a st Hk). reflexivity.
Qed.

(** The pass on [None] makes no call, dispatches only its assets and
    leaves the open project's chunk alone. *)
Lemma remove_assets_any_none_calls r (selected assets : list string) (p : string) :
  incl assets selected ->
  forall st,
  exists evs,
    trace (snd (remove_assets_any host (NoChunk r) assets (ret p) st))
      = trace st ++ evs /\
    Forall (handler_events r selected) evs /\
    host_ops evs = [] /\
    app_chunk (snd (remove_assets_any host (NoChunk r) assets (ret p) st))
      = app_chunk st.
Proof.
  induction assets as [|a assets IH]; intros Hin st.
  - exists []. simpl. rewrite app_nil_r. auto.
  - assert (Ha : In a selected) by (apply Hin; left; reflexivity).
    destruct (known a) eqn:Hk.
    + rewrite (remove_assets_any_none_known r a assets (ret p) st Hk).
      exists [EDispatch r a]. repeat split. constructor; simpl; auto.
    + rewrite (remove_assets_any_none_unknown r a assets p st Hk).
      match goal with |- context [remove_assets_any _ _ _ _ ?s] =>
        destruct (IH (fun x Hx => Hin x (or_intror Hx)) s)
          as (evs & Ht & HP & Hops & Happ) end.
      exists (EDispatch r a :: EPrint ("Unknown asset type: " ++ a)%string :: evs).
      rewrite Ht, Happ. simpl. rewrite <- !app_assoc. simpl.
      repeat split; auto.
      constructor; [simpl; auto|]. constructor; [exact I | exact HP].
Qed.

End Calls.

(** One target of the batch: the calls are those of [target_ops], on the
    opened document's chunk, and the open project's chunk is left alone. *)
Lemma clean_file_any_calls host docs (selected : list string) (p : string) st :
  exists st' evs,
    clean_file_any host docs selected p st = (Ok tt, st') /\
    trace st' = trace st ++ evs /\
    Forall (handler_events OpenedDocument selected) evs /\
    host_ops evs = target_ops host docs selected p /\
    app_chunk st' = app_chunk st.
Proof.
  destruct (chunkless docs host p) eqn:Hc.
  - unfold chunkless, opened in Hc.
    unfold clean_file_any, try_except, bind at 1, open_document_any, target_ops.
    destruct (doc_open host p) as [e|c]; [discriminate|]. simpl in Hc. rewrite Hc.
    unfold bind at 1.
    destruct (remove_assets_any_none_calls host OpenedDocument selected selected p
                (incl_refl _) (add_event (EOpen p None) st))
      as (evs & Ht & HP & Hops & Happ).
    destruct (remove_assets_any host (NoChunk OpenedDocument) selected (ret p)
                (add_event (EOpen p None) st)) as [[[]|e] st1];
      simpl in Ht, Happ.
    + unfold save_document.
      destruct (doc_save host p (doc_chunk st1)) as [e|];
        eexists _, (EOpen p None :: evs ++ [ESave p _]);
        (split; [reflexivity|]); simpl; rewrite Ht, <- !app_assoc;
        (split; [reflexivity|]);
        (split; [constructor; [exact I|]; apply Forall_app; split;
                 [exact HP | repeat constructor]|]);
        rewrite host_ops_app, Hops; auto.
    + eexists _, (EOpen p None :: evs).
      split; [reflexivity|]. simpl. rewrite Ht, <- !app_assoc.
      repeat split; auto. constructor; [exact I | exact HP].
  - rewrite (clean_file_any_object host docs selected p st Hc).
    destruct (clean_file_run host selected p st)
      as (evs & es & st' & Hr & Ht & _ & _ & Ha).
    exists st', evs. split; [exact Hr|]. split; [exact Ht|].
    split.
    { destruct (clean_file_emits host selected p st) as (evs' & Ht' & HP).
      rewrite Hr in Ht'. simpl in Ht'. rewrite Ht in Ht'.
      apply app_inv_head in Ht'. subst evs'. exact HP. }
    split; [|exact Ha].
    unfold chunkless, opened in Hc. unfold target_ops.
    revert Hr Ht. unfold clean_file, try_except, bind at 1, open_document.
    destruct (doc_open host p) as [e|c].
    + intros Hr Ht. injection Hr as <-. simpl in Ht.
      apply app_inv_head in Ht. subst evs. reflexivity.
    + simpl in Hc. rewrite Hc. unfold bind.
      destruct (remove_assets_calls host OpenedDocument selected (ret p)
                  ltac:(intros s; exists p; reflexivity)
                  (add_event (EOpen p None) (set_chunk OpenedDocument c st)))
        as (st1 & evs1 & Hr1 & Ht1 & Hp).
      rewrite Hr1. simpl in Ht1, Hp. unfold save_document.
      destruct (doc_save host p (doc_chunk st1)) as [e|];
        intros Hr Ht; injection Hr as <-; simpl in Ht;
        rewrite Ht1, <- !app_assoc in Ht; apply app_inv_head in Ht; subst evs;
        simpl; rewrite host_ops_app, Hp; simpl; apply app_nil_r.
Qed.

Lemma clean_loop_any_calls host docs (selected ps : list string) :
  forall st,
  exists st' evs,
    for_each ps (clean_file_any host docs selected) st = (Ok tt, st') /\
    trace st' = trace st ++ evs /\
    Forall (handler_events OpenedDocument selected) evs /\
    host_ops evs = flat_map (target_ops host docs selected) ps /\
    app_chunk st' = app_chunk st.
Proof.
  induction ps as [|p ps IH]; intros st.
  - exists st, []. simpl. rewrite app_nil_r. auto.
  - simpl for_each. unfold bind.
    destruct (clean_file_any_calls host docs selected p st)
      as (st1 & evs & Hr & Ht & HP & Hops & Ha).
    rewrite Hr.
    destruct (IH st1) as (st2 & evs2 & Hr2 & Ht2 & HP2 & Hops2 & Ha2).
    exists st2, (evs ++ evs2).
    rewrite Hr2, Ht2, Ht, host_ops_app, Hops, Hops2, Ha2, Ha, app_assoc. simpl.
    repeat split. apply Forall_app; auto.
Qed.

Lemma target_ops_nil host docs (ps : list string) :
  flat_map (target_ops host docs []) ps = [].
Proof.
  induction ps as [|p ps IH]; [reflexivity|].
  simpl. rewrite IH. unfold target_ops.
  destruct (doc_open host p); [reflexivity|].
  destruct (no_chunk docs p); reflexivity.
Qed.

(** The batch: nothing unless confirmed, else the calls of each target in
    turn. *)
Lemma clean_files_any_calls host user docs self ps st :
  Forall (handler_events OpenedDocument (get_selected_assets self))
         (events_of (clean_files_any host user docs self ps) st) /\
  host_ops (events_of (clean_files_any host user docs self ps) st)
    = (if confirmed user (get_selected_assets self) ps
       then flat_map (target_ops host docs (get_selected_assets self)) ps
       else []) /\
  app_chunk (snd (clean_files_any host user docs self ps st)) = app_chunk st.
Proof.
  unfold clean_files_any, confirmed.
  destruct (get_selected_assets self) as [|a assets] eqn:Ea.
  - rewrite (events_of_intro _ st []) by (simpl; symmetry; apply app_nil_r).
    rewrite target_ops_nil. simpl.
    destruct (question_reply user confirm_title (confirm_message [] ps)); auto.
  - simpl truthy. cbv iota.
    destruct (question_reply user confirm_title (confirm_message (a :: assets) ps))
      eqn:Eq.
    + destruct (clean_loop_any_calls host docs (a :: assets) ps
                  (add_event (EQuestion confirm_title
                                (confirm_message (a :: assets) ps) true)
                             (clear_log st)))
        as (st1 & evs & Hr & Ht & HP & Hops & Ha).
      assert (Hrun : (log_new ;;
                      ok <- confirm_removal user (a :: assets) ps ;;
                      if ok
                      then for_each ps (clean_file_any host docs (a :: assets)) ;;
                           show_log
                      else ret tt) st
                     = (Ok tt, add_event (EShowLog (log st1)) st1)).
      { unfold bind at 1, log_new.
        unfold bind at 1, confirm_removal, bind at 1, emit, ret. rewrite Eq.
        unfold bind at 1. rewrite Hr. reflexivity. }
      rewrite (events_of_intro _ st
                 (EQuestion confirm_title (confirm_message (a :: assets) ps) true
                  :: evs ++ [EShowLog (log st1)])).
      * rewrite Hrun. simpl. rewrite host_ops_app, Hops. simpl.
        rewrite app_nil_r. repeat split; auto.
        constructor; [exact I|]. apply Forall_app. split; [exact HP|].
        repeat constructor.
      * rewrite Hrun. simpl. rewrite Ht. simpl. rewrite <- !app_assoc. reflexivity.
    + assert (Hrun : (log_new ;;
                      ok <- confirm_removal user (a :: assets) ps ;;
                      if ok
                      then for_each ps (clean_file_any host docs (a :: assets)) ;;
                           show_log
                      else ret tt) st
                     = (Ok tt,
                        add_event (EQuestion confirm_title
                                     (confirm_message (a :: assets) ps) false)
                                  (clear_log st))).
      { unfold bind at 1, log_new.
        unfold bind at 1, confirm_removal, bind at 1, emit, ret. rewrite Eq.
        reflexivity. }
      rewrite (events_of_intro _ st
                 [EQuestion confirm_title (confirm_message (a :: assets) ps) false])
        by (rewrite Hrun; reflexivity).
      rewrite Hrun. simpl. repeat split; auto. repeat constructor.
Qed.

(** The current-project handler: nothing on a project without a chunk or
    unless confirmed, else the calls of the pass on the open project's
    chunk. *)
Lemma remove_from_project_any_calls host user docs self st :
  Forall (handler_events AppDocument (get_selected_assets self))
         (events_of (remove_from_project_any host user docs self) st) /\
  host_ops (events_of (remove_from_project_any host user docs self) st)
    = (if app_no_chunk docs then []
       else if confirmed user (get_selected_assets self) [label (app_chunk st)]
            then pass_ops host (get_selected_assets self) (app_chunk st)
            else []) /\
  doc_chunk (snd (remove_from_project_any host user docs self st)) = doc_chunk st.
Proof.
  destruct (app_no_chunk docs) eqn:Happ.
  - rewrite (remove_from_project_any_none host user docs self st Happ).
    rewrite (events_of_intro _ st []).
    + simpl. auto.
    + rewrite (remove_from_project_any_none host user docs self st Happ).
      simpl. symmetry. apply app_nil_r.
  - rewrite (remove_from_project_any_object host user docs self Happ).
    split; [apply emits_events, remove_from_project_emits|].
    split.
    2:{ destruct (remove_from_project_run host user self st) as (st' & Hr & Hd & _).
        rewrite Hr. exact Hd. }
    unfold confirmed, remove_from_project.
    destruct (question_reply user confirm_title
                (confirm_message (get_selected_assets self) [label (app_chunk st)]))
      eqn:Eq.
    + destruct (remove_assets_calls host AppDocument (get_selected_assets self)
                  (attr AppDocument label)
                  ltac:(intros s; eexists; reflexivity)
                  (add_event (EQuestion confirm_title
                                (confirm_message (get_selected_assets self)
                                                 [label (app_chunk st)]) true)
                             (clear_log st)))
        as (st1 & evs & Hr & Ht & Hp).
      rewrite (events_of_intro _ st
                 (EQuestion confirm_title
                    (confirm_message (get_selected_assets self)
                                     [label (app_chunk st)])
                    true
                  :: evs ++ [EShowLog (log st1)])).
      * simpl. rewrite host_ops_app. simpl. rewrite app_nil_r. exact Hp.
      * unfold bind at 1, attr at 1. simpl get_chunk.
        unfold bind at 1, log_new.
        unfold bind at 1, confirm_removal, bind at 1, emit, ret. rewrite Eq.
        unfold bind at 1. rewrite Hr. unfold show_log, bind, get_log, emit.
        simpl. rewrite Ht. simpl. rewrite <- !app_assoc. reflexivity.
    + rewrite (events_of_intro _ st
                 [EQuestion confirm_title
                    (confirm_message (get_selected_assets self)
                                     [label (app_chunk st)])
                    false]); [reflexivity|].
      unfold bind at 1, attr at 1. simpl get_chunk.
      unfold bind at 1, log_new.
      unfold bind at 1, confirm_removal, bind at 1, emit, ret. rewrite Eq.
      reflexivity.
Qed.

(** X8.  A handler only removes what is checked.  Every dispatch is of a
    selected label and on the handler's own chunk, and so is every call: the
    current-project handler calls only the open project's chunk and leaves
    the batch document alone; the two file handlers call only the chunk of
    the document they opened and leave the open project's chunk as it was.
    The calls themselves are exactly, asset by asset in check-box order, the
    calls of the selected label's branch up to the first that raises, with
    the arguments read from the chunk as it is when that dispatch starts.
    The pass of the current-project handler starts from the open project's
    chunk; the pass on a batch target starts from the chunk the document
    opened with; a target that does not open or has no chunk gets no call;
    and without a confirmation no call is made at all. *)
Theorem only_checked_kinds_are_removed
    (host : Host) (user : User) (walk_tree : string -> dir) (docs : Documents)
    (self : CleanUpDlg) (st : State) :
  (Forall (handler_events AppDocument (get_selected_assets self))
          (events_of (remove_from_project_any host user docs self) st) /\
   host_ops (events_of (remove_from_project_any host user docs self) st)
     = (if app_no_chunk docs then []
        else if confirmed user (get_selected_assets self) [label (app_chunk st)]
             then pass_ops host (get_selected_assets self) (app_chunk st)
             else []) /\
   doc_chunk (snd (remove_from_project_any host user docs self st))
     = doc_chunk st) /\
  (Forall (handler_events OpenedDocument (get_selected_assets self))
          (events_of (select_project_any host user docs self) st) /\
   (forall ps,
      file_dialog user = Some ps ->
      host_ops (events_of (select_project_any host user docs self) st)
        = if confirmed user (get_selected_assets self) ps
          then flat_map (target_ops host docs (get_selected_assets self)) ps
          else []) /\
   app_chunk (snd (select_project_any host user docs self st)) = app_chunk st) /\
  (forall file_paths checkboxes,
     Forall (handler_events OpenedDocument (get_selected_assets self))
            (events_of (process_selected_projects_any host user docs self
                          file_paths checkboxes) st) /\
     (forall ps,
        selected_files_from 0 file_paths checkboxes = Some ps ->
        host_ops (events_of (process_selected_projects_any host user docs self
                               file_paths checkboxes) st)
          = if confirmed user (get_selected_assets self) ps
            then flat_map (target_ops host docs (get_selected_assets self)) ps
            else []) /\
     app_chunk (snd (process_selected_projects_any host user docs self
                       file_paths checkboxes st))
       = app_chunk st) /\
  (Forall (handler_events OpenedDocument (get_selected_assets self))
          (events_of (remove_from_subfolders_any host user walk_tree docs self) st) /\
   app_chunk (snd (remove_from_subfolders_any host user walk_tree docs self st))
     = app_chunk st).
Proof.
  assert (Hidle : forall (m : M unit),
            idle m ->
            Forall (handler_events OpenedDocument (get_selected_assets self))
                   (events_of m st) /\
            host_ops (events_of m st) = [] /\
            app_chunk (snd (m st)) = app_chunk st).
  { intros m Hm. rewrite (idle_events m st Hm), (idle_state m st Hm). auto. }
  assert (Hproc : forall fps cbs,
     Forall (handler_events OpenedDocument (get_selected_assets self))
            (events_of (process_selected_projects_any host user docs self
                          fps cbs) st) /\
     (forall ps,
        selected_files_from 0 fps cbs = Some ps ->
        host_ops (events_of (process_selected_projects_any host user docs self
                               fps cbs) st)
          = if confirmed user (get_selected_assets self) ps
            then flat_map (target_ops host docs (get_selected_assets self)) ps
            else []) /\
     app_chunk (snd (process_selected_projects_any host user docs self
                       fps cbs st))
       = app_chunk st).
  { intros fps cbs.
    destruct (process_selected_projects_any_cases host user docs self fps cbs)
      as [[Hm Hid] | (ps' & Hsel' & _ & ->)].
    - destruct (Hidle _ Hid) as (H1 & H2 & H3).
      split; [exact H1|]. split; [|exact H3].
      intros ps Hsel. rewrite Hsel in Hm. destruct ps; [|contradiction].
      rewrite H2. destruct (confirmed user (get_selected_assets self) []);
        reflexivity.
    - destruct (clean_files_any_calls host user docs self ps' st) as (H1 & H2 & H3).
      split; [exact H1|]. split; [|exact H3].
      intros ps Hsel. assert (ps' = ps) by congruence. subst ps'. exact H2. }
  split; [apply remove_from_project_any_calls|].
  split; [|split; [exact Hproc|]].
  - destruct (select_project_any_cases host user docs self)
      as [[Hnone Hid] | (ps' & Hfd' & ->)].
    + destruct (Hidle _ Hid) as (H1 & H2 & H3).
      split; [exact H1|]. split; [|exact H3]. intros ps Hfd. congruence.
    + destruct (clean_files_any_calls host user docs self ps' st) as (H1 & H2 & H3).
      split; [exact H1|]. split; [|exact H3].
      intros ps Hfd. assert (ps' = ps) by congruence. subst ps'. exact H2.
  - destruct (remove_from_subfolders_any_cases host user walk_tree docs self)
      as [Hid | (fps & cbs & ->)].
    + destruct (Hidle _ Hid) as (H1 & _ & H3). auto.
    + destruct (Hproc fps cbs) as (H1 & _ & H3). auto.
Qed.

(** A batch over two projects whose chunk has the orthomosaics 6 and 7 and
    a shape layer, with Orthomosaics and Shapes checked: the calls made when
    both have a chunk and when the first has none.  The Models branch would
    have removed the model 4. *)
Example calls_of_a_batch :
  host_ops (events_of (select_project_any quiet_host yes_user all_with_chunk
                         orthomosaics_and_shapes)
                      (start sample_chunk))
    = [ Remove [6; 7]; SetShapesNone; Remove [6; 7]; SetShapesNone ] /\
  host_ops (events_of (select_project_any quiet_host yes_user p1_without_chunk
                         orthomosaics_and_shapes)
                      (start sample_chunk))
    = [ Remove [6; 7]; SetShapesNone ] /\
  branch_calls "Models" sample_chunk = [Remove [4]].
Proof. repeat split; reflexivity. Qed.
